(** * Catalogue filtering, attribute resolution and category tree

    A shallow embedding of the parts of the shop application that decide
    which products a request sees:

    - [shop/models.py]: [Category] (tree traversal, effective type),
      [Product.get_attribute_value], [Product.set_attribute_value],
      [ProductAttributeValue.get_display_value];
    - [shop/serializers.py]: [ProductSerializer.get_attributes];
    - [shop/api_views.py]: [ProductPagination], [CategoryProductFilterView.get],
      [ProductsFilterView.get], the pagination of [api_unified_products],
      [cleanup_product_attributes] and [api_products_by_gender_category] with
      its helpers;
    - [shop/views.py]: the resolution of an attribute value in
      [api_simple_search].

    The database is a record of tables, each table the list of its rows.
    A [QuerySet] is the list of the rows it selects; the order of that list
    is read only where the code fixes the order of the rows ([order_by],
    [first] on a primary key, a loop over the rows of one table).  Python
    exceptions are the constructors of [exn]; code that can raise returns an
    [outcome]. *)

From Stdlib Require Import ZArith Lia Ascii String.
From stdpp Require Import base option list gmap sets strings relations sorting.
From Stdlib Require Qcanon.

Local Open Scope Z_scope.

(** ** Exceptions and the error monad *)

Inductive model :=
  | MCategory
  | MAttribute
  | MNewAttributeValue
  | MProductAttributeValue.

(** [FilterError] stands for the exception [QuerySet.filter] raises on a
    keyword and a value it cannot turn into a condition: [FieldError] for a
    keyword that names no field or no lookup, [ValidationError] for a value
    the column does not accept.  The views catch neither, and no modelled
    code tells them apart. *)
Inductive exn :=
  | DoesNotExist (m : model)
  | MultipleObjectsReturned (m : model)
  | ValueError
  | FilterError
  | NotFound
  | EmptyPage
  | PageNotAnInteger
  | ZeroDivisionError
  | RecursionError.

Inductive outcome (A : Type) :=
  | Return (a : A)
  | Raise (e : exn).
Arguments Return {A} a.
Arguments Raise {A} e.

#[global] Instance outcome_ret : MRet outcome := @Return.
#[global] Instance outcome_bind : MBind outcome := λ A B f m,
  match m with
  | Return a => f a
  | Raise e => Raise e
  end.

#[global] Instance outcome_fmap : FMap outcome := λ A B f m,
  match m with
  | Return a => Return (f a)
  | Raise e => Raise e
  end.

Notation "f <$$> m" := (fmap (M := outcome) (fmap (M := list) f) m)
  (at level 61, left associativity, only parsing).

(** [for x in l: acc = body acc x], stopping at the first exception. *)
Fixpoint for_each {A B : Type} (body : B → A → outcome B) (acc : B) (l : list A)
  : outcome B :=
  match l with
  | [] => Return acc
  | x :: l' => acc' ← body acc x; for_each body acc' l'
  end.

(** ** Python strings

    A string is the UTF-8 encoding of the Python [str].  [str.strip] removes
    the characters for which [str.isspace] holds, in ASCII and outside it.
    [str.lower] is modelled on the ASCII capitals: the views use it only to
    test membership in lists of ASCII words, and no character outside ASCII
    has one of their letters as its lower case. *)

(** The white space of ASCII: U+0009 to U+000D, U+001C to U+001F and the
    space. *)
Definition is_space (a : ascii) : bool :=
  let n := nat_of_ascii a in
  ((9 <=? n)%nat && (n <=? 13)%nat) || ((28 <=? n)%nat && (n <=? 32)%nat).

(** The white space encoded in two bytes: U+0085 and U+00A0. *)
Definition is_space2 (a b : ascii) : bool :=
  (nat_of_ascii a =? 194)%nat
  && ((nat_of_ascii b =? 133)%nat || (nat_of_ascii b =? 160)%nat).

(** The white space encoded in three bytes: U+1680, U+2000 to U+200A,
    U+2028, U+2029, U+202F, U+205F and U+3000. *)
Definition is_space3 (a b c : ascii) : bool :=
  let a := nat_of_ascii a in
  let b := nat_of_ascii b in
  let c := nat_of_ascii c in
  ((a =? 225) && (b =? 154) && (c =? 128))%nat
  || ((a =? 226) && (b =? 128)
      && (((128 <=? c) && (c <=? 138)) || (c =? 168) || (c =? 169) || (c =? 175)))%nat
  || ((a =? 226) && (b =? 129) && (c =? 159))%nat
  || ((a =? 227) && (b =? 128) && (c =? 128))%nat.

(** [s.strip()] is empty: every character of [s] is white space. *)
Fixpoint all_space (s : string) : bool :=
  match s with
  | EmptyString => true
  | String a s1 =>
      if is_space a then all_space s1
      else
        match s1 with
        | EmptyString => false
        | String b s2 =>
            if is_space2 a b then all_space s2
            else
              match s2 with
              | EmptyString => false
              | String c s3 => if is_space3 a b c then all_space s3 else false
              end
        end
  end.

(** Truth value of [v and v.strip()]: some character is not white space. *)
Definition nonblank (s : string) : bool := negb (all_space s).

Definition lower_ascii (a : ascii) : ascii :=
  let n := nat_of_ascii a in
  if ((65 <=? n)%nat && (n <=? 90)%nat)%bool then ascii_of_nat (n + 32) else a.

Fixpoint lower (s : string) : string :=
  match s with
  | EmptyString => EmptyString
  | String a s' => String (lower_ascii a) (lower s')
  end.

Fixpoint startswith (pre s : string) : bool :=
  match pre, s with
  | EmptyString, _ => true
  | String a pre', String b s' => bool_decide (a = b) && startswith pre' s'
  | String _ _, EmptyString => false
  end.

(** [sub in s] for strings. *)
Fixpoint contains (sub s : string) : bool :=
  startswith sub s ||
  match s with
  | EmptyString => false
  | String _ s' => contains sub s'
  end.

(** ** QueryDict

    The query string as parsed by Django: the (key, value) pairs in the
    order they were sent.  A key may repeat. *)

Definition QueryDict := list (string * string).

(** [query_params.keys()]: each key once, in order of first occurrence. *)
Fixpoint keys (q : QueryDict) : list string :=
  match q with
  | [] => []
  | (k, _) :: q' => k :: filter (λ k', k' ≠ k) (keys q')
  end.

(** [query_params.getlist(key)]. *)
Definition getlist (key : string) (q : QueryDict) : list string :=
  (filter (λ kv, kv.1 = key) q).*2.

(** [query_params.get(key)]: the last value sent for the key. *)
Definition get (key : string) (q : QueryDict) : option string :=
  last (getlist key q).

(** A Python dict built by assignment inside a loop over distinct keys. *)
Definition dict (V : Type) := list (string * V).

Fixpoint dict_get {V} (key : string) (d : dict V) : option V :=
  match d with
  | [] => None
  | (k, v) :: d' => if decide (k = key) then Some v else dict_get key d'
  end.

(** ** The database

    One record per Django model of [shop/models.py], with the columns the
    modelled code reads.  Foreign keys are the primary key of the row they
    point to.  [created_at] is a timestamp; prices are in the smallest unit
    of their column. *)

Record Category := {
  cat_id : Z;
  cat_name : string;
  cat_parent : option Z;
  cat_category_type : string;
}.

Record Attribute := {
  attr_id : Z;
  attr_key : string;
}.

Record NewAttributeValue := {
  nav_id : Z;
  nav_attribute : Z;
  nav_value : string;
}.

Record ProductAttributeValue := {
  pav_id : Z;
  pav_product : Z;
  pav_attribute : Z;
  pav_attribute_value : option Z;
  pav_custom_value : option string;
}.

Record ProductAttribute := {
  pa_product : Z;
  pa_key : string;
  pa_value : string;
}.

Record CategoryAttribute := {
  ca_category : Z;
  ca_key : string;
}.

Record Product := {
  prod_id : Z;
  prod_name : string;
  prod_description : string;
  prod_sku : string;
  prod_model : string;
  prod_category : Z;
  prod_is_active : bool;
  prod_is_new_arrival : bool;
  prod_created_at : Z;
  prod_price_toman : Z;
  prod_price_usd : option Z;
  prod_price : option Z;
}.

#[global] Instance Product_eq_dec : EqDecision Product.
Proof. solve_decision. Defined.

Record DB := {
  categories : list Category;
  attributes : list Attribute;
  attribute_values : list NewAttributeValue;
  product_attribute_values : list ProductAttributeValue;
  product_attributes : list ProductAttribute;
  category_attributes : list CategoryAttribute;
  products : list Product;
}.

(** [Model.objects.get(...)]: the single row that satisfies the condition. *)
Definition objects_get {A} (m : model) (P : A → Prop) `{∀ x, Decision (P x)}
    (table : list A) : outcome A :=
  match filter P table with
  | [] => Raise (DoesNotExist m)
  | [x] => Return x
  | _ => Raise (MultipleObjectsReturned m)
  end.

(** [queryset.exists()] *)
Definition queryset_exists {A} (rows : list A) : bool :=
  match rows with
  | [] => false
  | _ :: _ => true
  end.

(** ** Category ([shop/models.py], class [Category]) *)

(** [self.subcategories.all()]: the rows whose [parent] is [self]. *)
Definition subcategories (db : DB) (self : Category) : list Category :=
  filter (λ c, cat_parent c = Some (cat_id self)) (categories db).

(** The query set [self.product_set.filter(is_active=True)]: the rows it
    selects.  The code takes [exists()] and [count()] of it or hands it on;
    iterating it gives the rows under [Product.Meta.ordering]
    ([iterate_products] below), not in the order of this list. *)
Definition direct_products (db : DB) (self : Category) : list Product :=
  filter (λ p, prod_category p = cat_id self ∧ prod_is_active p = true) (products db).

(** [get_all_subcategories].  Python bounds the depth of the call stack;
    [depth] is the number of frames left, and running out of them raises
    [RecursionError].  The body keeps no record of the categories it has
    already visited. *)
Fixpoint get_all_subcategories (depth : nat) (db : DB) (self : Category)
  : outcome (list Category) :=
  match depth with
  | O => Raise RecursionError
  | S d =>
      let subs := subcategories db self in
      for_each (λ acc subcategory,
                  more ← get_all_subcategories d db subcategory;
                  Return (acc ++ more))
               subs subs
  end.

Definition get_effective_category_type (db : DB) (self : Category) : string :=
  if negb (bool_decide (cat_category_type self = "auto")) then cat_category_type self
  else
    let has_subcategories := queryset_exists (subcategories db self) in
    let has_direct_products := queryset_exists (direct_products db self) in
    if has_subcategories && negb has_direct_products then "container"
    else if negb has_subcategories && has_direct_products then "direct"
    else if has_subcategories && has_direct_products then "container"
    else "direct".

Definition is_container_category (db : DB) (self : Category) : bool :=
  bool_decide (get_effective_category_type db self = "container").

(** [get_all_products]: the query set of the active products of the
    category and, for a container, of every category
    [get_all_subcategories] returns.  As for [direct_products], the list
    holds the rows the query set selects; its callers count it or sort it
    again, and iterating it is [iterate_products]. *)
Definition get_all_products (depth : nat) (db : DB) (self : Category)
  : outcome (list Product) :=
  if is_container_category db self then
    all_subcategories ← get_all_subcategories depth db self;
    let query := cat_id self :: (cat_id <$> all_subcategories) in
    Return (filter (λ p, prod_category p ∈ query ∧ prod_is_active p = true) (products db))
  else Return (direct_products db self).

(** ** Attribute values ([shop/models.py]) *)

(** [ProductAttributeValue.get_display_value].  Reading
    [self.attribute_value] follows the foreign key. *)
Definition get_display_value (db : DB) (self : ProductAttributeValue)
  : outcome string :=
  match pav_attribute_value self with
  | Some pk =>
      attribute_value ← objects_get MNewAttributeValue (λ v, nav_id v = pk)
                                    (attribute_values db);
      Return (nav_value attribute_value)
  | None => Return (default "" (pav_custom_value self))
  end.

(** [self.attribute_values.get(attribute=attribute)] *)
Definition product_attr_get (db : DB) (self : Product) (attribute : Attribute)
  : outcome ProductAttributeValue :=
  objects_get MProductAttributeValue
    (λ r, pav_product r = prod_id self ∧ pav_attribute r = attr_id attribute)
    (product_attribute_values db).

(** [Product.get_attribute_value]: the [try] block, then the [except]
    clause for [Attribute.DoesNotExist] and
    [ProductAttributeValue.DoesNotExist]. *)
Definition get_attribute_value (db : DB) (self : Product) (attribute_key : string)
  : outcome (option string) :=
  match
    attribute ← objects_get MAttribute (λ a, attr_key a = attribute_key)
                            (attributes db);
    product_attr ← product_attr_get db self attribute;
    value ← get_display_value db product_attr;
    Return (Some value)
  with
  | Raise (DoesNotExist MAttribute) => Return None
  | Raise (DoesNotExist MProductAttributeValue) => Return None
  | r => r
  end.

(** The primary key the database gives to a new row: a key that is not in
    use.  The engine takes the successor of the largest key it has ever
    given; this is the successor of the largest key present, which is the
    same until a row is deleted.  Nothing below reads more of the key than
    that it is new. *)
Definition fresh_pk (pks : list Z) : Z := 1 + foldr Z.max 0 pks.

(** [product_attr.save()] for a row that has a primary key: UPDATE by pk. *)
Definition pav_save (row : ProductAttributeValue) (db : DB) : DB :=
  {| categories := categories db;
     attributes := attributes db;
     attribute_values := attribute_values db;
     product_attribute_values :=
       (λ r, if decide (pav_id r = pav_id row) then row else r)
         <$> product_attribute_values db;
     product_attributes := product_attributes db;
     category_attributes := category_attributes db;
     products := products db |}.

(** INSERT of a new [ProductAttributeValue] row. *)
Definition pav_insert (row : ProductAttributeValue) (db : DB) : DB :=
  {| categories := categories db;
     attributes := attributes db;
     attribute_values := attribute_values db;
     product_attribute_values := product_attribute_values db ++ [row];
     product_attributes := product_attributes db;
     category_attributes := category_attributes db;
     products := products db |}.

(** [ProductAttributeValue.objects.get_or_create(product=self,
    attribute=attribute, defaults={})] *)
Definition pav_get_or_create (db : DB) (self : Product) (attribute : Attribute)
  : outcome (DB * ProductAttributeValue) :=
  match product_attr_get db self attribute with
  | Return row => Return (db, row)
  | Raise (DoesNotExist MProductAttributeValue) =>
      let row := {| pav_id := fresh_pk (pav_id <$> product_attribute_values db);
                    pav_product := prod_id self;
                    pav_attribute := attr_id attribute;
                    pav_attribute_value := None;
                    pav_custom_value := None |} in
      Return (pav_insert row db, row)
  | Raise e => Raise e
  end.

(** [Product.set_attribute_value].  On success the new state of the
    database and the saved row are returned. *)
Definition set_attribute_value (db : DB) (self : Product)
    (attribute_key value : string) : outcome (DB * ProductAttributeValue) :=
  match
    attribute ← objects_get MAttribute (λ a, attr_key a = attribute_key)
                            (attributes db);
    '(db1, product_attr) ← pav_get_or_create db self attribute;
    product_attr ←
      match objects_get MNewAttributeValue
              (λ v, nav_attribute v = attr_id attribute ∧ nav_value v = value)
              (attribute_values db1) with
      | Return attribute_value =>
          Return {| pav_id := pav_id product_attr;
                    pav_product := pav_product product_attr;
                    pav_attribute := pav_attribute product_attr;
                    pav_attribute_value := Some (nav_id attribute_value);
                    pav_custom_value := None |}
      | Raise (DoesNotExist MNewAttributeValue) =>
          Return {| pav_id := pav_id product_attr;
                    pav_product := pav_product product_attr;
                    pav_attribute := pav_attribute product_attr;
                    pav_attribute_value := None;
                    pav_custom_value := Some value |}
      | Raise e => Raise e
      end;
    Return (pav_save product_attr db1, product_attr)
  with
  | Raise (DoesNotExist MAttribute) => Raise ValueError
  | r => r
  end.

(** ** Serialized attributes ([shop/serializers.py]) *)

(** The Persian spelling of the brand key, which the serializer renames. *)
Definition brand_fa : string := "برند".

Definition rename_brand (key : string) : string :=
  if decide (key = brand_fa) then "brand" else key.

(** The loop that keeps the first entry of every key. *)
Fixpoint unique_first (seen : gset string) (attrs : list (string * string))
  : list (string * string) :=
  match attrs with
  | [] => []
  | (k, v) :: rest =>
      if decide (k ∈ seen) then unique_first seen rest
      else (k, v) :: unique_first ({[k]} ∪ seen) rest
  end.

(** [category.category_attributes.values_list('key', flat=True)] as a set. *)
Definition category_attribute_keys (db : DB) (category : Z) : gset string :=
  list_to_set (ca_key <$> filter (λ r, ca_category r = category) (category_attributes db)).

(** The first loop of [get_attributes], over [obj.attribute_values.all()]. *)
Definition flexible_entries (db : DB) (obj : Product) : outcome (list (string * string)) :=
  for_each (λ attrs av,
              attribute ← objects_get MAttribute (λ a, attr_id a = pav_attribute av)
                                      (attributes db);
              value ← get_display_value db av;
              let key := rename_brand (attr_key attribute) in
              Return (if decide (value ≠ "") then attrs ++ [(key, value)]
                      else attrs))
           []
           (filter (λ r, pav_product r = prod_id obj) (product_attribute_values db)).

(** The second loop, over [obj.legacy_attribute_set.all()], which goes on
    appending to the same list. *)
Definition legacy_entries (db : DB) (obj : Product) (attrs : list (string * string))
  : list (string * string) :=
  foldl (λ attrs legacy,
           let key := rename_brand (pa_key legacy) in
           if decide (pa_value legacy ≠ "") then attrs ++ [(key, pa_value legacy)]
           else attrs)
        attrs
        (filter (λ r, pa_product r = prod_id obj) (product_attributes db)).

(** [ProductSerializer.get_attributes] *)
Definition get_attributes (db : DB) (obj : Product) : outcome (list (string * string)) :=
  let allowed_keys := category_attribute_keys db (prod_category obj) in
  flexible ← flexible_entries db obj;
  let attrs := legacy_entries db obj flexible in
  let unique_attributes := unique_first ∅ attrs in
  Return (if decide (allowed_keys ≠ ∅)
          then filter (λ attr, attr.1 ∈ allowed_keys) unique_attributes
          else unique_attributes).

(** ** What the code takes from Python and from the database engine

    [float()] and [int()] on a string ([None] stands for [ValueError]), the
    resolution of a keyword such as [price__gte] and a number into a
    condition on a product ([None] when [QuerySet.filter] raises, as it does
    for a keyword that names no field or no lookup and for a number the
    column does not accept, such as [nan]), the engine's case-insensitive
    substring test, and the order in which the engine returns rows that the
    sort key of an [ORDER BY] does not tell apart: [tie_order] is the order
    the engine gives to the rows it is about to sort, some rearrangement of
    them. *)
Class Platform := {
  py_float : Type;
  float_of_str : string → option py_float;
  int_of_str : string → option Z;
  filter_lookup : string → py_float → option (Product → bool);
  icontains : string → string → bool;
  tie_order : list Product → list Product;
  tie_order_perm : ∀ rows, tie_order rows ≡ₚ rows;
}.

(** ** Pagination

    [django.core.paginator.Paginator] with its default [orphans=0] and
    [allow_empty_first_page=True], and [rest_framework]'s
    [PageNumberPagination], both library code the views call. *)

Record Paginator := {
  object_list : list Product;
  per_page : Z;
}.

Record Page := {
  page_object_list : list Product;
  number : Z;
  paginator : Paginator;
}.

Definition count (self : Paginator) : Z := Z.of_nat (length (object_list self)).

(** [ceil(max(1, count) / per_page)] *)
Definition num_pages (self : Paginator) : outcome Z :=
  let hits := Z.max 1 (count self) in
  if decide (per_page self = 0) then Raise ZeroDivisionError
  else Return (- ((- hits) `div` per_page self)).

Definition validate_number (self : Paginator) (number : Z) : outcome Z :=
  if decide (number < 1) then Raise EmptyPage
  else
    n ← num_pages self;
    if decide (number > n) then Raise EmptyPage else Return number.

(** [object_list[bottom:top]] for [0 <= bottom]. *)
Definition slice {A} (l : list A) (bottom top : Z) : list A :=
  take (Z.to_nat (top - bottom)) (drop (Z.to_nat bottom) l).

Definition page (self : Paginator) (number : Z) : outcome Page :=
  number ← validate_number self number;
  let bottom := (number - 1) * per_page self in
  let top := bottom + per_page self in
  let top := if decide (top >= count self) then count self else top in
  Return {| page_object_list := slice (object_list self) bottom top;
            number := number;
            paginator := self |}.

Definition page_has_next (pg : Page) : outcome bool :=
  n ← num_pages (paginator pg); Return (bool_decide (number pg < n)).

Definition page_has_previous (pg : Page) : bool := bool_decide (number pg > 1).

(** [class ProductPagination(PageNumberPagination)] *)
Definition page_size : Z := 20.
Definition page_size_query_param : string := "per_page".
Definition max_page_size : Z := 100.

(** [PageNumberPagination.get_page_size]: a positive integer is cut off at
    [max_page_size]; anything else falls back to [page_size]. *)
Definition get_page_size `{Platform} (query_params : QueryDict) : Z :=
  match get page_size_query_param query_params with
  | Some s =>
      match int_of_str s with
      | Some n => if decide (n < 0 ∨ n = 0) then page_size else Z.min n max_page_size
      | None => page_size
      end
  | None => page_size
  end.

(** [PageNumberPagination.paginate_queryset]: an invalid page is answered
    with [NotFound]. *)
Definition paginate_queryset `{Platform} (queryset : list Product)
    (query_params : QueryDict) : outcome Page :=
  let paginator := {| object_list := queryset; per_page := get_page_size query_params |} in
  let result :=
    match get "page" query_params with
    | None | Some "" => page paginator 1
    | Some s =>
        if decide (s = "last") then n ← num_pages paginator; page paginator n
        else
          match int_of_str s with
          | Some n => page paginator n
          | None => Raise PageNotAnInteger
          end
    end in
  match result with
  | Raise EmptyPage | Raise PageNotAnInteger => Raise NotFound
  | r => r
  end.

(** The pagination block of [api_unified_products]: [page] and [limit] are
    read with [int()], and any failure of [paginator.page(page)] is answered
    with page 1. *)
Definition api_unified_products_page `{Platform} (GET : QueryDict)
    (products : list Product) : outcome Page :=
  page_number ← match get "page" GET with
                | Some s => from_option Return (Raise ValueError) (int_of_str s)
                | None => Return 1
                end;
  limit ← match get "limit" GET with
           | Some s => from_option Return (Raise ValueError) (int_of_str s)
           | None => Return 20
           end;
  let paginator := {| object_list := products; per_page := limit |} in
  match page paginator page_number with
  | Return page_obj => Return page_obj
  | Raise _ => page paginator 1
  end.

(** ** The filter views ([shop/api_views.py]) *)

Record Pagination := {
  current_page : Z;
  total_pages : Z;
  total_items : Z;
  has_next : bool;
  has_previous : bool;
}.

(** The three dictionaries the views fill from the query. *)
Record Filters := {
  multi_value_filters : dict (list string);
  price_filters : dict string;
  special_filters : dict string;
}.

Inductive Response :=
  | Response200 (products : list Product) (pagination : Pagination)
  | Response404.

Definition no_filters : Filters :=
  {| multi_value_filters := []; price_filters := []; special_filters := [] |}.

(** [d[key] = value] for a key that is not yet in [d]. *)
Definition dict_set {V} (key : string) (value : V) (d : dict V) : dict V :=
  d ++ [(key, value)].

Definition category_price_keys : list string :=
  ["price__gte"; "price__lte"; "price_toman__gte"; "price_toman__lte";
   "price_usd__gte"; "price_usd__lte"].

Definition special_keys : list string :=
  ["category"; "q"; "search"; "page"; "per_page"; "is_new_arrival"; "is_active"].

(** [key.startswith('price') and ('__gte' in key or '__lte' in key)] *)
Definition general_price_key (key : string) : bool :=
  startswith "price" key && (contains "__gte" key || contains "__lte" key).

(** One round of the loop [for key in query_params.keys()].  [price_key]
    and [special_key] are the tests of the two [elif] branches. *)
Definition collect_key (valid_attribute_keys : gset string)
    (price_key special_key : string → bool) (query_params : QueryDict)
    (f : Filters) (key : string) : Filters :=
  if decide (key ∈ valid_attribute_keys) then
    match filter (λ v, nonblank v = true) (getlist key query_params) with
    | [] => f
    | values =>
        {| multi_value_filters := dict_set key values (multi_value_filters f);
           price_filters := price_filters f;
           special_filters := special_filters f |}
    end
  else if price_key key then
    match get key query_params with
    | Some value =>
        if nonblank value then
          {| multi_value_filters := multi_value_filters f;
             price_filters := dict_set key value (price_filters f);
             special_filters := special_filters f |}
        else f
    | None => f
    end
  else if special_key key then
    match get key query_params with
    | Some value =>
        if nonblank value then
          {| multi_value_filters := multi_value_filters f;
             price_filters := price_filters f;
             special_filters := dict_set key value (special_filters f) |}
        else f
    | None => f
    end
  else f.

Definition collect_filters (valid_attribute_keys : gset string)
    (price_key special_key : string → bool) (query_params : QueryDict) : Filters :=
  foldl (collect_key valid_attribute_keys price_key special_key query_params)
        no_filters (keys query_params).

(** The loop over [price_filters.items()]: a value [float()] rejects is
    skipped; an exception of [products.filter] is not caught and ends the
    loop. *)
Definition apply_price_filters `{Platform} (price_filters : dict string)
    (products : list Product) : outcome (list Product) :=
  for_each (λ products '(price_key, price_value),
              match float_of_str price_value with
              | None => Return products
              | Some x =>
                  match filter_lookup price_key x with
                  | Some cond => Return (filter (λ p, cond p = true) products)
                  | None => Raise FilterError
                  end
              end)
           products price_filters.

(** The three id queries of one attribute key.  A product is listed when
    one related row satisfies all the conditions of the query; [ok] is the
    condition on the value ([= values[0]] or [in values]). *)
Definition legacy_match (db : DB) (key : string) (ok : string → Prop)
    (p : Product) : Prop :=
  Exists (λ r, pa_product r = prod_id p ∧ pa_key r = key ∧ ok (pa_value r))
         (product_attributes db).

(** [attribute_values__attribute__key=key] on a flexible row. *)
Definition attribute_key_is (db : DB) (key : string) (r : ProductAttributeValue)
  : Prop :=
  Exists (λ a, attr_id a = pav_attribute r ∧ attr_key a = key) (attributes db).

Definition new_match (db : DB) (key : string) (ok : string → Prop)
    (p : Product) : Prop :=
  Exists (λ r, pav_product r = prod_id p ∧ attribute_key_is db key r ∧
               Exists (λ v, pav_attribute_value r = Some (nav_id v) ∧ ok (nav_value v))
                      (attribute_values db))
         (product_attribute_values db).

Definition custom_match (db : DB) (key : string) (ok : string → Prop)
    (p : Product) : Prop :=
  Exists (λ r, pav_product r = prod_id p ∧ attribute_key_is db key r ∧
               from_option ok False (pav_custom_value r))
         (product_attribute_values db).

#[global] Instance legacy_match_dec db key ok `{∀ v, Decision (ok v)} p :
  Decision (legacy_match db key ok p).
Proof. unfold legacy_match. apply _. Defined.

#[global] Instance attribute_key_is_dec db key r : Decision (attribute_key_is db key r).
Proof. unfold attribute_key_is. apply _. Defined.

#[global] Instance new_match_dec db key ok `{∀ v, Decision (ok v)} p :
  Decision (new_match db key ok p).
Proof. unfold new_match. apply _. Defined.

#[global] Instance custom_match_dec db key ok `{∀ v, Decision (ok v)} p :
  Decision (custom_match db key ok p).
Proof.
  unfold custom_match. apply Exists_dec. intros r.
  destruct (pav_custom_value r); simpl; apply _.
Defined.

(** [Product.objects.filter(<scope>, <condition>).values_list('id', flat=True)]
    as the set the views build from it. *)
Definition matching_ids (db : DB) (cond : Product → Prop) `{∀ p, Decision (cond p)}
  : gset Z :=
  list_to_set (prod_id <$> filter cond (products db)).

(** [all_matching_ids] of one round of the attribute loop, with its two
    branches on [len(values)].  [scope] is the [category=category]
    condition of the category view. *)
Definition all_matching_ids (db : DB) (scope : Product → Prop)
    `{∀ p, Decision (scope p)} (key : string) (values : list string) : gset Z :=
  match values with
  | [v] =>
      matching_ids db (λ p, scope p ∧ legacy_match db key (λ x, x = v) p)
      ∪ matching_ids db (λ p, scope p ∧ new_match db key (λ x, x = v) p)
      ∪ matching_ids db (λ p, scope p ∧ custom_match db key (λ x, x = v) p)
  | _ =>
      matching_ids db (λ p, scope p ∧ legacy_match db key (λ x, x ∈ values) p)
      ∪ matching_ids db (λ p, scope p ∧ new_match db key (λ x, x ∈ values) p)
      ∪ matching_ids db (λ p, scope p ∧ custom_match db key (λ x, x ∈ values) p)
  end.

(** The loop over [multi_value_filters.items()]. *)
Definition apply_attribute_filters (db : DB) (scope : Product → Prop)
    `{∀ p, Decision (scope p)} (multi_value_filters : dict (list string))
    (products : list Product) : list Product :=
  foldl (λ products '(key, values),
           filter (λ p, prod_id p ∈ all_matching_ids db scope key values) products)
        products multi_value_filters.

(** [.distinct()]: one copy of every row. *)
Fixpoint distinct (rows : list Product) : list Product :=
  match rows with
  | [] => []
  | p :: rows' => p :: filter (λ q, q ≠ p) (distinct rows')
  end.

(** [.order_by('-created_at')].  The engine sorts on [created_at] alone;
    rows with equal [created_at] come in the order the engine chooses,
    [tie_order]. *)
Fixpoint insert_by_created_at (p : Product) (sorted : list Product) : list Product :=
  match sorted with
  | [] => [p]
  | q :: sorted' =>
      if decide (prod_created_at p < prod_created_at q)
      then q :: insert_by_created_at p sorted'
      else p :: q :: sorted'
  end.

Definition order_by_created_at_desc `{Platform} (rows : list Product) : list Product :=
  foldr insert_by_created_at [] (tie_order rows).

(** Iterating a query set of products that carries no [order_by]: the rows
    come under [Product.Meta.ordering], which is [['-created_at']]. *)
Definition iterate_products `{Platform} (queryset : list Product) : list Product :=
  order_by_created_at_desc queryset.

(** The response the views build from [paginator.page]. *)
Definition paginated_response (pg : Page) : outcome Response :=
  n ← num_pages (paginator pg);
  next ← page_has_next pg;
  Return (Response200 (page_object_list pg)
            {| current_page := number pg;
               total_pages := n;
               total_items := count (paginator pg);
               has_next := next;
               has_previous := page_has_previous pg |}).

(** *** [ProductsFilterView] *)

(** The attribute keys that occur on an active product, in the legacy or in
    the flexible store; empty keys are removed. *)
Definition all_attribute_keys (db : DB) : gset string :=
  let active p := prod_is_active p = true in
  let legacy_keys : gset string :=
    list_to_set (pa_key <$>
      filter (λ r, Exists (λ p, active p ∧ prod_id p = pa_product r) (products db))
             (product_attributes db)) in
  let new_keys : gset string :=
    list_to_set (
      filter (λ r, Exists (λ p, active p ∧ prod_id p = pav_product r) (products db))
             (product_attribute_values db)
      ≫= λ r, attr_key <$> filter (λ a, attr_id a = pav_attribute r) (attributes db)) in
  filter (λ key, key ≠ "") (legacy_keys ∪ new_keys).

(** [products.filter(category_id=int(special_filters['category']))], left
    out when the key is absent or [int()] rejects the value. *)
Definition filter_category `{Platform} (special_filters : dict string)
    (products : list Product) : list Product :=
  match dict_get "category" special_filters with
  | Some v =>
      match int_of_str v with
      | Some category_id => filter (λ p, prod_category p = category_id) products
      | None => products
      end
  | None => products
  end.

(** Python's [x or y] on two optional strings, where [None] and the empty
    string are false. *)
Definition py_or (x y : option string) : option string :=
  match x with
  | Some (String _ _) => x
  | _ => y
  end.

Definition truthy (x : option string) : option string :=
  match x with
  | Some (String _ _) => x
  | _ => None
  end.

Definition search_match `{Platform} (search_query : string) (p : Product) : bool :=
  icontains (prod_name p) search_query || icontains (prod_description p) search_query
  || icontains (prod_sku p) search_query || icontains (prod_model p) search_query.

Definition true_words : list string := ["true"; "1"; "yes"].
Definition false_words : list string := ["false"; "0"; "no"].

(** The query set of [ProductsFilterView.get] before the attribute loop:
    the special filters and the price filters. *)
Definition products_filter_base `{Platform} (db : DB) (f : Filters)
  : outcome (list Product) :=
  let special := special_filters f in
  let products0 := filter (λ p, prod_is_active p = true) (products db) in
  let products1 := filter_category special products0 in
  let products2 :=
    match truthy (py_or (dict_get "q" special) (dict_get "search" special)) with
    | Some search_query => filter (λ p, search_match search_query p = true) products1
    | None => products1
    end in
  let products3 :=
    match truthy (dict_get "is_new_arrival" special) with
    | Some is_new_arrival =>
        if decide (lower is_new_arrival ∈ true_words)
        then filter (λ p, prod_is_new_arrival p = true) products2
        else if decide (lower is_new_arrival ∈ false_words)
        then filter (λ p, prod_is_new_arrival p = false) products2
        else products2
    | None => products2
    end in
  let products4 :=
    match truthy (dict_get "is_active" special) with
    | Some is_active =>
        if decide (lower is_active ∈ false_words)
        then filter_category special (filter (λ p, prod_is_active p = false) (products db))
        else products3
    | None => products3
    end in
  apply_price_filters (price_filters f) products4.

(** The query set of [ProductsFilterView.get], from the three dictionaries
    to the ordered rows. *)
Definition products_filter_queryset `{Platform} (db : DB) (f : Filters)
  : outcome (list Product) :=
  products5 ← products_filter_base db f;
  let products6 :=
    apply_attribute_filters db (λ _, True) (multi_value_filters f) products5 in
  Return (order_by_created_at_desc (distinct products6)).

Definition ProductsFilterView_filters (db : DB) (query_params : QueryDict) : Filters :=
  collect_filters (all_attribute_keys db) general_price_key
                  (λ key, bool_decide (key ∈ special_keys)) query_params.

Definition ProductsFilterView_get `{Platform} (db : DB) (query_params : QueryDict)
  : outcome Response :=
  products ← products_filter_queryset db (ProductsFilterView_filters db query_params);
  pg ← paginate_queryset products query_params;
  paginated_response pg.

(** *** [CategoryProductFilterView] *)

Definition CategoryProductFilterView_filters (db : DB) (category : Category)
    (query_params : QueryDict) : Filters :=
  collect_filters (category_attribute_keys db (cat_id category))
                  (λ key, bool_decide (key ∈ category_price_keys))
                  (λ _, false) query_params.

Definition in_category (category : Category) (p : Product) : Prop :=
  prod_category p = cat_id category.

#[global] Instance in_category_dec category p : Decision (in_category category p).
Proof. unfold in_category. apply _. Defined.

(** The query set of [CategoryProductFilterView.get] before the attribute
    loop: the active products of the category, through the price filters. *)
Definition category_filter_base `{Platform} (db : DB) (category : Category)
    (f : Filters) : outcome (list Product) :=
  let products0 :=
    filter (λ p, in_category category p ∧ prod_is_active p = true) (products db) in
  apply_price_filters (price_filters f) products0.

(** The query set of [CategoryProductFilterView.get] once the filters have
    passed the test for an empty answer. *)
Definition category_filter_queryset `{Platform} (db : DB) (category : Category)
    (f : Filters) : outcome (list Product) :=
  products1 ← category_filter_base db category f;
  let products2 :=
    apply_attribute_filters db (in_category category) (multi_value_filters f) products1 in
  Return (order_by_created_at_desc (distinct products2)).

Definition empty_response : Response :=
  Response200 [] {| current_page := 1; total_pages := 1; total_items := 0;
                    has_next := false; has_previous := false |}.

Definition CategoryProductFilterView_get `{Platform} (db : DB)
    (query_params : QueryDict) (category_id : Z) : outcome Response :=
  match objects_get MCategory (λ c, cat_id c = category_id) (categories db) with
  | Raise (DoesNotExist MCategory) => Return Response404
  | Raise e => Raise e
  | Return category =>
      let f := CategoryProductFilterView_filters db category query_params in
      match query_params, multi_value_filters f, price_filters f with
      | _ :: _, [], [] => Return empty_response
      | _, _, _ =>
          products ← category_filter_queryset db category f;
          pg ← paginate_queryset products query_params;
          paginated_response pg
      end
  end.

(** ** Further methods of [shop/models.py] *)

(** [Category.is_direct_category] *)
Definition is_direct_category (db : DB) (self : Category) : bool :=
  bool_decide (get_effective_category_type db self = "direct").

(** [Category.get_product_count] *)
Definition get_product_count (depth : nat) (db : DB) (self : Category) : outcome Z :=
  all_products ← get_all_products depth db self;
  Return (Z.of_nat (length all_products)).

(** [Category.get_subcategory_product_counts]: the dict from the id of
    every direct subcategory to its product count. *)
Definition get_subcategory_product_counts (depth : nat) (db : DB) (self : Category)
  : outcome (gmap Z Z) :=
  for_each (λ counts subcat,
              n ← get_product_count depth db subcat;
              Return (<[cat_id subcat := n]> counts))
           ∅ (subcategories db self).

(** What [ProductAttributeValue.clean] does: it returns, or it raises
    [ValidationError] with a message. *)
Inductive validation :=
  | Valid
  | ValidationError (message : string).

(** Reading [self.attribute_value]: [None] for a null foreign key, the
    row it points to otherwise. *)
Definition attribute_value_of (db : DB) (self : ProductAttributeValue)
  : outcome (option NewAttributeValue) :=
  match pav_attribute_value self with
  | Some pk =>
      Some <$> objects_get MNewAttributeValue (λ v, nav_id v = pk) (attribute_values db)
  | None => Return None
  end.

(** [ProductAttributeValue.clean] *)
Definition clean (db : DB) (self : ProductAttributeValue) : outcome validation :=
  attribute_value ← attribute_value_of db self;
  let has_attribute_value := bool_decide (is_Some attribute_value) in
  let has_custom_value := bool_decide (is_Some (truthy (pav_custom_value self))) in
  Return (
    if negb has_attribute_value && negb has_custom_value
    then ValidationError "Either attribute_value or custom_value must be provided."
    else if has_attribute_value && has_custom_value
    then ValidationError "Only one of attribute_value or custom_value should be provided."
    else Valid).

(** [Product.get_attributes_dict]: the dict from the key of every flexible
    row of the product to its display value. *)
Definition get_attributes_dict (db : DB) (self : Product) : outcome (gmap string string) :=
  for_each (λ attrs attr_value,
              attribute ← objects_get MAttribute (λ a, attr_id a = pav_attribute attr_value)
                                      (attributes db);
              value ← get_display_value db attr_value;
              Return (<[attr_key attribute := value]> attrs))
           ∅
           (filter (λ r, pav_product r = prod_id self) (product_attribute_values db)).

(** The database with another content of the legacy table, after a
    DELETE. *)
Definition legacy_delete (cond : ProductAttribute → Prop) `{∀ r, Decision (cond r)}
    (db : DB) : DB :=
  {| categories := categories db;
     attributes := attributes db;
     attribute_values := attribute_values db;
     product_attribute_values := product_attribute_values db;
     product_attributes := filter (λ r, ¬ cond r) (product_attributes db);
     category_attributes := category_attributes db;
     products := products db |}.

(** [Product._cleanup_attributes_on_category_change].  Reading
    [self.category] follows the foreign key; the rows to delete are the
    legacy rows of the product whose key the category does not define. *)
Definition cleanup_attributes_on_category_change (db : DB) (self : Product)
  : outcome DB :=
  category ← objects_get MCategory (λ c, cat_id c = prod_category self) (categories db);
  let valid_keys := category_attribute_keys db (cat_id category) in
  let invalid_attributes (r : ProductAttribute) :=
    pa_product r = prod_id self ∧ pa_key r ∉ valid_keys in
  let removed_count := length (filter invalid_attributes (product_attributes db)) in
  Return (if decide (0 < removed_count)%nat then legacy_delete invalid_attributes db
          else db).

(** The price attributes of a product instance as [Product.save] sees them
    in memory.  A [Decimal] is a rational number; equality is equality of
    value.  Python rounds the result of an arithmetic operation to 28
    significant digits; the one product below, [price * 50000], is exact for
    every price the column can hold, which is what the statements assume. *)
Abbreviation Decimal := Qcanon.Qc.



(** [not self.price]: the price is [None] or zero. *)
Definition no_price (price : option Decimal) : Prop :=
  price = None ∨ price = Some (Qc_of_Z 0).

#[global] Instance no_price_dec price : Decision (no_price price).
Proof. unfold no_price. apply _. Defined.








(** ** [cleanup_product_attributes] ([shop/api_views.py]) *)

Inductive CleanupResponse :=
  | Cleanup200 (removed_count : nat)
               (removed_attributes kept_attributes current_attributes : list (string * string))
  | Cleanup404
  | Cleanup400.

#[global] Instance ProductAttribute_eq_dec : EqDecision ProductAttribute.
Proof. solve_decision. Defined.

(** [attr.delete()] for every row of [attributes_to_remove]. *)
Definition delete_each (attributes_to_remove : list ProductAttribute) (db : DB) : DB :=
  foldl (λ db attr, legacy_delete (λ r, r = attr) db) db attributes_to_remove.

(** The view: the response and the database it leaves.  A product that
    does not exist gives 404; any other exception gives 400. *)
Definition cleanup_product_attributes (db : DB) (product_id : Z)
  : CleanupResponse * DB :=
  match filter (λ p, prod_id p = product_id) (products db) with
  | [] => (Cleanup404, db)
  | [product] =>
      match objects_get MCategory (λ c, cat_id c = prod_category product)
                        (categories db) with
      | Raise _ => (Cleanup400, db)
      | Return category =>
          let valid_keys := category_attribute_keys db (cat_id category) in
          let current_attributes :=
            filter (λ r, pa_product r = prod_id product) (product_attributes db) in
          let attributes_to_keep := filter (λ r, pa_key r ∈ valid_keys) current_attributes in
          let attributes_to_remove := filter (λ r, pa_key r ∉ valid_keys) current_attributes in
          let db' := delete_each attributes_to_remove db in
          let pair r := (pa_key r, pa_value r) in
          (Cleanup200 (length attributes_to_remove)
                      (pair <$> attributes_to_remove)
                      (pair <$> attributes_to_keep)
                      (pair <$> filter (λ r, pa_product r = prod_id product)
                                       (product_attributes db')),
           db')
      end
  | _ => (Cleanup400, db)
  end.

(** ** Gender and [api_products_by_gender_category] ([shop/api_views.py]) *)

Definition gender_men : string := "مردانه".
Definition gender_women : string := "زنانه".
Definition gender_unisex : string := "یونیسکس".

(** [extract_gender_from_category_name] *)
Definition extract_gender_from_category_name (category_name : string) : option string :=
  if contains gender_men category_name then Some gender_men
  else if contains gender_women category_name then Some gender_women
  else if contains gender_unisex category_name then Some gender_unisex
  else None.

(** [Category.get_gender] ([shop/models.py]), the same three tests on
    [self.name]. *)
Definition get_gender (self : Category) : option string :=
  if contains gender_men (cat_name self) then Some gender_men
  else if contains gender_women (cat_name self) then Some gender_women
  else if contains gender_unisex (cat_name self) then Some gender_unisex
  else None.

(** [queryset.first()] on a query set without an ordering: the row with the
    least primary key. *)
Definition first_by {A} (pk : A → Z) (rows : list A) : option A :=
  foldr (λ x best,
           match best with
           | Some y => if decide (pk y < pk x) then Some y else Some x
           | None => Some x
           end)
        None rows.

(** [get_product_gender]: the flexible row of the key [gender] first; the
    bare [except] sends a failed read of [attribute_value] to the name of
    the category. *)
Definition get_product_gender (db : DB) (product : Product) : outcome (option string) :=
  let from_category :=
    category ← objects_get MCategory (λ c, cat_id c = prod_category product)
                           (categories db);
    Return (get_gender category) in
  match first_by pav_id
          (filter (λ r, pav_product r = prod_id product ∧ attribute_key_is db "gender" r)
                  (product_attribute_values db)) with
  | Some gender_attr =>
      match attribute_value_of db gender_attr with
      | Return (Some attribute_value) => Return (Some (nav_value attribute_value))
      | Return None => Return (pav_custom_value gender_attr)
      | Raise _ => from_category
      end
  | None => from_category
  end.

(** The value of one key in the attribute loop of [api_simple_search]
    ([shop/views.py], under the comment "using new system first, then legacy
    fallback"): the display value of the product's flexible row of the key
    when it is not empty, else the value of its first legacy row of the key
    when that is not empty.  The legacy rows have no primary key column
    here; the table lists them by primary key, and [first()] takes the
    head. *)
Definition simple_search_attribute_value (db : DB) (product : Product) (key : string)
  : outcome (option string) :=
  let pav :=
    first_by pav_id
      (filter (λ r, pav_product r = prod_id product ∧ attribute_key_is db key r)
              (product_attribute_values db)) in
  shown ← match pav with
          | Some pav => get_display_value db pav
          | None => Return ""
          end;
  match shown with
  | String _ _ => Return (Some shown)
  | EmptyString =>
      let legacy :=
        head (filter (λ r, pa_product r = prod_id product ∧ pa_key r = key)
                     (product_attributes db)) in
      Return (legacy ≫= λ legacy, truthy (Some (pa_value legacy)))
  end.

(** [Category.objects.filter(name=name).first()] *)
Definition category_named (db : DB) (name : string) : option Category :=
  first_by cat_id (filter (λ c, cat_name c = name) (categories db)).

(** [products.filter(category__in=[main_category] + main_category.get_all_subcategories())] *)
Definition in_category_tree (depth : nat) (db : DB) (main_category : Category)
    (products : list Product) : outcome (list Product) :=
  subcategories ← get_all_subcategories depth db main_category;
  let all_subcategories := main_category :: subcategories in
  Return (filter (λ p, prod_category p ∈ cat_id <$> all_subcategories) products).

(** [filter_by_category_and_gender_attribute].  The two conditions on
    [attribute_values] stand in one [filter] call and so bind the same
    flexible row; [distinct] removes the copies the join makes. *)
Definition filter_by_category_and_gender_attribute (depth : nat) (db : DB)
    (products : list Product) (category_name gender : string) : outcome (list Product) :=
  match category_named db category_name with
  | None => Return []
  | Some main_category =>
      products ← in_category_tree depth db main_category products;
      Return (distinct (filter (λ p, new_match db "gender" (λ x, x = gender) p) products))
  end.

(** The query set of [api_products_by_gender_category]: the category
    stage, the search and the ordering. *)
Definition gender_category_queryset `{Platform} (depth : nat) (db : DB)
    (category_name gender : option string) (search_query : string)
  : outcome (list Product) :=
  let products := filter (λ p, prod_is_active p = true) (products db) in
  products ←
    match truthy category_name with
    | Some category_name =>
        match truthy gender with
        | Some gender =>
            let gender_category_name := category_name +:+ " " +:+ gender in
            match category_named db gender_category_name with
            | Some gender_category =>
                Return (filter (λ p, prod_category p = cat_id gender_category) products)
            | None =>
                filter_by_category_and_gender_attribute depth db products
                  category_name gender
            end
        | None =>
            match category_named db category_name with
            | Some main_category => in_category_tree depth db main_category products
            | None => Return products
            end
        end
    | None => Return products
    end;
  let products :=
    match search_query with
    | String _ _ =>
        filter (λ p, icontains (prod_name p) search_query
                     || icontains (prod_description p) search_query
                     || icontains (prod_model p) search_query = true) products
    | EmptyString => products
    end in
  Return (order_by_created_at_desc products).

(** [Paginator.get_page] of Django: a number that is no integer gives page
    1, a number outside the pages gives the last page. *)
Definition get_page (self : Paginator) (number : Z) : outcome Page :=
  match validate_number self number with
  | Return number => page self number
  | Raise PageNotAnInteger => page self 1
  | Raise EmptyPage => number ← num_pages self; page self number
  | Raise e => Raise e
  end.

(** The answer of [api_products_by_gender_category]: the products of the
    page, each with the gender the loop computes for it, and the pagination
    block; or the answer of the [except Exception] clause. *)
Inductive GenderResponse :=
  | GenderResponse200 (products_data : list (Product * option string))
                      (pagination : Pagination)
  | GenderResponse500.

(** [api_products_by_gender_category].  The key [page] of the pagination
    block, here the field [current_page], is the number that was asked
    for. *)
Definition api_products_by_gender_category `{Platform} (depth : nat) (db : DB)
    (GET : QueryDict) : GenderResponse :=
  let category_name := get "category" GET in
  let gender := get "gender" GET in
  match
    page ← match get "page" GET with
           | Some s => from_option Return (Raise ValueError) (int_of_str s)
           | None => Return 1
           end;
    limit ← match get "limit" GET with
            | Some s => from_option Return (Raise ValueError) (int_of_str s)
            | None => Return 20
            end;
    let search_query := default "" (get "search" GET) in
    products ← gender_category_queryset depth db category_name gender search_query;
    let paginator := {| object_list := products; per_page := limit |} in
    page_obj ← get_page paginator page;
    products_data ←
      for_each (λ products_data product,
                  product_gender ← get_product_gender db product;
                  Return (products_data ++ [(product, product_gender)]))
               [] (page_object_list page_obj);
    total ← num_pages paginator;
    next ← page_has_next page_obj;
    Return (GenderResponse200 products_data
              {| current_page := page;
                 total_pages := total;
                 total_items := count paginator;
                 has_next := next;
                 has_previous := page_has_previous page_obj |})
  with
  | Return response => response
  | Raise _ => GenderResponse500
  end.

(** ** Relations the statements use *)

(** [c] is a row whose parent is [p]. *)
Definition child_of (db : DB) (p c : Category) : Prop :=
  c ∈ categories db ∧ cat_parent c = Some (cat_id p).

(** [c] is reached from [p] by one or more parent links. *)
Definition descendant (db : DB) : relation Category := tc (child_of db).

(** The parent links go strictly down a rank: the relation has no cycle. *)
Definition parent_ranked (db : DB) (rank : Z → nat) : Prop :=
  ∀ c p, c ∈ categories db → cat_parent c = Some p → (rank (cat_id c) < rank p)%nat.

(** The uniqueness constraints the models declare: primary keys,
    [Attribute.key] ([unique=True]), and the two [unique_together]. *)
Record db_unique (db : DB) : Prop := {
  unique_attribute_pk : NoDup (attr_id <$> attributes db);
  unique_attribute_key : NoDup (attr_key <$> attributes db);
  unique_value_pk : NoDup (nav_id <$> attribute_values db);
  unique_value_per_attribute :
    NoDup ((λ v, (nav_attribute v, nav_value v)) <$> attribute_values db);
  unique_row_pk : NoDup (pav_id <$> product_attribute_values db);
  unique_row_per_product :
    NoDup ((λ r, (pav_product r, pav_attribute r)) <$> product_attribute_values db);
}.

(** The foreign keys [attribute] and [attribute_value] of the flexible rows
    point to rows that exist.  The third foreign key of a flexible row,
    [product], is [db_product_references]. *)
Record db_references (db : DB) : Prop := {
  attribute_exists :
    ∀ r, r ∈ product_attribute_values db →
         ∃ a, a ∈ attributes db ∧ attr_id a = pav_attribute r;
  attribute_value_exists :
    ∀ r pk, r ∈ product_attribute_values db → pav_attribute_value r = Some pk →
            ∃ v, v ∈ attribute_values db ∧ nav_id v = pk;
}.

(** The foreign key [product] of every flexible row points to a product
    that exists. *)
Definition db_product_references (db : DB) : Prop :=
  ∀ r, r ∈ product_attribute_values db →
       ∃ p, p ∈ products db ∧ prod_id p = pav_product r.

(** The flexible store holds the value [v] for the key [k] of the product:
    a flexible row whose attribute has the key (after the renaming of the
    brand key) and whose display value [v] is not empty. *)
Definition flexible_entry (db : DB) (obj : Product) (k v : string) : Prop :=
  ∃ r a, r ∈ product_attribute_values db ∧ pav_product r = prod_id obj
         ∧ a ∈ attributes db ∧ attr_id a = pav_attribute r
         ∧ rename_brand (attr_key a) = k
         ∧ get_display_value db r = Return v ∧ v ≠ "".

(** The three ways in which a product records one of the values [V] for a
    key: a legacy row, a flexible row with a predefined choice, a flexible
    row with a custom value. *)
Definition has_legacy_value (db : DB) (key : string) (V : list string)
    (p : Product) : Prop :=
  ∃ r, r ∈ product_attributes db ∧ pa_product r = prod_id p
       ∧ pa_key r = key ∧ pa_value r ∈ V.

Definition has_predefined_value (db : DB) (key : string) (V : list string)
    (p : Product) : Prop :=
  ∃ r a v, r ∈ product_attribute_values db ∧ pav_product r = prod_id p
           ∧ a ∈ attributes db ∧ attr_id a = pav_attribute r ∧ attr_key a = key
           ∧ v ∈ attribute_values db ∧ pav_attribute_value r = Some (nav_id v)
           ∧ nav_value v ∈ V.

Definition has_custom_value (db : DB) (key : string) (V : list string)
    (p : Product) : Prop :=
  ∃ r a c, r ∈ product_attribute_values db ∧ pav_product r = prod_id p
           ∧ a ∈ attributes db ∧ attr_id a = pav_attribute r ∧ attr_key a = key
           ∧ pav_custom_value r = Some c ∧ c ∈ V.

(** Newest first. *)
Definition newer_or_equal (p q : Product) : Prop :=
  prod_created_at q ≤ prod_created_at p.

(** Newest first and, among rows of one timestamp, highest id first. *)
Definition newer_then_higher_id (p q : Product) : Prop :=
  prod_created_at q < prod_created_at p
  ∨ (prod_created_at q = prod_created_at p ∧ prod_id q ≤ prod_id p).

(** The row [row] with the two value columns set. *)
Definition pav_with_value (row : ProductAttributeValue)
    (attribute_value : option Z) (custom_value : option string)
  : ProductAttributeValue :=
  {| pav_id := pav_id row;
     pav_product := pav_product row;
     pav_attribute := pav_attribute row;
     pav_attribute_value := attribute_value;
     pav_custom_value := custom_value |}.

(** The entries the legacy rows of the product contribute to the
    serialized list, in table order. *)
Definition legacy_pairs (db : DB) (obj : Product) : list (string * string) :=
  (λ r, (rename_brand (pa_key r), pa_value r))
    <$> filter (λ r, pa_value r ≠ "")
               (filter (λ r, pa_product r = prod_id obj) (product_attributes db)).

(** The product passes the price filters: every entry whose value
    [float()] accepts gives a condition, and the product satisfies it. *)
Definition passes_price_filters `{Platform} (price_filters : dict string)
    (p : Product) : Prop :=
  ∀ key value x, (key, value) ∈ price_filters → float_of_str value = Some x →
                 ∃ cond, filter_lookup key x = Some cond ∧ cond p = true.

(** Every entry of the price filters whose value [float()] accepts has a
    keyword and a number that [QuerySet.filter] accepts. *)
Definition price_filters_accepted `{Platform} (price_filters : dict string) : Prop :=
  ∀ key value x, (key, value) ∈ price_filters → float_of_str value = Some x →
                 is_Some (filter_lookup key x).





(** What one key of the query contributes to each of the three
    dictionaries. *)
Definition attribute_entry (valid_attribute_keys : gset string) (q : QueryDict)
    (key : string) : option (string * list string) :=
  if decide (key ∈ valid_attribute_keys) then
    match filter (λ v, nonblank v = true) (getlist key q) with
    | [] => None
    | values => Some (key, values)
    end
  else None.

Definition last_value_entry (q : QueryDict) (key : string) : option (string * string) :=
  match get key q with
  | Some value => if nonblank value then Some (key, value) else None
  | None => None
  end.

Definition price_entry (valid_attribute_keys : gset string) (price_key : string → bool)
    (q : QueryDict) (key : string) : option (string * string) :=
  if decide (key ∈ valid_attribute_keys) then None
  else if price_key key then last_value_entry q key else None.

Definition special_entry (valid_attribute_keys : gset string)
    (price_key special_key : string → bool) (q : QueryDict) (key : string)
  : option (string * string) :=
  if decide (key ∈ valid_attribute_keys) then None
  else if price_key key then None
  else if special_key key then last_value_entry q key else None.

(** The filters [f] with another price dictionary. *)
Definition with_price_filters (price_filters : dict string) (f : Filters) : Filters :=
  {| multi_value_filters := multi_value_filters f;
     price_filters := price_filters;
     special_filters := special_filters f |}.

(** The search of [api_products_by_gender_category] selects the product:
    there is no search text, or one of the three searched columns contains
    it. *)
Definition search_selects `{Platform} (search_query : string) (p : Product) : Prop :=
  search_query = ""
  ∨ icontains (prod_name p) search_query
    || icontains (prod_description p) search_query
    || icontains (prod_model p) search_query = true.

(** ** Sample data *)

Definition mk_category (pk : Z) (parent : option Z) (type : string) : Category :=
  {| cat_id := pk; cat_name := ""; cat_parent := parent; cat_category_type := type |}.

Definition mk_product (pk category created_at : Z) (active : bool) : Product :=
  {| prod_id := pk; prod_name := ""; prod_description := ""; prod_sku := "";
     prod_model := ""; prod_category := category; prod_is_active := active;
     prod_is_new_arrival := false; prod_created_at := created_at;
     prod_price_toman := 0; prod_price_usd := None; prod_price := None |}.

(** Two categories, each the parent of the other. *)
Definition cyclic_db : DB :=
  {| categories := [mk_category 1 (Some 2) "auto"; mk_category 2 (Some 1) "auto"];
     attributes := []; attribute_values := [];
     product_attribute_values := []; product_attributes := [];
     category_attributes := []; products := [] |}.

(** A root with one child and an active product in the child. *)
Definition tree_db : DB :=
  {| categories := [mk_category 1 None "auto"; mk_category 2 (Some 1) "auto"];
     attributes := []; attribute_values := [];
     product_attribute_values := []; product_attributes := [];
     category_attributes := []; products := [mk_product 10 2 0 true] |}.

(** The attribute [color] with the predefined value [Black]; product 10
    has the legacy row [color = red] and no flexible row. *)
Definition color_db : DB :=
  {| categories := [mk_category 1 None "auto"];
     attributes := [{| attr_id := 1; attr_key := "color" |}];
     attribute_values := [{| nav_id := 7; nav_attribute := 1; nav_value := "Black" |}];
     product_attribute_values := [];
     product_attributes := [{| pa_product := 10; pa_key := "color"; pa_value := "red" |}];
     category_attributes := [];
     products := [mk_product 10 1 0 true] |}.

(** Product 10 has [color] in both stores (flexible [Black], legacy [red])
    and a legacy [size]; its category defines [color] only. *)
Definition both_stores_db : DB :=
  {| categories := [mk_category 1 None "auto"];
     attributes := [{| attr_id := 1; attr_key := "color" |}];
     attribute_values := [{| nav_id := 7; nav_attribute := 1; nav_value := "Black" |}];
     product_attribute_values :=
       [{| pav_id := 1; pav_product := 10; pav_attribute := 1;
           pav_attribute_value := Some 7; pav_custom_value := None |}];
     product_attributes :=
       [{| pa_product := 10; pa_key := "color"; pa_value := "red" |};
        {| pa_product := 10; pa_key := "size"; pa_value := "L" |}];
     category_attributes := [{| ca_category := 1; ca_key := "color" |}];
     products := [mk_product 10 1 0 true] |}.

(** A platform for the sample runs: numbers are plain decimal digits, the
    price keywords are the two on [price_toman], the substring test folds
    ASCII case, and tied rows come in the order of the table, as they do
    from a scan by primary key. *)
Fixpoint digits_value (acc : Z) (s : string) : option Z :=
  match s with
  | EmptyString => Some acc
  | String a s' =>
      let n := Z.of_nat (nat_of_ascii a) in
      if decide (48 ≤ n ≤ 57) then digits_value (10 * acc + (n - 48)) s' else None
  end.

Definition decimal (s : string) : option Z :=
  match s with
  | EmptyString => None
  | _ => digits_value 0 s
  end.

Definition sample_platform : Platform :=
  {| py_float := Z;
     float_of_str := decimal;
     int_of_str := decimal;
     filter_lookup := λ key x,
       if decide (key = "price_toman__gte") then Some (λ p, x <=? prod_price_toman p)
       else if decide (key = "price_toman__lte") then Some (λ p, prod_price_toman p <=? x)
       else None;
     icontains := λ field needle, contains (lower needle) (lower field);
     tie_order := λ rows, rows;
     tie_order_perm := λ rows, reflexivity rows |}.

(** Twenty-one products: two pages of twenty. *)
Definition two_pages : list Product :=
  (λ n, mk_product (Z.of_nat n) 1 (Z.of_nat n) true) <$> seq 1 21.

(** Three active products over both stores: product 1 has the legacy
    [brand = Nike] and the custom flexible [color = Black]; product 2 has the
    predefined flexible [brand = Nike] and the legacy [color = White];
    product 3 has the legacy [brand = Adidas]. *)
Definition facet_db : DB :=
  {| categories := [mk_category 1 None "auto"];
     attributes := [{| attr_id := 1; attr_key := "brand" |};
                    {| attr_id := 2; attr_key := "color" |}];
     attribute_values := [{| nav_id := 1; nav_attribute := 1; nav_value := "Nike" |};
                          {| nav_id := 2; nav_attribute := 2; nav_value := "Black" |}];
     product_attribute_values :=
       [{| pav_id := 1; pav_product := 1; pav_attribute := 2;
           pav_attribute_value := None; pav_custom_value := Some "Black" |};
        {| pav_id := 2; pav_product := 2; pav_attribute := 1;
           pav_attribute_value := Some 1; pav_custom_value := None |}];
     product_attributes :=
       [{| pa_product := 1; pa_key := "brand"; pa_value := "Nike" |};
        {| pa_product := 2; pa_key := "color"; pa_value := "White" |};
        {| pa_product := 3; pa_key := "brand"; pa_value := "Adidas" |}];
     category_attributes := [{| ca_category := 1; ca_key := "brand" |};
                             {| ca_category := 1; ca_key := "color" |}];
     products := [mk_product 1 1 1 true; mk_product 2 1 2 true; mk_product 3 1 3 true] |}.

(** Two active products created at the same time. *)
Definition tie_db : DB :=
  {| categories := [mk_category 1 None "auto"];
     attributes := []; attribute_values := [];
     product_attribute_values := []; product_attributes := [];
     category_attributes := [];
     products := [mk_product 1 1 5 true; mk_product 2 1 5 true] |}.

(** An active product and an inactive one; neither is a new arrival and
    neither has a text that contains [shirt]. *)
Definition inactive_db : DB :=
  {| categories := [mk_category 1 None "auto"];
     attributes := []; attribute_values := [];
     product_attribute_values := []; product_attributes := [];
     category_attributes := [];
     products := [mk_product 1 1 1 true; mk_product 2 1 2 false] |}.

(** Product 10 has two legacy rows for [size] and no flexible row; its
    category defines no attribute. *)
Definition two_legacy_db : DB :=
  {| categories := [mk_category 1 None "auto"];
     attributes := []; attribute_values := [];
     product_attribute_values := [];
     product_attributes :=
       [{| pa_product := 10; pa_key := "size"; pa_value := "L" |};
        {| pa_product := 10; pa_key := "size"; pa_value := "M" |}];
     category_attributes := [];
     products := [mk_product 10 1 0 true] |}.

(** Filters with one price entry whose value is no number. *)
Definition bad_price_filters : Filters :=
  {| multi_value_filters := []; price_filters := [("price_toman__gte", "abc")];
     special_filters := [] |}.

(** The same two attribute filters and two price filters in the two
    orders. *)
Definition brand_then_color : Filters :=
  {| multi_value_filters := [("brand", ["Nike"]); ("color", ["Black"; "White"])];
     price_filters := [("price_toman__gte", "0"); ("price_toman__lte", "5")];
     special_filters := [] |}.

Definition color_then_brand : Filters :=
  {| multi_value_filters := [("color", ["Black"; "White"]); ("brand", ["Nike"])];
     price_filters := [("price_toman__lte", "5"); ("price_toman__gte", "0")];
     special_filters := [] |}.

(** Special filters that ask for the products of category 1 that are no
    new arrivals. *)
Definition old_in_category_one : Filters :=
  {| multi_value_filters := []; price_filters := [];
     special_filters := [("category", "1"); ("is_new_arrival", "NO")] |}.

(** Special filters with both search keys, and the same with another
    [search]. *)
Definition q_and_search : Filters :=
  {| multi_value_filters := []; price_filters := [];
     special_filters := [("q", "shirt"); ("search", "shoe")] |}.

Definition q_and_other_search : Filters :=
  {| multi_value_filters := []; price_filters := [];
     special_filters := [("q", "shirt"); ("search", "hat")] |}.

(** The pagination block of the second of two pages of twenty-one
    products. *)
Definition second_of_two : Pagination :=
  {| current_page := 2; total_pages := 2; total_items := 21;
     has_next := false; has_previous := true |}.

(** The category [watch] with the subcategory [sport]; no category is
    named [watch men].  Product 10 has the predefined gender [men], product
    11 the same gender as a custom value, product 12 no gender row. *)
Definition gender_db : DB :=
  {| categories :=
       [{| cat_id := 1; cat_name := "watch"; cat_parent := None;
           cat_category_type := "auto" |};
        {| cat_id := 2; cat_name := "sport مردانه"; cat_parent := Some 1;
           cat_category_type := "auto" |}];
     attributes := [{| attr_id := 1; attr_key := "gender" |}];
     attribute_values := [{| nav_id := 1; nav_attribute := 1; nav_value := "men" |}];
     product_attribute_values :=
       [{| pav_id := 1; pav_product := 10; pav_attribute := 1;
           pav_attribute_value := Some 1; pav_custom_value := None |};
        {| pav_id := 2; pav_product := 11; pav_attribute := 1;
           pav_attribute_value := None; pav_custom_value := Some "men" |}];
     product_attributes := [];
     category_attributes := [];
     products := [mk_product 10 2 1 true; mk_product 11 2 2 true;
                  mk_product 12 2 3 true] |}.

(** The attribute [color] is registered and defined for category 1;
    product 10 of that category has the legacy row [color = red] and no
    flexible row. *)
Definition legacy_only_db : DB :=
  {| categories := [mk_category 1 None "auto"];
     attributes := [{| attr_id := 1; attr_key := "color" |}];
     attribute_values := [{| nav_id := 7; nav_attribute := 1; nav_value := "Black" |}];
     product_attribute_values := [];
     product_attributes := [{| pa_product := 10; pa_key := "color"; pa_value := "red" |}];
     category_attributes := [{| ca_category := 1; ca_key := "color" |}];
     products := [mk_product 10 1 0 true] |}.




(** * Theorems *)

(** ** Category *)

(** C3: for a category whose type is ['auto'], the effective type is
    container with subcategories and no active direct product, direct with
    active direct products and no subcategory, container with both, and
    direct with neither. *)
Theorem auto_effective_type_table (db : DB) (c : Category) :
  cat_category_type c = "auto" →
  (subcategories db c ≠ [] → direct_products db c = [] →
     get_effective_category_type db c = "container") ∧
  (subcategories db c = [] → direct_products db c ≠ [] →
     get_effective_category_type db c = "direct") ∧
  (subcategories db c ≠ [] → direct_products db c ≠ [] →
     get_effective_category_type db c = "container") ∧
  (subcategories db c = [] → direct_products db c = [] →
     get_effective_category_type db c = "direct").
Proof.
  intros Hauto. unfold get_effective_category_type.
  rewrite Hauto. simpl.
  destruct (subcategories db c) as [|s ss], (direct_products db c) as [|p ps];
    simpl; repeat split; intros; congruence.
Qed.

Lemma auto_effective_type_table_witness :
  cat_category_type (mk_category 1 None "auto") = "auto" ∧
  get_effective_category_type tree_db (mk_category 1 None "auto") = "container".
Proof.
  split; [reflexivity|].
  destruct (auto_effective_type_table tree_db (mk_category 1 None "auto") eq_refl)
    as (Hcontainer & _).
  apply Hcontainer.
  - vm_compute. discriminate.
  - reflexivity.
Defined.

(** The accumulating loop of [get_all_subcategories] returns when every
    recursive call does, with the returned lists appended in order. *)
Lemma for_each_extend {A B} (g : A → outcome (list B)) (P : A → list B → Prop)
    (l : list A) (acc : list B) :
  (∀ x, x ∈ l → ∃ r, g x = Return r ∧ P x r) →
  ∃ rs, for_each (λ acc x, more ← g x; Return (acc ++ more)) acc l
          = Return (acc ++ mjoin rs)
        ∧ Forall2 P l rs.
Proof.
  revert acc. induction l as [|x l IH]; intros acc Hg.
  - exists []. simpl. rewrite app_nil_r. split; [done|constructor].
  - destruct (Hg x) as (r & Hr & HP); [left|].
    destruct (IH (acc ++ r)) as (rs & Hrs & HF).
    { intros y Hy. apply Hg. by right. }
    exists (r :: rs). simpl. rewrite Hr. simpl. rewrite Hrs.
    rewrite <- app_assoc. split; [done|by constructor].
Qed.

Lemma for_each_raise {A B} (body : B → A → outcome B) (x : A) (l : list A)
    (acc : B) (e : exn) :
  body acc x = Raise e → for_each body acc (x :: l) = Raise e.
Proof. intros Hx. simpl. by rewrite Hx. Qed.

Lemma elem_of_subcategories db self c :
  c ∈ subcategories db self ↔ child_of db self c.
Proof.
  unfold subcategories, child_of. rewrite list_elem_of_filter. tauto.
Qed.

Lemma descendant_unfold db self c :
  descendant db self c ↔
  child_of db self c ∨ ∃ s, child_of db self s ∧ descendant db s c.
Proof.
  unfold descendant. split.
  - intros H. destruct H as [x y H|x y z H Htc]; [by left|].
    right. by exists y.
  - intros [H|(s & H & Htc)]; [by apply tc_once|by eapply tc_l].
Qed.

(** C4 (as amended): on a parent relation without a cycle,
    [get_all_subcategories] returns, given a call stack deeper than the
    tree, and what it returns are exactly the descendants of the category. *)
Theorem get_all_subcategories_acyclic (db : DB) (rank : Z → nat)
    (depth : nat) (self : Category) :
  parent_ranked db rank →
  (rank (cat_id self) < depth)%nat →
  ∃ result, get_all_subcategories depth db self = Return result
            ∧ ∀ c, c ∈ result ↔ descendant db self c.
Proof.
  intros Hrank. revert self.
  induction depth as [|d IH]; intros self Hdepth; [lia|].
  simpl.
  destruct (for_each_extend (get_all_subcategories d db)
              (λ s r, ∀ c, c ∈ r ↔ descendant db s c)
              (subcategories db self) (subcategories db self))
    as (rs & Hrs & HF).
  { intros s Hs. apply IH.
    apply elem_of_subcategories in Hs as [Hin Hparent].
    specialize (Hrank s (cat_id self) Hin Hparent). lia. }
  eexists. split; [exact Hrs|].
  intros c. rewrite descendant_unfold, elem_of_app, elem_of_subcategories.
  apply or_iff_compat_l. rewrite list_elem_of_join. split.
  - intros (r & Hc & Hr).
    apply list_elem_of_lookup in Hr as [i Hi].
    destruct (Forall2_lookup_r _ _ _ _ _ HF Hi) as (s & Hs & Hsr).
    exists s. split; [|by apply Hsr].
    apply elem_of_subcategories, list_elem_of_lookup. by exists i.
  - intros (s & Hs & Hdesc).
    apply elem_of_subcategories, list_elem_of_lookup in Hs as [i Hi].
    destruct (Forall2_lookup_l _ _ _ _ _ HF Hi) as (r & Hr & Hsr).
    exists r. split; [by apply Hsr|].
    apply list_elem_of_lookup. by exists i.
Qed.

Lemma get_all_subcategories_acyclic_witness :
  parent_ranked tree_db (λ pk, if decide (pk = 1) then 1%nat else 0%nat) ∧
  ∃ result, get_all_subcategories 2 tree_db (mk_category 1 None "auto") = Return result
            ∧ ∀ c, c ∈ result ↔ descendant tree_db (mk_category 1 None "auto") c.
Proof.
  assert (Hrank : parent_ranked tree_db (λ pk, if decide (pk = 1) then 1%nat else 0%nat)).
  { intros c p Hc Hp. simpl in Hc.
    apply elem_of_cons in Hc as [->|Hc]; [discriminate|].
    apply elem_of_cons in Hc as [->|Hc]; [|by apply elem_of_nil in Hc].
    injection Hp as <-. simpl. lia. }
  split; [exact Hrank|].
  apply (get_all_subcategories_acyclic tree_db _ 2 (mk_category 1 None "auto") Hrank).
  simpl. lia.
Defined.

(** C4 (counterexample): with two categories that are each other's parent
    the traversal returns at no depth of the call stack; it ends only when
    Python's stack limit raises [RecursionError], here at 1000 frames, and
    [get_all_products] of the same category ends the same way. *)
Lemma cyclic_traversal_never_returns :
  (¬ ∃ depth result,
       get_all_subcategories depth cyclic_db (mk_category 1 (Some 2) "auto")
       = Return result) ∧
  get_all_subcategories 1000 cyclic_db (mk_category 1 (Some 2) "auto")
  = Raise RecursionError ∧
  get_all_products 1000 cyclic_db (mk_category 1 (Some 2) "auto")
  = Raise RecursionError.
Proof.
  assert (H : ∀ depth,
    get_all_subcategories depth cyclic_db (mk_category 1 (Some 2) "auto")
    = Raise RecursionError ∧
    get_all_subcategories depth cyclic_db (mk_category 2 (Some 1) "auto")
    = Raise RecursionError).
  { induction depth as [|d [IH1 IH2]]; [done|].
    split.
    - change (get_all_subcategories (S d) cyclic_db (mk_category 1 (Some 2) "auto"))
        with (for_each (λ acc subcategory,
                          more ← get_all_subcategories d cyclic_db subcategory;
                          Return (acc ++ more))
                       [mk_category 2 (Some 1) "auto"] [mk_category 2 (Some 1) "auto"]).
      apply for_each_raise. by rewrite IH2.
    - change (get_all_subcategories (S d) cyclic_db (mk_category 2 (Some 1) "auto"))
        with (for_each (λ acc subcategory,
                          more ← get_all_subcategories d cyclic_db subcategory;
                          Return (acc ++ more))
                       [mk_category 1 (Some 2) "auto"] [mk_category 1 (Some 2) "auto"]).
      apply for_each_raise. by rewrite IH1. }
  split; [|split].
  - intros (depth & result & Hret). destruct (H depth) as [H1 _]. congruence.
  - apply H.
  - unfold get_all_products.
    replace (is_container_category cyclic_db (mk_category 1 (Some 2) "auto"))
      with true by (by vm_compute).
    destruct (H 1000%nat) as [-> _]. done.
Qed.

(** ** Attribute values *)

Section unique_key.
Context {A K : Type} `{EqDecision K} (f : A → K).

Lemma unique_key_inj (l : list A) (x y : A) :
  NoDup (f <$> l) → x ∈ l → y ∈ l → f x = f y → x = y.
Proof.
  induction l as [|z l IH]; intros Hnd Hx Hy Hf; [by apply elem_of_nil in Hx|].
  rewrite fmap_cons in Hnd. apply NoDup_cons in Hnd as [Hz Hnd].
  apply elem_of_cons in Hx as [->|Hx], Hy as [->|Hy]; auto.
  - exfalso. apply Hz. rewrite Hf. by apply list_elem_of_fmap_2.
  - exfalso. apply Hz. rewrite <- Hf. by apply list_elem_of_fmap_2.
Qed.

Lemma filter_unique_key (l : list A) (x : A) :
  NoDup (f <$> l) → x ∈ l → filter (λ y, f y = f x) l = [x].
Proof.
  induction l as [|z l IH]; intros Hnd Hx; [by apply elem_of_nil in Hx|].
  rewrite fmap_cons in Hnd. apply NoDup_cons in Hnd as [Hz Hnd].
  rewrite filter_cons. apply elem_of_cons in Hx as [->|Hx].
  - rewrite decide_True by done. f_equal.
    destruct (filter (λ y, f y = f z) l) as [|w ws] eqn:Hw; [done|].
    assert (Hin : w ∈ filter (λ y, f y = f z) l) by (rewrite Hw; left).
    apply list_elem_of_filter in Hin as [Hfw Hin].
    exfalso. apply Hz. rewrite <- Hfw. by apply list_elem_of_fmap_2.
  - rewrite decide_False; [by apply IH|].
    intros Hf. apply Hz. rewrite Hf. by apply list_elem_of_fmap_2.
Qed.

(** A condition that amounts to a value of the key selects no row or one. *)
Lemma filter_key_cases (P : A → Prop) `{∀ x, Decision (P x)} (k : K) (l : list A) :
  NoDup (f <$> l) → (∀ y, P y ↔ f y = k) →
  filter P l = [] ∨ ∃ x, filter P l = [x] ∧ x ∈ l ∧ f x = k.
Proof.
  intros Hnd HP.
  destruct (filter P l) as [|x xs] eqn:Hfilter; [by left|right].
  assert (Hx : x ∈ filter P l) by (rewrite Hfilter; left).
  apply list_elem_of_filter in Hx as [HPx Hx]. apply HP in HPx.
  exists x. split; [|done].
  rewrite <- Hfilter, <- (filter_unique_key l x Hnd Hx).
  apply list_filter_iff. intros y. rewrite HP. by rewrite HPx.
Qed.
End unique_key.

Lemma objects_get_unique {A K} `{EqDecision K} (f : A → K) (m : model)
    (P : A → Prop) `{∀ x, Decision (P x)} (l : list A) (x : A) :
  NoDup (f <$> l) → x ∈ l → (∀ y, P y ↔ f y = f x) →
  objects_get m P l = Return x.
Proof.
  intros Hnd Hx HP. unfold objects_get.
  rewrite (list_filter_iff P (λ y, f y = f x)) by done.
  by rewrite filter_unique_key.
Qed.

Lemma fresh_pk_above (pks : list Z) (pk : Z) : pk ∈ pks → pk < fresh_pk pks.
Proof.
  unfold fresh_pk. induction pks as [|x pks IH]; intros Hpk.
  - by apply elem_of_nil in Hpk.
  - simpl. apply elem_of_cons in Hpk as [->|Hpk]; [lia|].
    specialize (IH Hpk). lia.
Qed.

(** [get_or_create] returns a row of the product and the attribute that is
    in the table afterwards, and keeps the constraints. *)
Lemma pav_get_or_create_spec (db : DB) (self : Product) (a : Attribute) :
  db_unique db →
  ∃ db1 row,
    pav_get_or_create db self a = Return (db1, row)
    ∧ row ∈ product_attribute_values db1
    ∧ pav_product row = prod_id self ∧ pav_attribute row = attr_id a
    ∧ db_unique db1
    ∧ attributes db1 = attributes db
    ∧ attribute_values db1 = attribute_values db.
Proof.
  intros [Hapk Hkey Hvpk Hvpair Hrpk Hrpair].
  unfold pav_get_or_create, product_attr_get, objects_get.
  destruct (filter_key_cases (λ r, (pav_product r, pav_attribute r))
              (λ r, pav_product r = prod_id self ∧ pav_attribute r = attr_id a)
              (prod_id self, attr_id a) (product_attribute_values db) Hrpair)
    as [Hnone|(row & Hone & Hrow & Hpair)].
  { intros r. split; [by intros [-> ->]|by injection 1]. }
  - rewrite Hnone. eexists _, _. split; [done|]. simpl.
    split; [apply elem_of_app; right; left|].
    do 2 (split; [done|]). split; [|done].
    constructor; simpl; try done.
    + rewrite fmap_app. apply NoDup_app. split; [done|]. split; [|apply NoDup_singleton].
      intros pk Hpk Hnew. apply list_elem_of_singleton in Hnew.
      apply fresh_pk_above in Hpk. simpl in Hnew. lia.
    + rewrite fmap_app. apply NoDup_app. split; [done|]. split; [|apply NoDup_singleton].
      intros pair Hold Hnew. apply list_elem_of_singleton in Hnew. simpl in Hnew.
      apply list_elem_of_fmap in Hold as (r & Hr & Hin). subst pair.
      injection Hnew as Hp Ha.
      by apply (filter_nil_not_elem_of _ _ r Hnone).
  - rewrite Hone. eexists _, _. split; [done|].
    injection Hpair as Hp Ha. by repeat split.
Qed.

(** [save] puts the new content in the place of the row with its primary
    key, and leaves every (product, attribute) pair where it was. *)
Lemma pav_save_spec (db : DB) (old new : ProductAttributeValue) :
  db_unique db →
  old ∈ product_attribute_values db →
  pav_id new = pav_id old →
  pav_product new = pav_product old →
  pav_attribute new = pav_attribute old →
  new ∈ product_attribute_values (pav_save new db)
  ∧ db_unique (pav_save new db).
Proof.
  intros [Hapk Hkey Hvpk Hvpair Hrpk Hrpair] Hold Hid Hp Ha.
  assert (Hsame : ∀ (K : Type) (g : ProductAttributeValue → K),
            g new = g old →
            g <$> ((λ r, if decide (pav_id r = pav_id new) then new else r)
                     <$> product_attribute_values db)
            = g <$> product_attribute_values db).
  { intros K g Hg. rewrite <- list_fmap_compose. apply Forall_fmap_ext, Forall_forall.
    intros r Hr. simpl. case_decide as Hpk; [|done].
    rewrite Hg. f_equal. symmetry.
    apply (unique_key_inj pav_id (product_attribute_values db)); [done..|congruence]. }
  split.
  - simpl. apply list_elem_of_fmap. exists old. by rewrite Hid, decide_True.
  - constructor; simpl; try done.
    + by rewrite Hsame.
    + rewrite Hsame; [done|]. simpl. congruence.
Qed.

(** Reading back the row that [save] has just written. *)
Lemma get_attribute_value_saved (db : DB) (self : Product) (a : Attribute)
    (row : ProductAttributeValue) (shown : string) :
  db_unique db →
  a ∈ attributes db →
  row ∈ product_attribute_values db →
  pav_product row = prod_id self → pav_attribute row = attr_id a →
  get_display_value db row = Return shown →
  get_attribute_value db self (attr_key a) = Return (Some shown).
Proof.
  intros Hu Ha Hrow Hp Hattr Hshown. unfold get_attribute_value.
  rewrite (objects_get_unique attr_key MAttribute _ (attributes db) a);
    [|apply Hu|done|done].
  simpl. unfold product_attr_get.
  rewrite (objects_get_unique (λ r, (pav_product r, pav_attribute r))
             MProductAttributeValue _ (product_attribute_values db) row);
    [|apply Hu|done|].
  - simpl. by rewrite Hshown.
  - intros r. rewrite Hp, Hattr. split; [by intros [-> ->]|by injection 1].
Qed.

(** C5: for a key of the Attribute registry, [set_attribute_value]
    followed by [get_attribute_value] gives back the value that was set;
    the saved row holds the predefined value with no custom value when the
    attribute has that value among its choices, and the custom value with
    no predefined value otherwise; it never holds both. *)
Theorem set_then_get_roundtrip (db : DB) (self : Product) (a : Attribute)
    (value : string) :
  db_unique db →
  a ∈ attributes db →
  ∃ db' row,
    set_attribute_value db self (attr_key a) value = Return (db', row)
    ∧ get_attribute_value db' self (attr_key a) = Return (Some value)
    ∧ row ∈ product_attribute_values db'
    ∧ ¬ (is_Some (pav_attribute_value row) ∧ is_Some (pav_custom_value row))
    ∧ (∀ v, v ∈ attribute_values db →
            nav_attribute v = attr_id a → nav_value v = value →
            pav_attribute_value row = Some (nav_id v) ∧ pav_custom_value row = None)
    ∧ ((∀ v, v ∈ attribute_values db →
             nav_attribute v = attr_id a → nav_value v ≠ value) →
       pav_attribute_value row = None ∧ pav_custom_value row = Some value).
Proof.
  intros Hu Ha.
  destruct (pav_get_or_create_spec db self a Hu)
    as (db1 & row0 & Hgoc & Hin0 & Hp0 & Ha0 & Hu1 & Hattrs & Hvals).
  unfold set_attribute_value.
  rewrite (objects_get_unique attr_key MAttribute _ (attributes db) a);
    [|apply Hu|done|done].
  simpl. rewrite Hgoc. simpl. rewrite Hvals. unfold objects_get at 1.
  destruct (filter_key_cases (λ v, (nav_attribute v, nav_value v))
              (λ v, nav_attribute v = attr_id a ∧ nav_value v = value)
              (attr_id a, value) (attribute_values db))
    as [Hnone|(v & Hone & Hv & Hpair)].
  { apply Hu. }
  { intros v. split; [by intros [-> ->]|by injection 1]. }
  - rewrite Hnone. simpl.
    set (row := {| pav_id := pav_id row0; pav_product := pav_product row0;
                   pav_attribute := pav_attribute row0;
                   pav_attribute_value := None; pav_custom_value := Some value |}).
    destruct (pav_save_spec db1 row0 row Hu1 Hin0) as [Hin Hu']; [done..|].
    exists (pav_save row db1), row. split; [done|]. split; [|split; [done|split]].
    + apply (get_attribute_value_saved _ _ _ row); try done.
      simpl. by rewrite Hattrs.
    + intros [[? Hsome] _]. discriminate Hsome.
    + split; [|done]. intros v Hv Hattr Hvalue. exfalso.
      by apply (filter_nil_not_elem_of _ _ v Hnone).
  - rewrite Hone. simpl. injection Hpair as Hattr Hvalue.
    set (row := {| pav_id := pav_id row0; pav_product := pav_product row0;
                   pav_attribute := pav_attribute row0;
                   pav_attribute_value := Some (nav_id v); pav_custom_value := None |}).
    destruct (pav_save_spec db1 row0 row Hu1 Hin0) as [Hin Hu']; [done..|].
    exists (pav_save row db1), row. split; [done|]. split; [|split; [done|split]].
    + apply (get_attribute_value_saved _ _ _ row); try done.
      { simpl. by rewrite Hattrs. }
      unfold get_display_value. simpl. rewrite Hvals.
      rewrite (objects_get_unique nav_id MNewAttributeValue _ (attribute_values db) v);
        [|apply Hu|done|done].
      simpl. by rewrite Hvalue.
    + intros [_ [? Hsome]]. discriminate Hsome.
    + split.
      * intros v' Hv' Hattr' Hvalue'. split; [|done]. simpl. do 2 f_equal.
        apply (unique_key_inj (λ v, (nav_attribute v, nav_value v))
                 (attribute_values db)); [apply Hu|done..|].
        by rewrite Hattr, Hvalue, Hattr', Hvalue'.
      * intros Hno. exfalso. by apply (Hno v).
Qed.

Lemma set_then_get_roundtrip_witness :
  db_unique color_db ∧
  {| attr_id := 1; attr_key := "color" |} ∈ attributes color_db ∧
  ∃ db' row,
    set_attribute_value color_db (mk_product 10 1 0 true) "color" "Black"
    = Return (db', row)
    ∧ get_attribute_value db' (mk_product 10 1 0 true) "color" = Return (Some "Black").
Proof.
  assert (Hu : db_unique color_db).
  { constructor; simpl; first [apply NoDup_nil_2 | apply NoDup_singleton]. }
  assert (Ha : {| attr_id := 1; attr_key := "color" |} ∈ attributes color_db).
  { simpl. left. }
  split; [exact Hu|]. split; [exact Ha|].
  destruct (set_then_get_roundtrip color_db (mk_product 10 1 0 true) _ "Black" Hu Ha)
    as (db' & row & Hset & Hget & _).
  exists db', row. split; [exact Hset|exact Hget].
Defined.

(** The two storage paths on sample data: [Black] is a choice of [color],
    [Teal] is not. *)
Example set_predefined_value :
  (λ r, (pav_attribute_value r, pav_custom_value r)) <$>
    (snd <$> set_attribute_value color_db (mk_product 10 1 0 true) "color" "Black")
  = Return (Some 7, None).
Proof. reflexivity. Qed.

Example set_custom_value :
  (λ r, (pav_attribute_value r, pav_custom_value r)) <$>
    (snd <$> set_attribute_value color_db (mk_product 10 1 0 true) "color" "Teal")
  = Return (None, Some "Teal").
Proof. reflexivity. Qed.

Lemma filter_none {A} (P : A → Prop) `{∀ x, Decision (P x)} (l : list A) :
  (∀ x, x ∈ l → ¬ P x) → filter P l = [].
Proof.
  intros Hno. destruct (filter P l) as [|x xs] eqn:Hfilter; [done|].
  assert (Hx : x ∈ filter P l) by (rewrite Hfilter; left).
  apply list_elem_of_filter in Hx as [HP Hx]. by destruct (Hno x Hx).
Qed.

(** What [get_attribute_value] answers: the value of the predefined
    choice when the flexible row has one, its custom value otherwise (the
    empty string when it has neither), and [None] when the key is not
    registered or the product has no flexible row for it. *)
Lemma get_attribute_value_cases (db : DB) (self : Product) (key : string) :
  (∀ a row,
     db_unique db → a ∈ attributes db → attr_key a = key →
     row ∈ product_attribute_values db →
     pav_product row = prod_id self → pav_attribute row = attr_id a →
     (∀ v, v ∈ attribute_values db → pav_attribute_value row = Some (nav_id v) →
           get_attribute_value db self key = Return (Some (nav_value v)))
     ∧ (pav_attribute_value row = None →
        get_attribute_value db self key
        = Return (Some (default "" (pav_custom_value row)))))
  ∧ ((∀ a, a ∈ attributes db → attr_key a ≠ key) →
     get_attribute_value db self key = Return None)
  ∧ (∀ a,
       db_unique db → a ∈ attributes db → attr_key a = key →
       (∀ row, row ∈ product_attribute_values db →
               ¬ (pav_product row = prod_id self ∧ pav_attribute row = attr_id a)) →
       get_attribute_value db self key = Return None).
Proof.
  split; [|split].
  - intros a row Hu Ha <- Hrow Hp Hattr. split.
    + intros v Hv Hfk. apply (get_attribute_value_saved _ _ _ row); try done.
      unfold get_display_value. rewrite Hfk.
      rewrite (objects_get_unique nav_id MNewAttributeValue _ (attribute_values db) v);
        [done|apply Hu|done|done].
    + intros Hnone. apply (get_attribute_value_saved _ _ _ row); try done.
      unfold get_display_value. by rewrite Hnone.
  - intros Hno. unfold get_attribute_value, objects_get.
    by rewrite (filter_none _ (attributes db)) by done.
  - intros a Hu Ha <- Hno. unfold get_attribute_value.
    rewrite (objects_get_unique attr_key MAttribute _ (attributes db) a);
      [|apply Hu|done|done].
    simpl. unfold product_attr_get, objects_get.
    by rewrite (filter_none _ (product_attribute_values db)) by done.
Qed.

(** C6 (the code at the failing input): the key [color] is registered and
    defined for the category of the product, which has the legacy row
    [color = red] and no flexible row.  [Product.get_attribute_value]
    answers [None]; the attribute loop of [api_simple_search] in
    [shop/views.py], which reads the same two stores for the same purpose,
    falls back to the legacy row and answers [red]. *)
Lemma no_legacy_fallback :
  {| pa_product := 10; pa_key := "color"; pa_value := "red" |}
    ∈ product_attributes legacy_only_db
  ∧ filter (λ r, pav_product r = 10) (product_attribute_values legacy_only_db) = []
  ∧ "color" ∈ category_attribute_keys legacy_only_db 1
  ∧ get_attribute_value legacy_only_db (mk_product 10 1 0 true) "color" = Return None
  ∧ simple_search_attribute_value legacy_only_db (mk_product 10 1 0 true) "color"
    = Return (Some "red").
Proof.
  split; [left|]. split; [reflexivity|]. split; [|split; reflexivity].
  by apply (bool_decide_unpack _); vm_compute.
Qed.

(** ** Serialized attributes *)

Lemma dict_get_app {V} (key : string) (d1 d2 : dict V) (v : V) :
  dict_get key d1 = Some v → dict_get key (d1 ++ d2) = Some v.
Proof.
  induction d1 as [|[k w] d1 IH]; [done|]. simpl.
  by case_decide.
Qed.

(** [unique_first] keeps, for every key not seen before, its first entry. *)
Lemma elem_of_unique_first (attrs : list (string * string)) (seen : gset string)
    (k v : string) :
  (k, v) ∈ unique_first seen attrs ↔ (k ∉ seen) ∧ dict_get k attrs = Some v.
Proof.
  revert seen. induction attrs as [|[k' v'] attrs IH]; intros seen; simpl.
  - split; [intros Hin; by apply elem_of_nil in Hin|by intros [_ ?]].
  - destruct (decide (k' ∈ seen)) as [Hseen|Hseen].
    + rewrite IH. case_decide as Hk; [|done]. subst k'. tauto.
    + rewrite elem_of_cons, IH, elem_of_union, elem_of_singleton.
      case_decide as Hk.
      * subst k'. split.
        -- intros [[= ->]|[Hin _]]; [done|]. destruct Hin. by left.
        -- intros [_ [= ->]]. by left.
      * split.
        -- intros [[= ? ?]|[Hin Hget]]; [done|]. split; [|done].
           intros Hs. apply Hin. by right.
        -- intros [Hin Hget]. right. split; [|done].
           intros [?|?]; [by subst|done].
Qed.

Lemma legacy_entries_app (db : DB) (obj : Product) (attrs : list (string * string)) :
  ∃ more, legacy_entries db obj attrs = attrs ++ more.
Proof.
  unfold legacy_entries.
  generalize (filter (λ r, pa_product r = prod_id obj) (product_attributes db)).
  intros rows. revert attrs. induction rows as [|r rows IH]; intros attrs; simpl.
  - exists []. by rewrite app_nil_r.
  - case_decide.
    + destruct (IH (attrs ++ [(rename_brand (pa_key r), pa_value r)])) as [more ->].
      eexists. by rewrite <- app_assoc.
    + apply IH.
Qed.

Lemma get_display_value_returns (db : DB) (r : ProductAttributeValue) :
  db_unique db → db_references db → r ∈ product_attribute_values db →
  ∃ v, get_display_value db r = Return v.
Proof.
  intros Hu Href Hr. unfold get_display_value.
  destruct (pav_attribute_value r) as [pk|] eqn:Hfk; [|by eexists].
  destruct (attribute_value_exists db Href r pk Hr Hfk) as (v & Hv & <-).
  rewrite (objects_get_unique nav_id MNewAttributeValue _ (attribute_values db) v);
    [by eexists|apply Hu|done|done].
Qed.

(** The first loop returns, and its entries are those of the flexible rows
    of the product whose display value is not empty. *)
Lemma flexible_entries_spec (db : DB) (obj : Product) :
  db_unique db → db_references db →
  ∃ flexible, flexible_entries db obj = Return flexible
              ∧ ∀ k v, (k, v) ∈ flexible ↔ flexible_entry db obj k v.
Proof.
  intros Hu Href. unfold flexible_entries, flexible_entry.
  assert (Hloop : ∀ rows acc,
    (∀ r, r ∈ rows → r ∈ product_attribute_values db) →
    ∃ entries,
      for_each (λ attrs av,
                  attribute ← objects_get MAttribute (λ a, attr_id a = pav_attribute av)
                                          (attributes db);
                  value ← get_display_value db av;
                  Return (if decide (value ≠ "")
                          then attrs ++ [(rename_brand (attr_key attribute), value)]
                          else attrs)) acc rows
      = Return (acc ++ entries)
      ∧ ∀ k v, (k, v) ∈ entries ↔
               ∃ r a, r ∈ rows ∧ a ∈ attributes db ∧ attr_id a = pav_attribute r
                      ∧ rename_brand (attr_key a) = k
                      ∧ get_display_value db r = Return v ∧ v ≠ "").
  { induction rows as [|r rows IH]; intros acc Hrows.
    - exists []. simpl. rewrite app_nil_r. split; [done|]. intros k v. split.
      + intros Hin. by apply elem_of_nil in Hin.
      + intros (r & a & Hin & _). by apply elem_of_nil in Hin.
    - assert (Hr : r ∈ product_attribute_values db) by (apply Hrows; left).
      destruct (attribute_exists db Href r Hr) as (a & Ha & Hid).
      destruct (get_display_value_returns db r Hu Href Hr) as [value Hvalue].
      assert (Hget : objects_get MAttribute (λ a', attr_id a' = pav_attribute r)
                       (attributes db) = Return a).
      { apply (objects_get_unique attr_id); [apply Hu|done|]. intros a'. by rewrite Hid. }
      simpl. rewrite Hget, Hvalue. simpl.
      assert (Hsame : ∀ a', a' ∈ attributes db → attr_id a' = pav_attribute r → a' = a).
      { intros a' Ha' Hid'. apply (unique_key_inj attr_id (attributes db));
          [apply Hu|done..|congruence]. }
      case_decide as Hempty.
      + destruct (IH (acc ++ [(rename_brand (attr_key a), value)])) as (entries & -> & Hent).
        { intros r' Hr'. apply Hrows. by right. }
        exists ((rename_brand (attr_key a), value) :: entries).
        rewrite <- app_assoc. split; [done|]. intros k v.
        rewrite elem_of_cons, Hent. split.
        * intros [[= -> ->]|(r' & a' & Hin & H')].
          -- exists r, a. split; [left|done].
          -- exists r', a'. split; [by right|done].
        * intros (r' & a' & Hin & Ha' & Hid' & Hk & Hv & Hne).
          apply elem_of_cons in Hin as [->|Hin].
          -- left. rewrite (Hsame a' Ha' Hid') in Hk. congruence.
          -- right. by exists r', a'.
      + destruct (IH acc) as (entries & -> & Hent).
        { intros r' Hr'. apply Hrows. by right. }
        exists entries. split; [done|]. intros k v. rewrite Hent. split.
        * intros (r' & a' & Hin & H'). exists r', a'. split; [by right|done].
        * intros (r' & a' & Hin & Ha' & Hid' & Hk & Hv & Hne).
          apply elem_of_cons in Hin as [->|Hin]; [|by exists r', a'].
          destruct Hempty. congruence. }
  destruct (Hloop (filter (λ r, pav_product r = prod_id obj) (product_attribute_values db)) [])
    as (entries & Hret & Hent).
  { intros r Hr. by apply list_elem_of_filter in Hr as [_ Hr]. }
  exists entries. split; [done|]. intros k v. rewrite Hent. split.
  - intros (r & a & Hr & H'). apply list_elem_of_filter in Hr as [Hp Hr].
    by exists r, a.
  - intros (r & a & Hr & Hp & H'). exists r, a. split; [|done].
    by apply list_elem_of_filter.
Qed.

Lemma dict_get_elem {V} (key : string) (d : dict V) (v : V) :
  (key, v) ∈ d → ∃ v', dict_get key d = Some v' ∧ (key, v') ∈ d.
Proof.
  induction d as [|[k w] d IH]; intros Hin; [by apply elem_of_nil in Hin|].
  simpl. case_decide as Hk.
  - subst k. exists w. split; [done|left].
  - apply elem_of_cons in Hin as [[= ? ?]|Hin]; [done|].
    destruct (IH Hin) as (v' & Hget & Hin'). exists v'. split; [done|by right].
Qed.

(** C9: [get_attributes] returns a list in which every key occurs with one
    value.  When the flexible store holds a value for a key, the value
    returned for that key is one the flexible store holds, whatever the
    legacy store has for it, and it is returned whenever the category
    defines no attribute or defines that key.  When the category defines
    attributes, only their keys are returned. *)
Theorem get_attributes_flexible_first (db : DB) (obj : Product) :
  db_unique db → db_references db →
  ∃ out,
    get_attributes db obj = Return out
    ∧ (∀ k v, flexible_entry db obj k v →
         (∀ v', (k, v') ∈ out → flexible_entry db obj k v')
         ∧ (category_attribute_keys db (prod_category obj) = ∅
            ∨ k ∈ category_attribute_keys db (prod_category obj) →
            ∃ v', (k, v') ∈ out))
    ∧ (category_attribute_keys db (prod_category obj) ≠ ∅ →
       ∀ k v, (k, v) ∈ out → k ∈ category_attribute_keys db (prod_category obj))
    ∧ (∀ k v v', (k, v) ∈ out → (k, v') ∈ out → v = v').
Proof.
  intros Hu Href.
  destruct (flexible_entries_spec db obj Hu Href) as (flexible & Hret & Hflex).
  destruct (legacy_entries_app db obj flexible) as [more Hattrs].
  unfold get_attributes. rewrite Hret. simpl. rewrite Hattrs.
  set (allowed := category_attribute_keys db (prod_category obj)).
  set (unique_attributes := unique_first ∅ (flexible ++ more)).
  assert (Hout : ∀ k v,
    (k, v) ∈ (if decide (allowed ≠ ∅)
              then filter (λ attr, attr.1 ∈ allowed) unique_attributes
              else unique_attributes)
    ↔ (allowed = ∅ ∨ k ∈ allowed) ∧ dict_get k (flexible ++ more) = Some v).
  { intros k v. unfold unique_attributes. case_decide as Hallowed.
    - rewrite list_elem_of_filter, elem_of_unique_first. simpl.
      split; [intros (? & _ & ?); auto|].
      intros [[?|?] ?]; [done|]. split; [done|]. split; [apply not_elem_of_empty|done].
    - rewrite elem_of_unique_first.
      split; [intros [_ ?]; auto|]. intros [_ ?]. split; [apply not_elem_of_empty|done]. }
  eexists. split; [done|]. split; [|split].
  - intros k v Hentry. apply Hflex, dict_get_elem in Hentry as (v0 & Hget & Hin).
    apply (dict_get_app _ _ more) in Hget. split.
    + intros v' Hv'. apply Hout in Hv' as [_ Hv']. apply Hflex.
      by assert (v' = v0) as -> by congruence.
    + intros Hok. exists v0. by apply Hout.
  - intros Hallowed k v Hin. apply Hout in Hin as [[?|?] _]; done.
  - intros k v v' Hv Hv'. apply Hout in Hv as [_ Hv], Hv' as [_ Hv']. congruence.
Qed.

Lemma get_attributes_flexible_first_witness :
  db_unique both_stores_db ∧ db_references both_stores_db ∧
  flexible_entry both_stores_db (mk_product 10 1 0 true) "color" "Black" ∧
  ∃ out, get_attributes both_stores_db (mk_product 10 1 0 true) = Return out
         ∧ ∀ v', ("color", v') ∈ out →
                 flexible_entry both_stores_db (mk_product 10 1 0 true) "color" v'.
Proof.
  assert (Hu : db_unique both_stores_db).
  { constructor; simpl; apply NoDup_singleton. }
  assert (Href : db_references both_stores_db).
  { constructor; simpl.
    - intros r Hr. apply list_elem_of_singleton in Hr as ->.
      eexists. split; [left|done].
    - intros r pk Hr Hpk. apply list_elem_of_singleton in Hr as ->.
      injection Hpk as <-. eexists. split; [left|done]. }
  assert (Hentry : flexible_entry both_stores_db (mk_product 10 1 0 true) "color" "Black").
  { eexists _, _. split; [left|]. split; [done|]. split; [left|]. done. }
  split; [exact Hu|]. split; [exact Href|]. split; [exact Hentry|].
  destruct (get_attributes_flexible_first both_stores_db (mk_product 10 1 0 true) Hu Href)
    as (out & Hret & Hflex & _).
  exists out. split; [exact Hret|]. apply (Hflex "color" "Black" Hentry).
Defined.

(** On the sample data the flexible [Black] is returned for [color], not the
    legacy [red], and the legacy [size] is left out because the category
    does not define it. *)
Example get_attributes_both_stores :
  get_attributes both_stores_db (mk_product 10 1 0 true) = Return [("color", "Black")].
Proof. by vm_compute. Qed.

(** ** Pagination *)

Lemma ceil_div_positive (hits per_page : Z) :
  1 ≤ hits → 1 ≤ per_page → 1 ≤ - ((- hits) `div` per_page).
Proof.
  intros Hhits Hper.
  pose proof (Z.div_mod (- hits) per_page ltac:(lia)) as Hdiv.
  pose proof (Z.mod_pos_bound (- hits) per_page ltac:(lia)) as Hmod.
  nia.
Qed.

(** With a positive page size, page 1 exists and holds the first rows. *)
Lemma page_one (self : Paginator) :
  1 ≤ per_page self →
  page self 1 = Return {| page_object_list := take (Z.to_nat (per_page self)) (object_list self);
                          number := 1;
                          paginator := self |}.
Proof.
  intros Hper. unfold page, validate_number, num_pages.
  rewrite decide_False by lia. rewrite decide_False by lia. simpl.
  rewrite decide_False.
  2:{ pose proof (ceil_div_positive (Z.max 1 (count self)) (per_page self)). lia. }
  simpl. do 2 f_equal. unfold slice, count. rewrite drop_0.
  case_decide as Htop.
  - rewrite Z.sub_0_r, Nat2Z.id.
    rewrite !take_ge; [done|lia|lia].
  - f_equal. lia.
Qed.

Lemma get_page_size_bounds `{Platform} (query_params : QueryDict) :
  1 ≤ get_page_size query_params ≤ 100.
Proof.
  unfold get_page_size, page_size, max_page_size.
  destruct (get _ _) as [s|]; [|lia].
  destruct (int_of_str s) as [n|]; [|lia].
  case_decide; lia.
Qed.

(** The filter views page with [ProductPagination]: a requested
    [per_page] above 100 becomes 100, and a page number beyond the last page
    is answered with [NotFound], for every query. *)
Lemma filter_views_page_beyond_last `{Platform} (queryset : list Product)
    (query_params : QueryDict) :
  (∀ s n, get "per_page" query_params = Some s → int_of_str s = Some n → 100 < n →
          get_page_size query_params = 100)
  ∧ (∀ s n, get "page" query_params = Some s → s ≠ "" → s ≠ "last" →
            int_of_str s = Some n →
            - ((- Z.max 1 (Z.of_nat (length queryset))) `div` get_page_size query_params) < n →
            paginate_queryset queryset query_params = Raise NotFound).
Proof.
  split.
  - intros s n Hget Hint Hn. unfold get_page_size, page_size_query_param.
    rewrite Hget, Hint. rewrite decide_False by lia. unfold max_page_size. lia.
  - intros s n Hget Hne Hlast Hint Hn.
    pose proof (get_page_size_bounds query_params) as Hsize.
    unfold paginate_queryset. rewrite Hget.
    destruct s as [|a s']; [done|].
    rewrite decide_False by done. rewrite Hint.
    unfold page, validate_number, num_pages, count. simpl.
    case_decide; [done|].
    rewrite decide_False by lia. simpl.
    by rewrite decide_True by lia.
Qed.

(** [api_unified_products] answers a page number outside the pages of the
    result with page 1, whenever the page size is positive; the size is the
    [limit] of the request, 20 when none is sent. *)
Lemma unified_page_out_of_range `{Platform} (queryset : list Product)
    (query_params : QueryDict) (sp : string) (number limit : Z) :
  get "page" query_params = Some sp → int_of_str sp = Some number →
  match get "limit" query_params with
  | Some sl => int_of_str sl = Some limit
  | None => limit = 20
  end →
  1 ≤ limit →
  number < 1 ∨ - ((- Z.max 1 (Z.of_nat (length queryset))) `div` limit) < number →
  api_unified_products_page query_params queryset
  = Return {| page_object_list := take (Z.to_nat limit) queryset;
              number := 1;
              paginator := {| object_list := queryset; per_page := limit |} |}.
Proof.
  intros Hp Hpi Hl Hlimit Hout.
  unfold api_unified_products_page. rewrite Hp, Hpi. simpl.
  assert (Hlim : match get "limit" query_params with
                 | Some s => from_option Return (Raise ValueError) (int_of_str s)
                 | None => Return 20
                 end = Return limit).
  { destruct (get "limit" query_params) as [sl|]; [by rewrite Hl|by subst]. }
  rewrite Hlim. simpl.
  set (paginator := {| object_list := queryset; per_page := limit |}).
  assert (Hfail : ∃ e, page paginator number = Raise e).
  { unfold page, validate_number, num_pages, count. simpl.
    case_decide; [by eexists|].
    rewrite decide_False by lia. simpl.
    rewrite decide_True by lia. by eexists. }
  destruct Hfail as [e ->]. by apply page_one.
Qed.

(** C8 (the code at the failing input): a result of twenty-one products, two
    pages of twenty.  With [ProductPagination], the pagination of both
    filter views, page 2 is served and page 999 is answered with
    [NotFound]; [api_unified_products] answers the same page 999 with page
    1.  A [per_page] of 1000 becomes 100 in the filter views, while
    [api_unified_products] serves the 1000 rows it is asked for in
    [limit]. *)
Lemma page_beyond_last_not_clamped :
  @paginate_queryset sample_platform two_pages [("page", "2")]
  = Return {| page_object_list := drop 20 two_pages;
              number := 2;
              paginator := {| object_list := two_pages; per_page := 20 |} |}
  ∧ @paginate_queryset sample_platform two_pages [("page", "999")] = Raise NotFound
  ∧ @api_unified_products_page sample_platform [("page", "999")] two_pages
    = Return {| page_object_list := take 20 two_pages;
                number := 1;
                paginator := {| object_list := two_pages; per_page := 20 |} |}
  ∧ @get_page_size sample_platform [("per_page", "1000")] = 100
  ∧ (per_page ∘ paginator <$>
       @api_unified_products_page sample_platform [("limit", "1000")] two_pages)
    = Return 1000.
Proof. repeat split; by vm_compute. Qed.

(** ** Ordering and [distinct] *)

Lemma insert_by_created_at_perm (p : Product) (l : list Product) :
  insert_by_created_at p l ≡ₚ p :: l.
Proof.
  induction l as [|q l IH]; simpl; [done|].
  case_decide; [|done]. rewrite IH. apply Permutation_swap.
Qed.

Lemma order_by_created_at_desc_perm `{Platform} (l : list Product) :
  order_by_created_at_desc l ≡ₚ l.
Proof.
  unfold order_by_created_at_desc. rewrite <- (tie_order_perm l) at 2.
  induction (tie_order l) as [|p rows IH]; simpl; [done|].
  by rewrite insert_by_created_at_perm, IH.
Qed.

Lemma insert_by_created_at_sorted (p : Product) (l : list Product) :
  Sorted newer_or_equal l → Sorted newer_or_equal (insert_by_created_at p l).
Proof.
  induction 1 as [|q l Hl IH Hhd]; simpl.
  - by repeat constructor.
  - case_decide as Hlt.
    + constructor; [done|].
      destruct l as [|q' l]; simpl.
      * constructor. unfold newer_or_equal. lia.
      * case_decide.
        -- constructor. by inversion Hhd.
        -- constructor. unfold newer_or_equal. lia.
    + constructor; [by constructor|]. constructor. unfold newer_or_equal. lia.
Qed.

Lemma newer_or_equal_trans : Transitive newer_or_equal.
Proof. unfold newer_or_equal. intros p q r. lia. Qed.

Lemma order_by_created_at_desc_sorted `{Platform} (l : list Product) :
  StronglySorted newer_or_equal (order_by_created_at_desc l).
Proof.
  apply Sorted_StronglySorted; [apply newer_or_equal_trans|].
  unfold order_by_created_at_desc. induction (tie_order l) as [|p rows IH]; simpl.
  - constructor.
  - by apply insert_by_created_at_sorted.
Qed.

Lemma elem_of_distinct (l : list Product) (p : Product) : p ∈ distinct l ↔ p ∈ l.
Proof.
  induction l as [|q l IH]; simpl; [done|].
  rewrite !elem_of_cons, list_elem_of_filter, IH. split.
  - intros [?|[_ ?]]; auto.
  - intros [?|?]; [by left|]. destruct (decide (p = q)); [by left|by right].
Qed.

Lemma NoDup_distinct (l : list Product) : NoDup (distinct l).
Proof.
  induction l as [|q l IH]; simpl; [constructor|].
  apply NoDup_cons. split.
  - rewrite list_elem_of_filter. by intros [Hne _].
  - by apply NoDup_filter.
Qed.

Lemma distinct_sublist (l : list Product) : distinct l `sublist_of` l.
Proof.
  induction l as [|q l IH]; simpl; [done|].
  apply sublist_skip. etrans; [apply sublist_filter|done].
Qed.

(** ** Attribute filters *)

Lemma elem_of_matching_ids (db : DB) (cond : Product → Prop)
    `{∀ p, Decision (cond p)} (pk : Z) :
  pk ∈ matching_ids db cond ↔ ∃ p, p ∈ products db ∧ prod_id p = pk ∧ cond p.
Proof.
  unfold matching_ids. rewrite elem_of_list_to_set, list_elem_of_fmap. split.
  - intros (p & -> & Hp). apply list_elem_of_filter in Hp as [Hc Hp]. by exists p.
  - intros (p & Hp & <- & Hc). exists p. split; [done|]. by apply list_elem_of_filter.
Qed.

Section value_condition.
Context (db : DB) (key : string) (V : list string) (ok : string → Prop).
Hypothesis ok_iff : ∀ x, ok x ↔ x ∈ V.

Lemma legacy_match_iff (p : Product) :
  legacy_match db key ok p ↔ has_legacy_value db key V p.
Proof.
  unfold legacy_match, has_legacy_value. rewrite Exists_exists.
  split; intros (r & Hr & Hp & Hk & Hv); exists r; by rewrite ?ok_iff in *.
Qed.

Lemma attribute_key_is_iff (r : ProductAttributeValue) :
  attribute_key_is db key r
  ↔ ∃ a, a ∈ attributes db ∧ attr_id a = pav_attribute r ∧ attr_key a = key.
Proof. unfold attribute_key_is. by rewrite Exists_exists. Qed.

Lemma new_match_iff (p : Product) :
  new_match db key ok p ↔ has_predefined_value db key V p.
Proof.
  unfold new_match, has_predefined_value. rewrite Exists_exists. split.
  - intros (r & Hr & Hp & Hkey & Hv).
    apply attribute_key_is_iff in Hkey as (a & Ha & Hid & Hk).
    apply Exists_exists in Hv as (v & Hv & Hfk & Hok).
    exists r, a, v. by rewrite <- ok_iff.
  - intros (r & a & v & Hr & Hp & Ha & Hid & Hk & Hv & Hfk & Hok).
    exists r. split; [done|]. split; [done|]. split.
    + apply attribute_key_is_iff. by exists a.
    + apply Exists_exists. exists v. by rewrite ok_iff.
Qed.

Lemma custom_match_iff (p : Product) :
  custom_match db key ok p ↔ has_custom_value db key V p.
Proof.
  unfold custom_match, has_custom_value. rewrite Exists_exists. split.
  - intros (r & Hr & Hp & Hkey & Hv).
    apply attribute_key_is_iff in Hkey as (a & Ha & Hid & Hk).
    destruct (pav_custom_value r) as [c|] eqn:Hc; simpl in Hv; [|done].
    exists r, a, c. by rewrite <- ok_iff.
  - intros (r & a & c & Hr & Hp & Ha & Hid & Hk & Hc & Hok).
    exists r. split; [done|]. split; [done|]. split.
    + apply attribute_key_is_iff. by exists a.
    + rewrite Hc. simpl. by rewrite ok_iff.
Qed.

Lemma union_of_three_stores (scope : Product → Prop) `{∀ p, Decision (scope p)}
    `{∀ x, Decision (ok x)} (pk : Z) :
  pk ∈ matching_ids db (λ p, scope p ∧ legacy_match db key ok p)
       ∪ matching_ids db (λ p, scope p ∧ new_match db key ok p)
       ∪ matching_ids db (λ p, scope p ∧ custom_match db key ok p)
  ↔ ∃ p, p ∈ products db ∧ prod_id p = pk ∧ scope p
         ∧ (has_legacy_value db key V p ∨ has_predefined_value db key V p
            ∨ has_custom_value db key V p).
Proof.
  rewrite !elem_of_union, !elem_of_matching_ids. split.
  - intros [[(p & Hp & Hpk & Hs & Hm)|(p & Hp & Hpk & Hs & Hm)]
            |(p & Hp & Hpk & Hs & Hm)]; exists p; repeat (split; [done|]).
    + left. by apply legacy_match_iff.
    + right; left. by apply new_match_iff.
    + right; right. by apply custom_match_iff.
  - intros (p & Hp & Hpk & Hs & [Hm|[Hm|Hm]]).
    + left; left. exists p. repeat (split; [done|]). by apply legacy_match_iff.
    + left; right. exists p. repeat (split; [done|]). by apply new_match_iff.
    + right. exists p. repeat (split; [done|]). by apply custom_match_iff.
Qed.
End value_condition.

Lemma elem_of_all_matching_ids (db : DB) (scope : Product → Prop)
    `{∀ p, Decision (scope p)} (key : string) (V : list string) (pk : Z) :
  pk ∈ all_matching_ids db scope key V
  ↔ ∃ p, p ∈ products db ∧ prod_id p = pk ∧ scope p
         ∧ (has_legacy_value db key V p ∨ has_predefined_value db key V p
            ∨ has_custom_value db key V p).
Proof.
  unfold all_matching_ids. destruct V as [|v [|v' V']].
  - by apply union_of_three_stores.
  - apply (union_of_three_stores db key [v] (λ x, x = v)).
    intros x. by rewrite list_elem_of_singleton.
  - by apply union_of_three_stores.
Qed.

Lemma elem_of_apply_attribute_filters (db : DB) (scope : Product → Prop)
    `{∀ p, Decision (scope p)} (filters : dict (list string))
    (rows : list Product) (p : Product) :
  p ∈ apply_attribute_filters db scope filters rows
  ↔ p ∈ rows ∧ ∀ key V, (key, V) ∈ filters →
                        prod_id p ∈ all_matching_ids db scope key V.
Proof.
  unfold apply_attribute_filters. revert rows.
  induction filters as [|[key V] filters IH]; intros rows; simpl.
  - split; [|by intros [? _]]. intros Hp. split; [done|].
    intros key V Hin. by apply elem_of_nil in Hin.
  - rewrite IH, list_elem_of_filter. split.
    + intros [[Hid Hp] Hrest]. split; [done|]. intros key' V' Hin.
      apply elem_of_cons in Hin as [[= -> ->]|Hin]; [done|by apply Hrest].
    + intros [Hp Hall]. split; [split; [|done]|].
      * apply Hall. left.
      * intros key' V' Hin. apply Hall. by right.
Qed.

Lemma order_by_created_at_desc_nil `{Platform} : order_by_created_at_desc [] = [].
Proof. apply Permutation_nil_r, order_by_created_at_desc_perm. Qed.

Lemma elem_of_ordered_distinct `{Platform} (rows : list Product) (p : Product) :
  p ∈ order_by_created_at_desc (distinct rows) ↔ p ∈ rows.
Proof. by rewrite order_by_created_at_desc_perm, elem_of_distinct. Qed.

(** C2: the candidate set of a key with the requested values [V] is the
    union of the products with a matching legacy row, with a matching
    predefined flexible value and with a matching custom flexible value
    (within the category, in the category view); the rows of the result are
    the rows left by the other filters whose id is in the candidate set of
    every requested key. *)
Theorem candidates_union_result_intersection `{Platform} (db : DB) (f : Filters)
    (category : Category) :
  (∀ (scope : Product → Prop) (scope_dec : ∀ p, Decision (scope p)) key V pk,
     pk ∈ all_matching_ids db scope key V
     ↔ ∃ p, p ∈ products db ∧ prod_id p = pk ∧ scope p
            ∧ (has_legacy_value db key V p ∨ has_predefined_value db key V p
               ∨ has_custom_value db key V p))
  ∧ match products_filter_base db f with
    | Return base =>
        ∃ result, products_filter_queryset db f = Return result
                  ∧ ∀ p, p ∈ result
                         ↔ p ∈ base
                           ∧ ∀ key V, (key, V) ∈ multi_value_filters f →
                                      prod_id p ∈ all_matching_ids db (λ _, True) key V
    | Raise e => products_filter_queryset db f = Raise e
    end
  ∧ match category_filter_base db category f with
    | Return base =>
        ∃ result, category_filter_queryset db category f = Return result
                  ∧ ∀ p, p ∈ result
                         ↔ p ∈ base
                           ∧ ∀ key V, (key, V) ∈ multi_value_filters f →
                                      prod_id p
                                      ∈ all_matching_ids db (in_category category) key V
    | Raise e => category_filter_queryset db category f = Raise e
    end.
Proof.
  split; [|split].
  - intros scope scope_dec key V pk. apply elem_of_all_matching_ids.
  - unfold products_filter_queryset.
    destruct (products_filter_base db f) as [base|e]; [|done].
    eexists. split; [done|]. intros p.
    by rewrite elem_of_ordered_distinct, elem_of_apply_attribute_filters.
  - unfold category_filter_queryset.
    destruct (category_filter_base db category f) as [base|e]; [|done].
    eexists. split; [done|]. intros p.
    by rewrite elem_of_ordered_distinct, elem_of_apply_attribute_filters.
Qed.

(** The fixture of the specification: [brand=Nike] selects products 1 and
    2, one through each store; adding [color=Black] leaves product 1; two
    values of [color] select the products with either. *)
Example filter_brand :
  prod_id <$$> @products_filter_queryset sample_platform facet_db
                 (ProductsFilterView_filters facet_db [("brand", "Nike")])
  = Return [2; 1].
Proof. by vm_compute. Qed.

Example filter_brand_and_color :
  prod_id <$$> @products_filter_queryset sample_platform facet_db
                 (ProductsFilterView_filters facet_db
                    [("brand", "Nike"); ("color", "Black")])
  = Return [1].
Proof. by vm_compute. Qed.

Example filter_two_colors :
  prod_id <$$> @products_filter_queryset sample_platform facet_db
                 (ProductsFilterView_filters facet_db
                    [("color", "Black"); ("color", "White")])
  = Return [2; 1].
Proof. by vm_compute. Qed.

(** ** The result sequence *)

Lemma apply_price_filters_spec `{Platform} (filters : dict string) (rows : list Product) :
  match apply_price_filters filters rows with
  | Return result => result `sublist_of` rows
  | Raise e => e = FilterError
  end.
Proof.
  unfold apply_price_filters. revert rows.
  induction filters as [|[price_key price_value] filters IH]; intros rows; simpl; [done|].
  destruct (float_of_str price_value) as [x|]; simpl; [|apply IH].
  destruct (filter_lookup price_key x) as [cond|]; simpl; [|done].
  specialize (IH (filter (λ p, cond p = true) rows)).
  destruct (for_each _ _ filters); [|done].
  etrans; [done|apply sublist_filter].
Qed.

Lemma apply_attribute_filters_sublist (db : DB) (scope : Product → Prop)
    `{∀ p, Decision (scope p)} (filters : dict (list string)) (rows : list Product) :
  apply_attribute_filters db scope filters rows `sublist_of` rows.
Proof.
  unfold apply_attribute_filters. revert rows.
  induction filters as [|[key V] filters IH]; intros rows; simpl; [done|].
  etrans; [apply IH|apply sublist_filter].
Qed.

Lemma filter_category_sublist `{Platform} (special : dict string) (rows : list Product) :
  filter_category special rows `sublist_of` rows.
Proof.
  unfold filter_category. destruct (dict_get _ _) as [v|]; [|done].
  destruct (int_of_str v); [apply sublist_filter|done].
Qed.

Lemma products_filter_base_spec `{Platform} (db : DB) (f : Filters) :
  match products_filter_base db f with
  | Return base => base `sublist_of` products db
  | Raise e => e = FilterError
  end.
Proof.
  unfold products_filter_base.
  match goal with |- context [apply_price_filters ?pf ?rows] =>
    pose proof (apply_price_filters_spec pf rows) as Hprice;
    assert (Hrows : rows `sublist_of` products db); [|
      destruct (apply_price_filters pf rows); [by etrans|done]]
  end.
  clear Hprice.
  assert (Hcategory : filter_category (special_filters f)
                        (filter (λ p, prod_is_active p = true) (products db))
                      `sublist_of` products db).
  { etrans; [apply filter_category_sublist|apply sublist_filter]. }
  destruct (truthy (dict_get "is_active" _)) as [is_active|].
  - case_decide.
    { etrans; [apply filter_category_sublist|apply sublist_filter]. }
    destruct (truthy (dict_get "is_new_arrival" _)) as [is_new_arrival|];
      destruct (truthy (py_or _ _)) as [search_query|];
      repeat case_decide; repeat (etrans; [apply sublist_filter|]); done.
  - destruct (truthy (dict_get "is_new_arrival" _)) as [is_new_arrival|];
      destruct (truthy (py_or _ _)) as [search_query|];
      repeat case_decide; repeat (etrans; [apply sublist_filter|]); done.
Qed.

Lemma ordered_distinct_spec `{Platform} (rows : list Product) :
  NoDup (order_by_created_at_desc (distinct rows))
  ∧ StronglySorted newer_or_equal (order_by_created_at_desc (distinct rows)).
Proof.
  split.
  - rewrite order_by_created_at_desc_perm. apply NoDup_distinct.
  - apply order_by_created_at_desc_sorted.
Qed.

(** C7 (as amended): the result sequence of both filter views has no
    duplicate and is ordered by [created_at] descending: no product comes
    before one that was created later.  Products with the same [created_at]
    are not ordered by id; their order is the one the database engine
    returns.  The only exception that leaves the query set is the one
    [QuerySet.filter] raises for a price keyword. *)
Theorem result_distinct_newest_first `{Platform} (db : DB) (f : Filters)
    (category : Category) :
  match products_filter_queryset db f with
  | Return result => NoDup result ∧ StronglySorted newer_or_equal result
  | Raise e => e = FilterError
  end
  ∧ match category_filter_queryset db category f with
    | Return result => NoDup result ∧ StronglySorted newer_or_equal result
    | Raise e => e = FilterError
    end.
Proof.
  split.
  - unfold products_filter_queryset.
    pose proof (products_filter_base_spec db f) as Hbase.
    destruct (products_filter_base db f) as [base|e]; [|done]. simpl.
    apply ordered_distinct_spec.
  - unfold category_filter_queryset, category_filter_base.
    match goal with |- context [apply_price_filters ?pf ?rows] =>
      pose proof (apply_price_filters_spec pf rows) as Hbase;
      destruct (apply_price_filters pf rows) as [base|e]; [|done]
    end. simpl.
    apply ordered_distinct_spec.
Qed.

(** C7 (counterexample): products 1 and 2 have the same [created_at].  On
    an engine that returns tied rows in the order of their primary keys the
    result lists product 1 before product 2, which is not the order by id
    descending. *)
Lemma ties_not_broken_by_id :
  @products_filter_queryset sample_platform tie_db no_filters
  = Return [mk_product 1 1 5 true; mk_product 2 1 5 true]
  ∧ ¬ StronglySorted newer_then_higher_id [mk_product 1 1 5 true; mk_product 2 1 5 true].
Proof.
  split; [by vm_compute|].
  intros Hsorted. apply StronglySorted_inv in Hsorted as [_ Hall].
  apply Forall_inv in Hall. unfold newer_then_higher_id in Hall. simpl in Hall. lia.
Qed.

(** ** Unrecognized parameters *)

Lemma collect_filters_unrecognized (valid_attribute_keys : gset string)
    (price_key special_key : string → bool) (query_params : QueryDict) :
  (∀ key, key ∈ keys query_params →
          (key ∉ valid_attribute_keys) ∧ price_key key = false ∧ special_key key = false) →
  collect_filters valid_attribute_keys price_key special_key query_params = no_filters.
Proof.
  unfold collect_filters. generalize (keys query_params). intros ks.
  induction ks as [|key ks IH]; intros Hks; simpl; [done|].
  destruct (Hks key) as (Hattr & Hprice & Hspecial); [left|].
  unfold collect_key at 2. rewrite decide_False by done. rewrite Hprice, Hspecial.
  apply IH. intros key' Hin. apply Hks. by right.
Qed.

(** The category view answers a query in which no key is an attribute key
    of the category or one of the six price keys with the empty page. *)
Lemma category_view_unrecognized_is_empty `{Platform} (db : DB)
    (query_params : QueryDict) (category_id : Z) (category : Category) :
  objects_get MCategory (λ c, cat_id c = category_id) (categories db) = Return category →
  query_params ≠ [] →
  (∀ key, key ∈ keys query_params →
          (key ∉ category_attribute_keys db (cat_id category))
          ∧ (key ∉ category_price_keys)) →
  CategoryProductFilterView_get db query_params category_id = Return empty_response.
Proof.
  intros Hcategory Hsome Hkeys. unfold CategoryProductFilterView_get.
  rewrite Hcategory. unfold CategoryProductFilterView_filters.
  rewrite collect_filters_unrecognized.
  - by destruct query_params.
  - intros key Hkey. destruct (Hkeys key Hkey) as [Hattr Hprice].
    split; [done|]. split; [|done]. by apply bool_decide_eq_false.
Qed.

(** The general view has no such test: a query in which no key is
    recognized selects what the empty query selects. *)
Lemma general_view_unrecognized_is_unfiltered `{Platform} (db : DB)
    (query_params : QueryDict) :
  (∀ key, key ∈ keys query_params →
          (key ∉ all_attribute_keys db) ∧ general_price_key key = false
          ∧ (key ∉ special_keys)) →
  products_filter_queryset db (ProductsFilterView_filters db query_params)
  = Return (order_by_created_at_desc
              (distinct (filter (λ p, prod_is_active p = true) (products db)))).
Proof.
  intros Hkeys. unfold ProductsFilterView_filters.
  rewrite collect_filters_unrecognized; [done|].
  intros key Hkey. destruct (Hkeys key Hkey) as (Hattr & Hprice & Hspecial).
  split; [done|]. split; [done|]. by apply bool_decide_eq_false.
Qed.

(** Without query parameters neither view filters on attributes: the
    result is the scope of the view, the active products (of the category),
    newest first. *)
Lemma no_parameters_scoped_set `{Platform} (db : DB) (category : Category) :
  products_filter_queryset db (ProductsFilterView_filters db [])
  = Return (order_by_created_at_desc
              (distinct (filter (λ p, prod_is_active p = true) (products db))))
  ∧ category_filter_queryset db category
      (CategoryProductFilterView_filters db category [])
    = Return (order_by_created_at_desc
                (distinct (filter (λ p, in_category category p
                                        ∧ prod_is_active p = true) (products db)))).
Proof. done. Qed.

(** C1 (the code at the failing input): for the query [foo=bar], in which
    [foo] is no attribute, price or special key, the category view answers
    with the empty page, and the general view with all the active
    products. *)
Lemma nonsense_key_general_view_unfiltered :
  @CategoryProductFilterView_get sample_platform tie_db [("foo", "bar")] 1
  = Return empty_response
  ∧ @ProductsFilterView_get sample_platform tie_db [("foo", "bar")]
    = Return (Response200 [mk_product 1 1 5 true; mk_product 2 1 5 true]
                {| current_page := 1; total_pages := 1; total_items := 2;
                   has_next := false; has_previous := false |})
  ∧ @ProductsFilterView_get sample_platform tie_db []
    = @ProductsFilterView_get sample_platform tie_db [("foo", "bar")].
Proof. split; [|split]; by vm_compute. Qed.

(** ** The inactive products *)

Lemma filter_category_same `{Platform} (special special' : dict string)
    (rows : list Product) :
  dict_get "category" special' = dict_get "category" special →
  filter_category special' rows = filter_category special rows.
Proof. intros Hsame. unfold filter_category. by rewrite Hsame. Qed.

Lemma products_filter_base_inactive `{Platform} (db : DB) (f : Filters)
    (is_active : string) :
  truthy (dict_get "is_active" (special_filters f)) = Some is_active →
  lower is_active ∈ false_words →
  products_filter_base db f
  = apply_price_filters (price_filters f)
      (filter_category (special_filters f)
         (filter (λ p, prod_is_active p = false) (products db))).
Proof.
  intros Hactive Hfalse. unfold products_filter_base.
  rewrite Hactive. by rewrite decide_True.
Qed.

Lemma elem_of_filter_category `{Platform} (special : dict string)
    (rows : list Product) (p : Product) :
  p ∈ filter_category special rows
  ↔ p ∈ rows ∧ ∀ v c, dict_get "category" special = Some v → int_of_str v = Some c →
                      prod_category p = c.
Proof.
  unfold filter_category.
  destruct (dict_get "category" special) as [v|]; [|split; [by intros ?|by intros []]].
  destruct (int_of_str v) as [c|] eqn:Hint;
    [|split; [intros ?; split; [done|]; intros ? ? [= <-] ?; congruence|by intros []]].
  rewrite list_elem_of_filter. split.
  - intros [Hcat Hin]. split; [done|]. intros v' c' [= <-] Hint'. congruence.
  - intros [Hin Hcat]. split; [by eapply Hcat|done].
Qed.

Lemma apply_price_filters_returns `{Platform} (filters : dict string)
    (rows : list Product) :
  price_filters_accepted filters →
  ∃ result, apply_price_filters filters rows = Return result.
Proof.
  unfold apply_price_filters. revert rows.
  induction filters as [|[key value] filters IH]; intros rows Hok; simpl;
    [by eexists|].
  assert (Hrest : price_filters_accepted filters).
  { intros k v x Hin. apply (Hok k v x). by right. }
  destruct (float_of_str value) as [x|] eqn:Hx; simpl; [|by apply IH].
  destruct (Hok key value x) as [cond Hcond]; [left|done|].
  rewrite Hcond. simpl. by apply IH.
Qed.

Lemma elem_of_apply_price_filters_iff `{Platform} (filters : dict string)
    (rows result : list Product) (p : Product) :
  apply_price_filters filters rows = Return result →
  p ∈ result ↔ p ∈ rows ∧ passes_price_filters filters p.
Proof.
  unfold apply_price_filters. revert rows.
  induction filters as [|[key value] filters IH]; intros rows; simpl.
  - intros [= <-]. split; [|by intros [? _]]. intros Hp. split; [done|].
    intros k v x Hin. by apply elem_of_nil in Hin.
  - destruct (float_of_str value) as [x|] eqn:Hx; simpl.
    + destruct (filter_lookup key x) as [cond|] eqn:Hcond; simpl; [|done].
      intros Hrun. rewrite (IH _ Hrun), list_elem_of_filter. split.
      * intros [[Hp Hin] Hrest]. split; [done|]. intros k v y Hkv Hy.
        apply elem_of_cons in Hkv as [[= -> ->]|Hkv]; [|by apply (Hrest k v)].
        exists cond. split; [congruence|done].
      * intros [Hin Hall]. split; [split; [|done]|].
        -- destruct (Hall key value x) as (cond' & Hcond' & Hp); [left|done|].
           congruence.
        -- intros k v y Hkv. apply (Hall k v y). by right.
    + intros Hrun. rewrite (IH _ Hrun). split.
      * intros [Hin Hrest]. split; [done|]. intros k v y Hkv Hy.
        apply elem_of_cons in Hkv as [[= -> ->]|Hkv]; [congruence|by apply (Hrest k v)].
      * intros [Hin Hall]. split; [done|]. intros k v y Hkv. apply (Hall k v y). by right.
Qed.

(** C10: when [is_active] has a false value, the general filter starts
    again from the inactive products.  Its result holds exactly the
    inactive products that lie in the category of the request, pass every
    price filter and match every attribute filter, each once and newest
    first; the text of [q] and [search] and the word of [is_new_arrival]
    play no part: two sets of filters that agree on the category, the
    prices and the attributes give the same result.  The query set returns
    whenever [QuerySet.filter] accepts the price filters. *)
Theorem inactive_rebuild_discards_search `{Platform} (db : DB) (f : Filters)
    (is_active : string) :
  truthy (dict_get "is_active" (special_filters f)) = Some is_active →
  lower is_active ∈ false_words →
  (∀ result,
     products_filter_queryset db f = Return result →
     NoDup result ∧ StronglySorted newer_or_equal result
     ∧ ∀ p, p ∈ result
            ↔ p ∈ products db ∧ prod_is_active p = false
              ∧ (∀ v c, dict_get "category" (special_filters f) = Some v →
                        int_of_str v = Some c → prod_category p = c)
              ∧ passes_price_filters (price_filters f) p
              ∧ ∀ key V, (key, V) ∈ multi_value_filters f →
                         prod_id p ∈ all_matching_ids db (λ _, True) key V)
  ∧ (price_filters_accepted (price_filters f) →
     ∃ result, products_filter_queryset db f = Return result)
  ∧ (∀ f' is_active',
       truthy (dict_get "is_active" (special_filters f')) = Some is_active' →
       lower is_active' ∈ false_words →
       dict_get "category" (special_filters f') = dict_get "category" (special_filters f) →
       price_filters f' = price_filters f →
       multi_value_filters f' = multi_value_filters f →
       products_filter_queryset db f' = products_filter_queryset db f).
Proof.
  intros Hactive Hfalse.
  assert (Hqueryset : ∀ f0 is_active0,
    truthy (dict_get "is_active" (special_filters f0)) = Some is_active0 →
    lower is_active0 ∈ false_words →
    products_filter_queryset db f0
    = (products5 ← apply_price_filters (price_filters f0)
                     (filter_category (special_filters f0)
                        (filter (λ p, prod_is_active p = false) (products db)));
       Return (order_by_created_at_desc
                 (distinct (apply_attribute_filters db (λ _, True)
                              (multi_value_filters f0) products5))))).
  { intros f0 is_active0 H0 H1. unfold products_filter_queryset.
    by rewrite (products_filter_base_inactive db f0 is_active0). }
  split; [|split].
  - intros result. rewrite (Hqueryset f is_active) by done.
    destruct (apply_price_filters _ _) as [products5|e] eqn:Hprice; [|done]. simpl.
    intros [= <-].
    destruct (ordered_distinct_spec
                (apply_attribute_filters db (λ _, True) (multi_value_filters f) products5))
      as [Hnodup Hsorted].
    split; [done|]. split; [done|]. intros p.
    rewrite elem_of_ordered_distinct, elem_of_apply_attribute_filters.
    rewrite (elem_of_apply_price_filters_iff _ _ _ p Hprice).
    rewrite elem_of_filter_category, list_elem_of_filter.
    split.
    + intros [[[[Hinactive Hin] Hcategory] Hpass] Hattrs]. done.
    + intros (Hin & Hinactive & Hcategory & Hpass & Hattrs). done.
  - intros Hok. rewrite (Hqueryset f is_active) by done.
    destruct (apply_price_filters_returns (price_filters f)
                (filter_category (special_filters f)
                   (filter (λ p, prod_is_active p = false) (products db))) Hok)
      as [products5 ->].
    simpl. by eexists.
  - intros f' is_active' Hactive' Hfalse' Hcategory Hprice Hattrs.
    rewrite (Hqueryset f' is_active'), (Hqueryset f is_active) by done.
    by rewrite Hprice, Hattrs, (filter_category_same _ _ _ Hcategory).
Qed.

Lemma inactive_rebuild_discards_search_witness :
  truthy (dict_get "is_active"
            (special_filters
               (ProductsFilterView_filters inactive_db
                  [("q", "shirt"); ("is_new_arrival", "true"); ("is_active", "False")])))
  = Some "False"
  ∧ lower "False" ∈ false_words
  ∧ @products_filter_queryset sample_platform inactive_db
      (ProductsFilterView_filters inactive_db
         [("q", "shirt"); ("is_new_arrival", "true"); ("is_active", "False")])
    = @products_filter_queryset sample_platform inactive_db
        (ProductsFilterView_filters inactive_db [("is_active", "no")]).
Proof.
  assert (Hactive : truthy (dict_get "is_active"
            (special_filters
               (ProductsFilterView_filters inactive_db
                  [("q", "shirt"); ("is_new_arrival", "true"); ("is_active", "False")])))
          = Some "False") by reflexivity.
  assert (Hfalse : lower "False" ∈ false_words) by (simpl; left).
  split; [exact Hactive|]. split; [exact Hfalse|].
  destruct (@inactive_rebuild_discards_search sample_platform inactive_db
              (ProductsFilterView_filters inactive_db [("is_active", "no")]) "no")
    as (_ & _ & Hsame); [reflexivity|simpl; right; right; left|].
  apply (Hsame _ "False"); [exact Hactive|exact Hfalse|reflexivity..].
Defined.

(** On the sample data: the inactive product is returned although it is not
    a new arrival and no text of it contains [shirt]; without [is_active]
    the same search finds nothing. *)
Example inactive_ignores_search :
  prod_id <$$> @products_filter_queryset sample_platform inactive_db
                 (ProductsFilterView_filters inactive_db
                    [("q", "shirt"); ("is_new_arrival", "true"); ("is_active", "false")])
  = Return [2]
  ∧ prod_id <$$> @products_filter_queryset sample_platform inactive_db
                   (ProductsFilterView_filters inactive_db
                      [("q", "shirt"); ("is_new_arrival", "true")])
    = Return [].
Proof. split; by vm_compute. Qed.

(** * Further properties *)

(** ** Writing attribute values *)

(** [get_or_create] either finds the row of the product and the attribute
    and leaves the database as it is, or finds none and appends a new row. *)
Lemma pav_get_or_create_cases (db : DB) (self : Product) (a : Attribute) :
  db_unique db →
  ∃ db1 row0,
    pav_get_or_create db self a = Return (db1, row0)
    ∧ row0 ∈ product_attribute_values db1
    ∧ pav_product row0 = prod_id self ∧ pav_attribute row0 = attr_id a
    ∧ db_unique db1
    ∧ ((db1 = db ∧ row0 ∈ product_attribute_values db)
       ∨ (db1 = pav_insert row0 db ∧ pav_attribute_value row0 = None
          ∧ ∀ r, r ∈ product_attribute_values db →
                 ¬ (pav_product r = prod_id self ∧ pav_attribute r = attr_id a))).
Proof.
  intros Hu.
  destruct (pav_get_or_create_spec db self a Hu)
    as (db1 & row0 & Hgoc & Hin0 & Hp0 & Ha0 & Hu1 & _ & _).
  exists db1, row0. repeat (split; [done|]).
  revert Hgoc. unfold pav_get_or_create, product_attr_get, objects_get.
  destruct (filter _ (product_attribute_values db)) as [|r [|r' rs]] eqn:Hfilter.
  - intros [= <- <-]. right. split; [done|]. split; [done|].
    intros r Hr Hmatch. by apply (filter_nil_not_elem_of _ _ r Hfilter).
  - intros [= <- <-]. left. split; [done|].
    assert (Hr : r ∈ filter (λ r, pav_product r = prod_id self
                                  ∧ pav_attribute r = attr_id a)
                   (product_attribute_values db)) by (rewrite Hfilter; left).
    by apply list_elem_of_filter in Hr as [_ Hr].
  - done.
Qed.

(** What one call of [set_attribute_value] does, in one equation: the row
    found or created gets the predefined choice when the attribute has the
    value among its choices, and the custom value otherwise. *)
Lemma set_attribute_value_effect (db : DB) (self : Product) (a : Attribute)
    (value : string) :
  db_unique db → a ∈ attributes db →
  ∃ db1 row0 stored,
    pav_get_or_create db self a = Return (db1, row0)
    ∧ row0 ∈ product_attribute_values db1
    ∧ pav_product row0 = prod_id self ∧ pav_attribute row0 = attr_id a
    ∧ db_unique db1
    ∧ ((db1 = db ∧ row0 ∈ product_attribute_values db)
       ∨ (db1 = pav_insert row0 db ∧ pav_attribute_value row0 = None
          ∧ ∀ r, r ∈ product_attribute_values db →
                 ¬ (pav_product r = prod_id self ∧ pav_attribute r = attr_id a)))
    ∧ ((stored = (None, Some value)
        ∧ ∀ v, v ∈ attribute_values db →
               ¬ (nav_attribute v = attr_id a ∧ nav_value v = value))
       ∨ (∃ v, stored = (Some (nav_id v), None) ∧ v ∈ attribute_values db
               ∧ nav_attribute v = attr_id a ∧ nav_value v = value))
    ∧ set_attribute_value db self (attr_key a) value
      = Return (pav_save (pav_with_value row0 stored.1 stored.2) db1,
                pav_with_value row0 stored.1 stored.2).
Proof.
  intros Hu Ha.
  destruct (pav_get_or_create_cases db self a Hu)
    as (db1 & row0 & Hgoc & Hin0 & Hp0 & Ha0 & Hu1 & Hcases).
  assert (Hvals : attribute_values db1 = attribute_values db).
  { by destruct Hcases as [[-> _]|[-> _]]. }
  unfold set_attribute_value.
  rewrite (objects_get_unique attr_key MAttribute _ (attributes db) a);
    [|apply Hu|done|done].
  simpl. rewrite Hgoc. simpl. rewrite Hvals. unfold objects_get at 1.
  destruct (filter_key_cases (λ v, (nav_attribute v, nav_value v))
              (λ v, nav_attribute v = attr_id a ∧ nav_value v = value)
              (attr_id a, value) (attribute_values db))
    as [Hnone|(v & Hone & Hv & Hpair)].
  { apply Hu. }
  { intros v. split; [by intros [-> ->]|by injection 1]. }
  - rewrite Hnone. simpl. exists db1, row0, (None, Some value).
    repeat (split; [done|]). split; [|done]. left. split; [done|].
    intros v Hv Hmatch. by apply (filter_nil_not_elem_of _ _ v Hnone).
  - rewrite Hone. simpl. injection Hpair as Hattr Hvalue.
    exists db1, row0, (Some (nav_id v), None).
    repeat (split; [done|]). split; [|done]. right. by exists v.
Qed.

(** X1: a key that is not in the Attribute registry is rejected with
    [ValueError], whatever the product, the value and the rest of the
    database. *)
Theorem set_attribute_value_unknown_key (db : DB) (self : Product)
    (attribute_key value : string) :
  (∀ a, a ∈ attributes db → attr_key a ≠ attribute_key) →
  set_attribute_value db self attribute_key value = Raise ValueError.
Proof.
  intros Hno. unfold set_attribute_value, objects_get.
  by rewrite (filter_none _ (attributes db)) by done.
Qed.

Lemma set_attribute_value_unknown_key_witness :
  (∀ a, a ∈ attributes color_db → attr_key a ≠ "size")
  ∧ set_attribute_value color_db (mk_product 10 1 0 true) "size" "L" = Raise ValueError.
Proof.
  assert (Hno : ∀ a, a ∈ attributes color_db → attr_key a ≠ "size").
  { intros a Ha. simpl in Ha. by apply list_elem_of_singleton in Ha as ->. }
  split; [exact Hno|].
  exact (set_attribute_value_unknown_key color_db (mk_product 10 1 0 true) "size" "L" Hno).
Defined.

Lemma elem_of_pav_save (db : DB) (new r : ProductAttributeValue) :
  r ∈ product_attribute_values (pav_save new db) →
  r = new ∨ (r ∈ product_attribute_values db ∧ pav_id r ≠ pav_id new).
Proof.
  simpl. intros Hr. apply list_elem_of_fmap in Hr as (r0 & -> & Hr0).
  case_decide; [by left|by right].
Qed.

Lemma pav_insert_references (db : DB) (row0 : ProductAttributeValue) (a : Attribute) :
  db_references db → a ∈ attributes db →
  pav_attribute row0 = attr_id a → pav_attribute_value row0 = None →
  db_references (pav_insert row0 db).
Proof.
  intros [Hattr Hval] Ha Hid Hnone. constructor; simpl.
  - intros r Hr. apply elem_of_app in Hr as [Hr|Hr]; [by apply Hattr|].
    apply list_elem_of_singleton in Hr as ->. by exists a.
  - intros r pk Hr Hpk. apply elem_of_app in Hr as [Hr|Hr]; [by apply (Hval r)|].
    apply list_elem_of_singleton in Hr as ->. congruence.
Qed.

(** X2: a successful [set_attribute_value] keeps the uniqueness
    constraints and the three foreign keys of the flexible rows, the one to
    the product for a product that is a row of the product table; it
    changes no table but that of the flexible rows, and leaves exactly one
    flexible row for the product and the attribute: the row it returns. *)
Theorem set_attribute_value_keeps_constraints (db db' : DB) (self : Product)
    (a : Attribute) (value : string) (row : ProductAttributeValue) :
  db_unique db → db_references db → a ∈ attributes db →
  set_attribute_value db self (attr_key a) value = Return (db', row) →
  db_unique db' ∧ db_references db'
  ∧ (db_product_references db → prod_id self ∈ prod_id <$> products db →
     db_product_references db')
  ∧ filter (λ r, pav_product r = prod_id self ∧ pav_attribute r = attr_id a)
           (product_attribute_values db') = [row]
  ∧ categories db' = categories db ∧ attributes db' = attributes db
  ∧ attribute_values db' = attribute_values db
  ∧ product_attributes db' = product_attributes db
  ∧ category_attributes db' = category_attributes db
  ∧ products db' = products db.
Proof.
  intros Hu Href Ha Hset.
  destruct (set_attribute_value_effect db self a value Hu Ha)
    as (db1 & row0 & stored & Hgoc & Hin0 & Hp0 & Ha0 & Hu1 & Hcases & Hstored & Heq).
  rewrite Heq in Hset. injection Hset as <- <-.
  set (new := pav_with_value row0 stored.1 stored.2).
  destruct (pav_save_spec db1 row0 new Hu1 Hin0) as [Hin Hu']; [done..|].
  assert (Href1 : db_references db1).
  { destruct Hcases as [[-> _]|(-> & Hnone & _)]; [done|].
    by apply (pav_insert_references db row0 a). }
  assert (Htables : categories db1 = categories db ∧ attributes db1 = attributes db
                    ∧ attribute_values db1 = attribute_values db
                    ∧ product_attributes db1 = product_attributes db
                    ∧ category_attributes db1 = category_attributes db
                    ∧ products db1 = products db).
  { by destruct Hcases as [[-> _]|(-> & _)]. }
  destruct Htables as (Hc & Hat & Hv & Hl & Hca & Hpr).
  split; [done|]. split; [|split; [|split]].
  2:{ intros Hprod Hself r Hr. simpl. rewrite Hpr.
      apply list_elem_of_fmap in Hself as (p & Hid & Hp).
      apply elem_of_pav_save in Hr as [->|[Hr _]].
      - exists p. simpl. split; [done|]. congruence.
      - destruct Hcases as [[-> _]|(-> & _)]; [by apply Hprod|].
        simpl in Hr. apply elem_of_app in Hr as [Hr|Hr]; [by apply Hprod|].
        apply list_elem_of_singleton in Hr as ->. exists p. split; [done|]. congruence. }
  - destruct Href1 as [Hattr Hval]. constructor.
    + intros r Hr. apply elem_of_pav_save in Hr as [->|[Hr _]].
      * exists a. simpl. by rewrite Hat.
      * by apply Hattr.
    + intros r pk Hr Hpk. apply elem_of_pav_save in Hr as [->|[Hr _]].
      * simpl. rewrite Hv. simpl in Hpk.
        destruct Hstored as [[-> _]|(v & -> & Hvin & _)]; [done|].
        injection Hpk as <-. by exists v.
      * by apply (Hval r).
  - rewrite (list_filter_iff _ (λ r, (pav_product r, pav_attribute r)
                                      = (pav_product new, pav_attribute new))).
    + apply (filter_unique_key (λ r, (pav_product r, pav_attribute r))); [apply Hu'|done].
    + intros r. simpl. rewrite Hp0, Ha0. split; [by intros [-> ->]|by injection 1].
  - done.
Qed.

Lemma set_attribute_value_keeps_constraints_witness :
  db_unique color_db ∧ db_references color_db ∧ db_product_references color_db
  ∧ ∃ db' row,
      set_attribute_value color_db (mk_product 10 1 0 true) "color" "Black"
      = Return (db', row)
      ∧ db_unique db' ∧ db_references db' ∧ db_product_references db'.
Proof.
  assert (Hprod : db_product_references color_db).
  { intros r Hr. by apply elem_of_nil in Hr. }
  assert (Hu : db_unique color_db).
  { constructor; simpl; first [apply NoDup_nil_2 | apply NoDup_singleton]. }
  assert (Href : db_references color_db).
  { constructor; simpl; intros r; intros; by apply elem_of_nil in H. }
  assert (Ha : {| attr_id := 1; attr_key := "color" |} ∈ attributes color_db) by (simpl; left).
  split; [exact Hu|]. split; [exact Href|]. split; [exact Hprod|].
  eexists _, _. split; [reflexivity|].
  destruct (set_attribute_value_keeps_constraints color_db _ (mk_product 10 1 0 true)
              _ "Black" _ Hu Href Ha eq_refl) as (Hu' & Href' & Hprod' & _).
  split; [exact Hu'|]. split; [exact Href'|].
  apply Hprod'; [exact Hprod|]. simpl. left.
Defined.

Lemma filter_fmap_frame {A} (P : A → Prop) `{∀ x, Decision (P x)} (f : A → A)
    (l : list A) :
  (∀ x, x ∈ l → f x = x ∨ (¬ P x ∧ ¬ P (f x))) →
  filter P (f <$> l) = filter P l.
Proof.
  induction l as [|x l IH]; intros Hf; [done|].
  rewrite fmap_cons, !filter_cons, IH by (intros y Hy; apply Hf; by right).
  destruct (Hf x) as [->|[Hx Hfx]]; [left|done|].
  by rewrite !decide_False by done.
Qed.

(** The rows of another product, or of another attribute, are where they
    were after a write. *)
Lemma set_attribute_value_other_rows (db db' : DB) (self : Product) (a : Attribute)
    (value : string) (row : ProductAttributeValue)
    (P : ProductAttributeValue → Prop) `{∀ r, Decision (P r)} :
  db_unique db → a ∈ attributes db →
  set_attribute_value db self (attr_key a) value = Return (db', row) →
  (∀ r, pav_product r = prod_id self → pav_attribute r = attr_id a → ¬ P r) →
  filter P (product_attribute_values db') = filter P (product_attribute_values db)
  ∧ attributes db' = attributes db ∧ attribute_values db' = attribute_values db.
Proof.
  intros Hu Ha Hset HP.
  destruct (set_attribute_value_effect db self a value Hu Ha)
    as (db1 & row0 & stored & Hgoc & Hin0 & Hp0 & Ha0 & Hu1 & Hcases & Hstored & Heq).
  rewrite Heq in Hset. injection Hset as <- <-.
  set (new := pav_with_value row0 stored.1 stored.2).
  split; [|by destruct Hcases as [[-> _]|(-> & _)]].
  simpl. rewrite filter_fmap_frame.
  - destruct Hcases as [[-> _]|(-> & _)]; [done|]. simpl.
    rewrite filter_app, filter_cons, decide_False by (by apply HP).
    by rewrite filter_nil, app_nil_r.
  - intros r Hr. case_decide as Hid; [|by left]. right.
    assert (r = row0) as ->.
    { apply (unique_key_inj pav_id (product_attribute_values db1)); [apply Hu1|done..]. }
    split; by apply HP.
Qed.

(** X3: a write for one product and key changes the answer of
    [get_attribute_value] for no other product and for no other key. *)
Theorem set_attribute_value_frame (db db' : DB) (self self' : Product)
    (a : Attribute) (value key' : string) (row : ProductAttributeValue) :
  db_unique db → a ∈ attributes db →
  set_attribute_value db self (attr_key a) value = Return (db', row) →
  prod_id self' ≠ prod_id self ∨ key' ≠ attr_key a →
  get_attribute_value db' self' key' = get_attribute_value db self' key'.
Proof.
  intros Hu Ha Hset Hother. unfold get_attribute_value.
  destruct (set_attribute_value_other_rows db db' self a value row (λ _, False)
              Hu Ha Hset (λ _ _ _ H, H)) as (_ & Hattrs & Hvals).
  rewrite Hattrs.
  destruct (objects_get MAttribute _ (attributes db)) as [a'|e] eqn:Hget; [|done].
  simpl.
  assert (Ha' : a' ∈ attributes db ∧ attr_key a' = key').
  { revert Hget. unfold objects_get.
    destruct (filter _ (attributes db)) as [|x [|y l]] eqn:Hfilter; intros [= <-].
    assert (Hx : x ∈ filter (λ a0, attr_key a0 = key') (attributes db))
      by (rewrite Hfilter; left).
    apply list_elem_of_filter in Hx. tauto. }
  destruct Ha' as [Ha' Hkey'].
  assert (Hnot : ∀ r, pav_product r = prod_id self → pav_attribute r = attr_id a →
                      ¬ (pav_product r = prod_id self' ∧ pav_attribute r = attr_id a')).
  { intros r Hp Hattr [Hp' Hattr']. destruct Hother as [Hne|Hne].
    - congruence.
    - apply Hne. rewrite <- Hkey'. f_equal.
      apply (unique_key_inj attr_id (attributes db)); [apply Hu|done..|congruence]. }
  destruct (set_attribute_value_other_rows db db' self a value row
              (λ r, pav_product r = prod_id self' ∧ pav_attribute r = attr_id a')
              Hu Ha Hset Hnot) as (Hrows & _ & _).
  unfold product_attr_get, objects_get. rewrite Hrows.
  destruct (filter _ (product_attribute_values db)) as [|r [|r' rs]]; try done.
  simpl. unfold get_display_value. by rewrite Hvals.
Qed.

(** Uniqueness and references of a database given by its rows. *)
Ltac concrete_nodup := by apply (bool_decide_unpack _); vm_compute.

Lemma facet_db_unique : db_unique facet_db.
Proof. constructor; simpl; concrete_nodup. Defined.

Lemma set_attribute_value_frame_witness :
  db_unique facet_db
  ∧ {| attr_id := 1; attr_key := "brand" |} ∈ attributes facet_db
  ∧ ∃ db' row,
      set_attribute_value facet_db (mk_product 1 1 1 true) "brand" "Adidas"
      = Return (db', row)
      ∧ get_attribute_value db' (mk_product 2 1 2 true) "brand"
        = get_attribute_value facet_db (mk_product 2 1 2 true) "brand".
Proof.
  assert (Ha : {| attr_id := 1; attr_key := "brand" |} ∈ attributes facet_db)
    by (simpl; left).
  split; [exact facet_db_unique|]. split; [exact Ha|].
  eexists _, _. split; [reflexivity|].
  apply (set_attribute_value_frame facet_db _ (mk_product 1 1 1 true)
           (mk_product 2 1 2 true) _ "Adidas" "brand" _ facet_db_unique Ha eq_refl).
  left. simpl. lia.
Defined.

Lemma pav_save_again (db : DB) (new : ProductAttributeValue) :
  pav_save new (pav_save new db) = pav_save new db.
Proof.
  unfold pav_save. simpl. f_equal.
  rewrite <- list_fmap_compose. apply list_fmap_ext. intros i r _. simpl.
  destruct (decide (pav_id r = pav_id new)); [by rewrite decide_True|by rewrite decide_False].
Qed.

(** X4: [set_attribute_value] is idempotent: a second call with the same
    product, key and value returns the same row and leaves the database as
    the first call left it; no second row is created. *)
Theorem set_attribute_value_idempotent (db db' : DB) (self : Product)
    (a : Attribute) (value : string) (row : ProductAttributeValue) :
  db_unique db → a ∈ attributes db →
  set_attribute_value db self (attr_key a) value = Return (db', row) →
  set_attribute_value db' self (attr_key a) value = Return (db', row).
Proof.
  intros Hu Ha Hset.
  destruct (set_attribute_value_effect db self a value Hu Ha)
    as (db1 & row0 & stored & Hgoc & Hin0 & Hp0 & Ha0 & Hu1 & Hcases & Hstored & Heq).
  rewrite Heq in Hset. injection Hset as <- <-.
  set (new := pav_with_value row0 stored.1 stored.2).
  destruct (pav_save_spec db1 row0 new Hu1 Hin0) as [Hin Hu']; [done..|].
  assert (Hattrs : attributes (pav_save new db1) = attributes db).
  { by destruct Hcases as [[-> _]|(-> & _)]. }
  assert (Hvals : attribute_values (pav_save new db1) = attribute_values db).
  { by destruct Hcases as [[-> _]|(-> & _)]. }
  assert (Ha' : a ∈ attributes (pav_save new db1)) by (by rewrite Hattrs).
  destruct (set_attribute_value_effect (pav_save new db1) self a value Hu' Ha')
    as (db2 & row1 & stored' & Hgoc' & Hin1 & Hp1 & Ha1 & Hu2 & Hcases' & Hstored' & ->).
  destruct Hcases' as [[-> Hrow1]|(_ & _ & Hfresh)].
  2:{ destruct (Hfresh new Hin). by rewrite <- Hp0, <- Ha0. }
  assert (row1 = new) as ->.
  { apply (unique_key_inj (λ r, (pav_product r, pav_attribute r))
             (product_attribute_values (pav_save new db1))); [apply Hu'|done..|].
    simpl. by rewrite Hp1, Ha1, Hp0, Ha0. }
  assert (stored' = stored) as ->.
  { rewrite Hvals in Hstored'.
    destruct Hstored as [[-> Hno]|(v & -> & Hv & Hva & Hvv)],
             Hstored' as [[-> Hno']|(v' & -> & Hv' & Hva' & Hvv')]; try done.
    - by destruct (Hno v').
    - by destruct (Hno' v).
    - do 3 f_equal.
      apply (unique_key_inj (λ v, (nav_attribute v, nav_value v))
               (attribute_values db)); [apply Hu|done..|].
      by rewrite Hva, Hvv, Hva', Hvv'. }
  change (pav_with_value new stored.1 stored.2) with new.
  by rewrite pav_save_again.
Qed.

Lemma set_attribute_value_idempotent_witness :
  db_unique facet_db
  ∧ {| attr_id := 1; attr_key := "brand" |} ∈ attributes facet_db
  ∧ ∃ db' row,
      set_attribute_value facet_db (mk_product 3 1 3 true) "brand" "Nike"
      = Return (db', row)
      ∧ set_attribute_value db' (mk_product 3 1 3 true) "brand" "Nike"
        = Return (db', row).
Proof.
  assert (Ha : {| attr_id := 1; attr_key := "brand" |} ∈ attributes facet_db)
    by (simpl; left).
  split; [exact facet_db_unique|]. split; [exact Ha|].
  eexists _, _. split; [reflexivity|].
  exact (set_attribute_value_idempotent facet_db _ (mk_product 3 1 3 true)
           _ "Nike" _ facet_db_unique Ha eq_refl).
Defined.

(** X5: the row [set_attribute_value] has saved passes
    [ProductAttributeValue.clean] when the value is not empty or is one of
    the predefined choices of the attribute; an empty value that is no
    choice is saved as an empty custom value, which [clean] rejects. *)
Theorem clean_after_set_attribute_value (db db' : DB) (self : Product)
    (a : Attribute) (value : string) (row : ProductAttributeValue) :
  db_unique db → a ∈ attributes db →
  set_attribute_value db self (attr_key a) value = Return (db', row) →
  (value ≠ "" ∨ (∃ v, v ∈ attribute_values db ∧ nav_attribute v = attr_id a
                      ∧ nav_value v = value) →
   clean db' row = Return Valid)
  ∧ (value = "" →
     (∀ v, v ∈ attribute_values db → ¬ (nav_attribute v = attr_id a ∧ nav_value v = value)) →
     clean db' row
     = Return (ValidationError "Either attribute_value or custom_value must be provided.")).
Proof.
  intros Hu Ha Hset.
  destruct (set_attribute_value_effect db self a value Hu Ha)
    as (db1 & row0 & stored & Hgoc & Hin0 & Hp0 & Ha0 & Hu1 & Hcases & Hstored & Heq).
  rewrite Heq in Hset. injection Hset as <- <-.
  assert (Hvals : attribute_values db1 = attribute_values db).
  { by destruct Hcases as [[-> _]|(-> & _)]. }
  unfold clean, attribute_value_of. simpl. rewrite Hvals.
  destruct Hstored as [[-> Hno]|(v & -> & Hv & Hva & Hvv)]; simpl.
  - split.
    + intros [Hne|(v & Hv & Hmatch)]; [|by destruct (Hno v)].
      by destruct value.
    + by intros ->.
  - rewrite (objects_get_unique nav_id MNewAttributeValue _ (attribute_values db) v);
      [|apply Hu|done|done].
    simpl. split; [done|]. intros Hempty Hno. by destruct (Hno v).
Qed.

Lemma clean_after_set_attribute_value_witness :
  db_unique color_db
  ∧ {| attr_id := 1; attr_key := "color" |} ∈ attributes color_db
  ∧ ∃ db' row,
      set_attribute_value color_db (mk_product 10 1 0 true) "color" "" = Return (db', row)
      ∧ clean db' row
        = Return (ValidationError "Either attribute_value or custom_value must be provided.").
Proof.
  assert (Hu : db_unique color_db).
  { constructor; simpl; concrete_nodup. }
  assert (Ha : {| attr_id := 1; attr_key := "color" |} ∈ attributes color_db) by (simpl; left).
  split; [exact Hu|]. split; [exact Ha|].
  eexists _, _. split; [reflexivity|].
  destruct (clean_after_set_attribute_value color_db _ (mk_product 10 1 0 true)
              _ "" _ Hu Ha eq_refl) as [_ Hreject].
  apply Hreject; [reflexivity|].
  intros v Hv [_ Hvalue]. simpl in Hv. apply list_elem_of_singleton in Hv as ->.
  discriminate Hvalue.
Defined.

(** ** The dictionary of flexible values *)

Lemma filter_fixed_first {A B C} `{EqDecision B} `{EqDecision C}
    (f : A → B) (g : A → C) (c : B) (l : list A) :
  NoDup ((λ r, (f r, g r)) <$> l) → NoDup (g <$> filter (λ r, f r = c) l).
Proof.
  induction l as [|x l IH]; intros Hnd; [constructor|].
  rewrite fmap_cons in Hnd. apply NoDup_cons in Hnd as [Hx Hnd].
  rewrite filter_cons. case_decide as Hfx; [|by apply IH].
  rewrite fmap_cons. apply NoDup_cons. split; [|by apply IH].
  intros Hin. apply list_elem_of_fmap in Hin as (y & Hg & Hy).
  apply list_elem_of_filter in Hy as [Hfy Hy].
  apply Hx. apply list_elem_of_fmap. exists y. split; [|done]. congruence.
Qed.

Lemma attributes_dict_loop (db : DB) (rows : list ProductAttributeValue)
    (acc : gmap string string) :
  db_unique db → db_references db →
  (∀ r, r ∈ rows → r ∈ product_attribute_values db) →
  NoDup (pav_attribute <$> rows) →
  ∃ d,
    for_each (λ attrs attr_value,
                attribute ← objects_get MAttribute
                              (λ a, attr_id a = pav_attribute attr_value) (attributes db);
                value ← get_display_value db attr_value;
                Return (<[attr_key attribute := value]> attrs)) acc rows
    = Return d
    ∧ (∀ r a v, r ∈ rows → a ∈ attributes db → attr_id a = pav_attribute r →
                get_display_value db r = Return v → d !! attr_key a = Some v)
    ∧ (∀ key, (∀ r a, r ∈ rows → a ∈ attributes db → attr_id a = pav_attribute r →
                      attr_key a ≠ key) →
              d !! key = acc !! key).
Proof.
  intros Hu Href. revert acc.
  induction rows as [|r rows IH]; intros acc Hrows Hnd.
  - exists acc. split; [done|]. split; [|done].
    intros r a v Hr. by apply elem_of_nil in Hr.
  - assert (Hr : r ∈ product_attribute_values db) by (apply Hrows; left).
    rewrite fmap_cons in Hnd. apply NoDup_cons in Hnd as [Hfresh Hnd].
    destruct (attribute_exists db Href r Hr) as (a0 & Ha0 & Hid0).
    destruct (get_display_value_returns db r Hu Href Hr) as [v0 Hv0].
    assert (Hsame : ∀ a, a ∈ attributes db → attr_id a = pav_attribute r → a = a0).
    { intros a Ha Hid. apply (unique_key_inj attr_id (attributes db));
        [apply Hu|done..|congruence]. }
    destruct (IH (<[attr_key a0 := v0]> acc)) as (d & Hd & Hfound & Hmissing); [|done|].
    { intros r' Hr'. apply Hrows. by right. }
    exists d. split; [|split].
    + simpl. rewrite (objects_get_unique attr_id MAttribute _ (attributes db) a0);
        [|apply Hu|done|intros a'; by rewrite Hid0].
      simpl. rewrite Hv0. simpl. exact Hd.
    + intros r' a v Hr' Ha Hid Hv.
      apply elem_of_cons in Hr' as [->|Hr']; [|by apply (Hfound r')].
      rewrite (Hsame a Ha Hid). rewrite Hv0 in Hv. injection Hv as <-.
      rewrite Hmissing; [apply lookup_insert_eq|].
      intros r' a' Hr' Ha' Hid' Hkey. apply Hfresh.
      apply list_elem_of_fmap. exists r'. split; [|done].
      rewrite <- Hid', <- Hid0. f_equal.
      apply (unique_key_inj attr_key (attributes db)); [apply Hu|done..].
    + intros key Hno. rewrite Hmissing.
      * apply lookup_insert_ne. apply (Hno r a0); [left|done..].
      * intros r' a' Hr'. apply Hno. by right.
Qed.

(** X6: [get_attributes_dict] returns a dictionary that agrees with
    [get_attribute_value] on every key: the display value of the flexible
    row of the product for the attribute with that key, and no entry when
    the key is not registered or the product has no flexible row for it. *)
Theorem get_attributes_dict_agrees (db : DB) (self : Product) :
  db_unique db → db_references db →
  ∃ d, get_attributes_dict db self = Return d
       ∧ ∀ key, get_attribute_value db self key = Return (d !! key).
Proof.
  intros Hu Href.
  destruct (attributes_dict_loop db
              (filter (λ r, pav_product r = prod_id self) (product_attribute_values db))
              ∅ Hu Href) as (d & Hd & Hfound & Hmissing).
  { intros r Hr. by apply list_elem_of_filter in Hr as [_ Hr]. }
  { apply (filter_fixed_first pav_product pav_attribute), Hu. }
  exists d. split; [exact Hd|]. intros key.
  destruct (filter_key_cases attr_key (λ a, attr_key a = key) key (attributes db))
    as [Hnone|(a & Hone & Ha & Hkey)]; [apply Hu|done|..].
  - rewrite Hmissing, lookup_empty.
    + unfold get_attribute_value, objects_get. by rewrite Hnone.
    + intros r a _ Ha _ Hkey. by apply (filter_nil_not_elem_of _ _ a Hnone).
  - subst key.
    destruct (filter_key_cases (λ r, (pav_product r, pav_attribute r))
                (λ r, pav_product r = prod_id self ∧ pav_attribute r = attr_id a)
                (prod_id self, attr_id a) (product_attribute_values db))
      as [Hnorow|(r & Hrow & Hr & Hpair)]; [apply Hu| |..].
    { intros r. split; [by intros [-> ->]|by injection 1]. }
    + rewrite Hmissing, lookup_empty.
      * unfold get_attribute_value.
        rewrite (objects_get_unique attr_key MAttribute _ (attributes db) a);
          [|apply Hu|done|done].
        simpl. unfold product_attr_get, objects_get. by rewrite Hnorow.
      * intros r a' Hr Ha' Hid Hkey.
        apply list_elem_of_filter in Hr as [Hp Hr].
        apply (filter_nil_not_elem_of _ _ r Hnorow); [|done]. split; [done|].
        rewrite <- Hid. f_equal.
        apply (unique_key_inj attr_key (attributes db)); [apply Hu|done..].
    + injection Hpair as Hp Hattr.
      destruct (get_display_value_returns db r Hu Href Hr) as [v Hv].
      rewrite (Hfound r a v); [|by apply list_elem_of_filter|done..].
      by apply (get_attribute_value_saved db self a r v).
Qed.

Lemma get_attributes_dict_agrees_witness :
  db_unique both_stores_db ∧ db_references both_stores_db
  ∧ ∃ d, get_attributes_dict both_stores_db (mk_product 10 1 0 true) = Return d
         ∧ get_attribute_value both_stores_db (mk_product 10 1 0 true) "color"
           = Return (d !! "color").
Proof.
  assert (Hu : db_unique both_stores_db).
  { constructor; simpl; concrete_nodup. }
  assert (Href : db_references both_stores_db).
  { constructor; simpl.
    - intros r Hr. apply list_elem_of_singleton in Hr as ->.
      eexists. split; [left|done].
    - intros r pk Hr Hpk. apply list_elem_of_singleton in Hr as ->.
      injection Hpk as <-. eexists. split; [left|done]. }
  split; [exact Hu|]. split; [exact Href|].
  destruct (get_attributes_dict_agrees both_stores_db (mk_product 10 1 0 true) Hu Href)
    as (d & Hd & Hagree).
  exists d. split; [exact Hd|apply Hagree].
Defined.

(** ** Cleaning the legacy attributes *)

Lemma filter_complement_all {A} (P : A → Prop) `{∀ x, Decision (P x)} (l : list A) :
  filter P l = [] → filter (λ x, ¬ P x) l = l.
Proof.
  induction l as [|x l IH]; [done|]. rewrite !filter_cons.
  destruct (decide (P x)) as [Hx|Hx]; [done|].
  intros Hnil. by rewrite decide_True, IH.
Qed.

(** The tables a successful cleanup leaves. *)
Lemma cleanup_tables (db db' : DB) (self : Product) :
  cleanup_attributes_on_category_change db self = Return db' →
  product_attributes db'
  = filter (λ r, ¬ (pa_product r = prod_id self
                    ∧ pa_key r ∉ category_attribute_keys db (prod_category self)))
           (product_attributes db)
  ∧ categories db' = categories db ∧ attributes db' = attributes db
  ∧ attribute_values db' = attribute_values db
  ∧ product_attribute_values db' = product_attribute_values db
  ∧ category_attributes db' = category_attributes db
  ∧ products db' = products db.
Proof.
  unfold cleanup_attributes_on_category_change.
  destruct (objects_get MCategory _ (categories db)) as [category|e] eqn:Hget; [|done].
  assert (Hid : cat_id category = prod_category self).
  { revert Hget. unfold objects_get.
    destruct (filter _ (categories db)) as [|c [|c' cs]] eqn:Hfilter; intros [= <-].
    assert (Hc : c ∈ filter (λ c, cat_id c = prod_category self) (categories db))
      by (rewrite Hfilter; left).
    by apply list_elem_of_filter in Hc as [Hc _]. }
  simpl. rewrite Hid. case_decide as Hcount; intros [= <-]; [done|].
  split; [|done]. symmetry. apply filter_complement_all.
  destruct (filter _ (product_attributes db)); [done|simpl in Hcount; lia].
Qed.

(** X7: after [_cleanup_attributes_on_category_change] every legacy row of
    the product has a key its category defines; the legacy rows of the
    other products, and the rows of the product with a defined key, are
    where they were; the flexible rows are not touched, whatever their
    keys. *)
Theorem cleanup_keeps_defined_keys (db db' : DB) (self : Product) :
  cleanup_attributes_on_category_change db self = Return db' →
  (∀ r, r ∈ product_attributes db' → pa_product r = prod_id self →
        pa_key r ∈ category_attribute_keys db (prod_category self))
  ∧ filter (λ r, pa_product r ≠ prod_id self) (product_attributes db')
    = filter (λ r, pa_product r ≠ prod_id self) (product_attributes db)
  ∧ filter (λ r, pa_product r = prod_id self) (product_attributes db')
    = filter (λ r, pa_product r = prod_id self
                   ∧ pa_key r ∈ category_attribute_keys db (prod_category self))
             (product_attributes db)
  ∧ product_attribute_values db' = product_attribute_values db.
Proof.
  intros Hclean. destruct (cleanup_tables db db' self Hclean) as (-> & _ & _ & _ & -> & _).
  split; [|split; [|split; [|done]]].
  - intros r Hr Hp. apply list_elem_of_filter in Hr as [Hvalid _].
    destruct (decide (pa_key r ∈ category_attribute_keys db (prod_category self)));
      [done|by destruct Hvalid].
  - rewrite list_filter_filter. apply list_filter_iff. intros r. tauto.
  - rewrite list_filter_filter. apply list_filter_iff. intros r.
    destruct (decide (pa_key r ∈ category_attribute_keys db (prod_category self))); tauto.
Qed.

Lemma cleanup_keeps_defined_keys_witness :
  ∃ db', cleanup_attributes_on_category_change both_stores_db (mk_product 10 1 0 true)
         = Return db'
         ∧ product_attributes db'
           = [{| pa_product := 10; pa_key := "color"; pa_value := "red" |}]
         ∧ ∀ r, r ∈ product_attributes db' → pa_product r = 10 →
                pa_key r ∈ category_attribute_keys both_stores_db 1.
Proof.
  eexists. split; [reflexivity|]. split; [reflexivity|].
  apply (cleanup_keeps_defined_keys both_stores_db _ (mk_product 10 1 0 true) eq_refl).
Defined.

(** X8: when the category of the product defines no attribute, the cleanup
    deletes every legacy row of the product. *)
Theorem cleanup_without_schema_deletes_all (db db' : DB) (self : Product) :
  cleanup_attributes_on_category_change db self = Return db' →
  category_attribute_keys db (prod_category self) = ∅ →
  filter (λ r, pa_product r = prod_id self) (product_attributes db') = [].
Proof.
  intros Hclean Hempty.
  destruct (cleanup_tables db db' self Hclean) as (-> & _).
  rewrite list_filter_filter. apply filter_none. intros r _ [Hp Hkeep].
  apply Hkeep. split; [done|]. rewrite Hempty. apply not_elem_of_empty.
Qed.

Lemma cleanup_without_schema_deletes_all_witness :
  ∃ db', cleanup_attributes_on_category_change color_db (mk_product 10 1 0 true)
         = Return db'
         ∧ category_attribute_keys color_db 1 = ∅
         ∧ filter (λ r, pa_product r = 10) (product_attributes db') = [].
Proof.
  eexists. split; [reflexivity|].
  assert (Hempty : category_attribute_keys color_db 1 = ∅) by reflexivity.
  split; [exact Hempty|].
  exact (cleanup_without_schema_deletes_all color_db _ (mk_product 10 1 0 true)
           eq_refl Hempty).
Defined.

(** X9: the cleanup is idempotent: run again on the database it has left,
    it deletes nothing. *)
Theorem cleanup_idempotent (db db' : DB) (self : Product) :
  cleanup_attributes_on_category_change db self = Return db' →
  cleanup_attributes_on_category_change db' self = Return db'.
Proof.
  intros Hclean.
  destruct (cleanup_tables db db' self Hclean) as (Hlegacy & Hc & _ & _ & _ & Hca & _).
  revert Hclean. unfold cleanup_attributes_on_category_change. rewrite Hc.
  destruct (objects_get MCategory _ (categories db)) as [category|e] eqn:Hget; [|done].
  assert (Hid : cat_id category = prod_category self).
  { revert Hget. unfold objects_get.
    destruct (filter _ (categories db)) as [|c [|c' cs]] eqn:Hfilter; intros [= <-].
    assert (Hcat : c ∈ filter (λ c, cat_id c = prod_category self) (categories db))
      by (rewrite Hfilter; left).
    by apply list_elem_of_filter in Hcat as [Hcat _]. }
  simpl. intros _.
  assert (Hkeys : category_attribute_keys db' (cat_id category)
                  = category_attribute_keys db (prod_category self)).
  { unfold category_attribute_keys. by rewrite Hca, Hid. }
  rewrite Hkeys, Hlegacy, list_filter_filter.
  rewrite (filter_none _ (product_attributes db)); [|tauto].
  by rewrite decide_False by (simpl; lia).
Qed.

Lemma cleanup_idempotent_witness :
  ∃ db', cleanup_attributes_on_category_change both_stores_db (mk_product 10 1 0 true)
         = Return db'
         ∧ cleanup_attributes_on_category_change db' (mk_product 10 1 0 true) = Return db'.
Proof.
  eexists. split; [reflexivity|].
  exact (cleanup_idempotent both_stores_db _ (mk_product 10 1 0 true) eq_refl).
Defined.

Lemma filter_iff_elem {A} (P Q : A → Prop) `{∀ x, Decision (P x)}
    `{∀ x, Decision (Q x)} (l : list A) :
  (∀ x, x ∈ l → P x ↔ Q x) → filter P l = filter Q l.
Proof.
  induction l as [|x l IH]; intros HPQ; [done|].
  rewrite !filter_cons, IH by (intros y Hy; apply HPQ; by right).
  destruct (HPQ x) as [H1 H2]; [left|].
  destruct (decide (P x)) as [HP|HP]; [by rewrite decide_True by auto|].
  by rewrite decide_False by auto.
Qed.

Lemma DB_eq (db1 db2 : DB) :
  categories db1 = categories db2 → attributes db1 = attributes db2 →
  attribute_values db1 = attribute_values db2 →
  product_attribute_values db1 = product_attribute_values db2 →
  product_attributes db1 = product_attributes db2 →
  category_attributes db1 = category_attributes db2 →
  products db1 = products db2 → db1 = db2.
Proof. destruct db1, db2. simpl. by intros -> -> -> -> -> -> ->. Qed.

Lemma delete_each_tables (attributes_to_remove : list ProductAttribute) (db : DB) :
  product_attributes (delete_each attributes_to_remove db)
  = filter (λ r, r ∉ attributes_to_remove) (product_attributes db)
  ∧ categories (delete_each attributes_to_remove db) = categories db
  ∧ attributes (delete_each attributes_to_remove db) = attributes db
  ∧ attribute_values (delete_each attributes_to_remove db) = attribute_values db
  ∧ product_attribute_values (delete_each attributes_to_remove db)
    = product_attribute_values db
  ∧ category_attributes (delete_each attributes_to_remove db) = category_attributes db
  ∧ products (delete_each attributes_to_remove db) = products db.
Proof.
  unfold delete_each. revert db.
  induction attributes_to_remove as [|attr rest IH]; intros db.
  - simpl. split; [|done].
    generalize (product_attributes db). intros l.
    induction l as [|x l IHl]; [done|].
    rewrite filter_cons, decide_True by apply not_elem_of_nil. by f_equal.
  - simpl. destruct (IH (legacy_delete (λ r, r = attr) db)) as (-> & -> & -> & -> & -> & -> & ->).
    simpl. split; [|done]. rewrite list_filter_filter. apply list_filter_iff.
    intros r. rewrite not_elem_of_cons. tauto.
Qed.

(** X10: the view [cleanup_product_attributes] leaves the database that
    [_cleanup_attributes_on_category_change] leaves for the same product.
    Its response counts the removed rows, the removed and the kept rows
    together are the legacy rows the product had, and the current
    attributes it reports are the kept ones. *)
Theorem cleanup_view_agrees_with_model (db db' : DB) (product : Product) :
  filter (λ p, prod_id p = prod_id product) (products db) = [product] →
  cleanup_attributes_on_category_change db product = Return db' →
  ∃ removed kept,
    cleanup_product_attributes db (prod_id product)
    = (Cleanup200 (length removed) removed kept kept, db')
    ∧ removed ++ kept
      ≡ₚ (λ r, (pa_key r, pa_value r))
           <$> filter (λ r, pa_product r = prod_id product) (product_attributes db).
Proof.
  intros Hproduct Hclean.
  destruct (cleanup_tables db db' product Hclean) as (Hl & Hc & Ha & Hv & Hr & Hca & Hp).
  revert Hclean. unfold cleanup_product_attributes, cleanup_attributes_on_category_change.
  rewrite Hproduct.
  destruct (objects_get MCategory _ (categories db)) as [category|e] eqn:Hget; [|done].
  assert (Hid : cat_id category = prod_category product).
  { revert Hget. unfold objects_get.
    destruct (filter _ (categories db)) as [|c [|c' cs]] eqn:Hfilter; intros [= <-].
    assert (Hcat : c ∈ filter (λ c, cat_id c = prod_category product) (categories db))
      by (rewrite Hfilter; left).
    by apply list_elem_of_filter in Hcat as [Hcat _]. }
  simpl. intros _. rewrite Hid.
  set (valid_keys := category_attribute_keys db (prod_category product)).
  set (current := filter (λ r, pa_product r = prod_id product) (product_attributes db)).
  set (to_remove := filter (λ r, pa_key r ∉ valid_keys) current).
  destruct (delete_each_tables to_remove db) as (Hl' & Hc' & Ha' & Hv' & Hr' & Hca' & Hp').
  assert (Hlegacy : product_attributes (delete_each to_remove db) = product_attributes db').
  { rewrite Hl', Hl. apply filter_iff_elem. intros r Hin. unfold to_remove, current.
    rewrite !list_elem_of_filter. tauto. }
  exists ((λ r, (pa_key r, pa_value r)) <$> to_remove),
         ((λ r, (pa_key r, pa_value r)) <$> filter (λ r, pa_key r ∈ valid_keys) current).
  split.
  - rewrite length_fmap. f_equal; [|apply DB_eq; congruence].
    f_equal. f_equal. rewrite Hlegacy, Hl, list_filter_filter.
    unfold current. rewrite list_filter_filter. apply list_filter_iff. intros r.
    destruct (decide (pa_key r ∈ valid_keys)); tauto.
  - rewrite <- fmap_app. apply fmap_Permutation.
    rewrite Permutation_app_comm. apply filter_app_complement.
Qed.

Lemma cleanup_view_agrees_with_model_witness :
  filter (λ p, prod_id p = 10) (products both_stores_db) = [mk_product 10 1 0 true]
  ∧ ∃ db' removed kept,
      cleanup_attributes_on_category_change both_stores_db (mk_product 10 1 0 true)
      = Return db'
      ∧ cleanup_product_attributes both_stores_db 10
        = (Cleanup200 (length removed) removed kept kept, db').
Proof.
  split; [reflexivity|].
  destruct (cleanup_view_agrees_with_model both_stores_db _ (mk_product 10 1 0 true)
              eq_refl eq_refl) as (removed & kept & Hview & _).
  eexists _, removed, kept. split; [reflexivity|exact Hview].
Defined.

(** ** The price columns *)

























(** ** Products of a category *)

(** X13: for a category without subcategories [get_all_products] returns
    its active direct products whatever its type says, container
    included, and [get_product_count] counts them. *)
Theorem leaf_category_products (db : DB) (depth : nat) (self : Category) :
  subcategories db self = [] →
  get_all_products (S depth) db self = Return (direct_products db self)
  ∧ get_product_count (S depth) db self
    = Return (Z.of_nat (length (direct_products db self))).
Proof.
  intros Hleaf.
  assert (Hall : get_all_products (S depth) db self = Return (direct_products db self)).
  { unfold get_all_products. destruct (is_container_category db self); [|done].
    simpl. rewrite Hleaf. simpl. f_equal. unfold direct_products.
    apply list_filter_iff. intros p. by rewrite list_elem_of_singleton. }
  split; [done|]. unfold get_product_count. by rewrite Hall.
Qed.

Lemma leaf_category_products_witness :
  subcategories tree_db (mk_category 2 (Some 1) "container") = []
  ∧ get_product_count 1 tree_db (mk_category 2 (Some 1) "container") = Return 1.
Proof.
  split; [reflexivity|].
  destruct (leaf_category_products tree_db 0 (mk_category 2 (Some 1) "container") eq_refl)
    as [_ Hcount].
  exact Hcount.
Defined.

(** The traversal on a relation without a cycle, for the statements that
    follow. *)
Lemma get_all_subcategories_descendants (db : DB) (rank : Z → nat)
    (depth : nat) (self : Category) :
  parent_ranked db rank →
  (rank (cat_id self) < depth)%nat →
  ∃ subs, get_all_subcategories depth db self = Return subs
          ∧ ∀ c, c ∈ subs ↔ descendant db self c.
Proof.
  intros Hrank. revert self.
  induction depth as [|d IH]; intros self Hdepth; [lia|].
  destruct (for_each_extend (get_all_subcategories d db)
              (λ s r, ∀ c, c ∈ r ↔ descendant db s c)
              (subcategories db self) (subcategories db self))
    as (rs & Hrs & HF).
  { intros s Hs. apply IH.
    apply elem_of_subcategories in Hs as [Hin Hparent].
    specialize (Hrank s (cat_id self) Hin Hparent). lia. }
  exists (subcategories db self ++ mjoin rs). split; [exact Hrs|].
  intros c. rewrite descendant_unfold, elem_of_app, elem_of_subcategories.
  apply or_iff_compat_l. rewrite list_elem_of_join. split.
  - intros (r & Hc & Hr).
    apply list_elem_of_lookup in Hr as [i Hi].
    destruct (Forall2_lookup_r _ _ _ _ _ HF Hi) as (s & Hs & Hsr).
    exists s. split; [|by apply Hsr].
    apply elem_of_subcategories, list_elem_of_lookup. by exists i.
  - intros (s & Hs & Hdesc).
    apply elem_of_subcategories, list_elem_of_lookup in Hs as [i Hi].
    destruct (Forall2_lookup_l _ _ _ _ _ HF Hi) as (r & Hr & Hsr).
    exists r. split; [by apply Hsr|].
    apply list_elem_of_lookup. by exists i.
Qed.

(** X14: on a relation without a cycle, [get_all_products] of a container
    category returns the query set of exactly the active products whose
    category is the container itself or one of its descendants, whatever the
    types of the descendants, each row once.  Iterating the query set gives
    the same products newest first, as [Product.Meta.ordering] says. *)
Theorem container_products `{Platform} (db : DB) (rank : Z → nat) (depth : nat)
    (self : Category) :
  parent_ranked db rank →
  (rank (cat_id self) < depth)%nat →
  is_container_category db self = true →
  ∃ queryset,
    get_all_products depth db self = Return queryset
    ∧ (∀ p, p ∈ queryset
            ↔ p ∈ products db ∧ prod_is_active p = true
              ∧ (prod_category p = cat_id self
                 ∨ ∃ c, descendant db self c ∧ prod_category p = cat_id c))
    ∧ (NoDup (products db) → NoDup queryset)
    ∧ iterate_products queryset ≡ₚ queryset
    ∧ StronglySorted newer_or_equal (iterate_products queryset).
Proof.
  intros Hrank Hdepth Hcontainer.
  destruct (get_all_subcategories_descendants db rank depth self Hrank Hdepth)
    as (subs & Hsubs & Hdesc).
  unfold get_all_products. rewrite Hcontainer, Hsubs. simpl.
  eexists. split; [done|]. split; [|split; [|split]].
  - intros p. rewrite list_elem_of_filter, elem_of_cons, list_elem_of_fmap. split.
    + intros [[[Hself|(c & Hc & Hin)] Hactive] Hp]; (split; [done|]); (split; [done|]).
      * by left.
      * right. exists c. split; [by apply Hdesc|done].
    + intros (Hp & Hactive & [Hself|(c & Hc & Hcat)]); (split; [|done]); (split; [|done]).
      * by left.
      * right. exists c. split; [done|by apply Hdesc].
  - apply NoDup_filter.
  - apply order_by_created_at_desc_perm.
  - apply order_by_created_at_desc_sorted.
Qed.

Lemma container_products_witness :
  parent_ranked tree_db (λ pk, if decide (pk = 1) then 1%nat else 0%nat)
  ∧ is_container_category tree_db (mk_category 1 None "auto") = true
  ∧ ∃ queryset,
      get_all_products 2 tree_db (mk_category 1 None "auto") = Return queryset
      ∧ mk_product 10 2 0 true ∈ queryset
      ∧ StronglySorted newer_or_equal (@iterate_products sample_platform queryset).
Proof.
  assert (Hrank : parent_ranked tree_db (λ pk, if decide (pk = 1) then 1%nat else 0%nat)).
  { intros c p Hc Hp. simpl in Hc.
    apply elem_of_cons in Hc as [->|Hc]; [discriminate|].
    apply elem_of_cons in Hc as [->|Hc]; [|by apply elem_of_nil in Hc].
    injection Hp as <-. simpl. lia. }
  split; [exact Hrank|]. split; [reflexivity|].
  destruct (@container_products sample_platform tree_db _ 2 (mk_category 1 None "auto")
              Hrank)
    as (queryset & Hret & Hin & _ & _ & Hsorted); [simpl; lia|reflexivity|].
  exists queryset. split; [exact Hret|]. split; [|exact Hsorted].
  apply Hin. split; [left|]. split; [reflexivity|].
  right. exists (mk_category 2 (Some 1) "auto"). split; [|reflexivity].
  apply tc_once. split; [simpl; right; left|reflexivity].
Defined.

(** X15: [is_container_category] and [is_direct_category] never both hold;
    one of them holds when [category_type] is ['auto'], ['container'] or
    ['direct'], and neither holds for any other stored type. *)
Theorem container_or_direct (db : DB) (self : Category) :
  ¬ (is_container_category db self = true ∧ is_direct_category db self = true)
  ∧ (cat_category_type self ∈ ["auto"; "container"; "direct"] →
     is_container_category db self = negb (is_direct_category db self))
  ∧ (cat_category_type self ∉ ["auto"; "container"; "direct"] →
     is_container_category db self = false ∧ is_direct_category db self = false).
Proof.
  unfold is_container_category, is_direct_category. split; [|split].
  - intros [Hc Hd]. apply bool_decide_eq_true in Hc, Hd. congruence.
  - intros Htype.
    assert (Hcases : get_effective_category_type db self = "container"
                     ∨ get_effective_category_type db self = "direct").
    { unfold get_effective_category_type.
      destruct (bool_decide (cat_category_type self = "auto")) eqn:Hauto; simpl.
      - destruct (queryset_exists (subcategories db self)),
                 (queryset_exists (direct_products db self)); simpl; auto.
      - apply bool_decide_eq_false in Hauto.
        repeat (apply elem_of_cons in Htype as [Htype|Htype]); auto; try done.
        by apply elem_of_nil in Htype. }
    destruct Hcases as [-> | ->]; reflexivity.
  - intros Htype.
    assert (Heff : get_effective_category_type db self = cat_category_type self).
    { unfold get_effective_category_type.
      rewrite bool_decide_eq_false_2; [done|].
      intros Hauto. apply Htype. rewrite Hauto. left. }
    rewrite Heff. split; apply bool_decide_eq_false; intros Heq; apply Htype;
      rewrite Heq; [right; left|right; right; left].
Qed.

Lemma container_or_direct_witness :
  (cat_category_type (mk_category 1 None "mixed") ∉ ["auto"; "container"; "direct"])
  ∧ is_container_category tree_db (mk_category 1 None "mixed") = false
  ∧ is_direct_category tree_db (mk_category 1 None "mixed") = false.
Proof.
  assert (Htype : cat_category_type (mk_category 1 None "mixed")
                  ∉ ["auto"; "container"; "direct"]).
  { simpl. intros Hin. repeat (apply elem_of_cons in Hin as [Hin|Hin]; [discriminate|]).
    by apply elem_of_nil in Hin. }
  split; [exact Htype|].
  destruct (container_or_direct tree_db (mk_category 1 None "mixed")) as (_ & _ & Hnone).
  exact (Hnone Htype).
Defined.

(** ** More on the serialized attributes *)

Lemma legacy_entries_eq (db : DB) (obj : Product) (attrs : list (string * string)) :
  legacy_entries db obj attrs = attrs ++ legacy_pairs db obj.
Proof.
  unfold legacy_entries, legacy_pairs.
  generalize (filter (λ r, pa_product r = prod_id obj) (product_attributes db)).
  intros rows. revert attrs. induction rows as [|r rows IH]; intros attrs; simpl.
  - by rewrite app_nil_r.
  - rewrite filter_cons. case_decide.
    + rewrite IH, <- app_assoc. done.
    + apply IH.
Qed.

Lemma dict_get_Some_elem {V} (key : string) (d : dict V) (v : V) :
  dict_get key d = Some v → (key, v) ∈ d.
Proof.
  induction d as [|[k w] d IH]; [done|]. simpl. case_decide as Hk.
  - intros [= ->]. subst. left.
  - intros Hget. right. by apply IH.
Qed.

Lemma dict_get_app_r {V} (key : string) (d1 d2 : dict V) :
  (∀ v, (key, v) ∉ d1) → dict_get key (d1 ++ d2) = dict_get key d2.
Proof.
  induction d1 as [|[k w] d1 IH]; intros Hno; [done|]. simpl.
  case_decide as Hk.
  - subst. destruct (Hno w). left.
  - apply IH. intros v Hin. apply (Hno v). by right.
Qed.

Lemma unique_first_keys (attrs : list (string * string)) (seen : gset string) :
  NoDup (unique_first seen attrs).*1.
Proof.
  revert seen. induction attrs as [|[k v] attrs IH]; intros seen; simpl; [constructor|].
  case_decide; [apply IH|]. rewrite fmap_cons. apply NoDup_cons. split; [|apply IH].
  simpl. intros Hin. apply list_elem_of_fmap in Hin as ([k' v'] & Hk & Hin).
  simpl in Hk. subst k'. apply elem_of_unique_first in Hin as [Hseen _].
  apply Hseen, elem_of_union_l, elem_of_singleton. done.
Qed.

(** The list [get_attributes] returns, entry by entry. *)
Lemma get_attributes_entries (db : DB) (obj : Product) :
  db_unique db → db_references db →
  ∃ flexible out,
    flexible_entries db obj = Return flexible
    ∧ (∀ k v, (k, v) ∈ flexible ↔ flexible_entry db obj k v)
    ∧ get_attributes db obj = Return out
    ∧ NoDup out.*1
    ∧ ∀ k v, (k, v) ∈ out
             ↔ (category_attribute_keys db (prod_category obj) = ∅
                ∨ k ∈ category_attribute_keys db (prod_category obj))
               ∧ dict_get k (flexible ++ legacy_pairs db obj) = Some v.
Proof.
  intros Hu Href.
  destruct (flexible_entries_spec db obj Hu Href) as (flexible & Hret & Hflex).
  unfold get_attributes. rewrite Hret. simpl. rewrite legacy_entries_eq.
  set (allowed := category_attribute_keys db (prod_category obj)).
  eexists flexible, _. split; [done|]. split; [done|]. split; [done|].
  case_decide as Hallowed.
  - split.
    + eapply sublist_NoDup; [apply unique_first_keys|]. apply fmap_sublist, sublist_filter.
    + intros k v. rewrite list_elem_of_filter, elem_of_unique_first. simpl.
      split; [intros (? & _ & ?); auto|].
      intros [[?|?] ?]; [done|]. split; [done|]. split; [apply not_elem_of_empty|done].
  - split; [apply unique_first_keys|].
    intros k v. rewrite elem_of_unique_first.
    split; [intros [_ ?]; auto|]. intros [_ ?]. split; [apply not_elem_of_empty|done].
Qed.

Lemma rename_brand_not_persian (key : string) : rename_brand key ≠ brand_fa.
Proof. unfold rename_brand. case_decide; [done|done]. Qed.

(** X16: in the list [get_attributes] returns no key occurs twice, no
    value is empty, and no key is the Persian spelling of the brand key:
    it is always written [brand]. *)
Theorem get_attributes_well_formed (db : DB) (obj : Product) :
  db_unique db → db_references db →
  ∃ out, get_attributes db obj = Return out
         ∧ NoDup out.*1
         ∧ ∀ k v, (k, v) ∈ out → v ≠ "" ∧ k ≠ brand_fa.
Proof.
  intros Hu Href.
  destruct (get_attributes_entries db obj Hu Href)
    as (flexible & out & _ & Hflex & Hret & Hnodup & Hout).
  exists out. split; [done|]. split; [done|].
  intros k v Hin. apply Hout in Hin as [_ Hget].
  apply dict_get_Some_elem, elem_of_app in Hget as [Hin|Hin].
  - apply Hflex in Hin as (r & a & _ & _ & _ & _ & <- & _ & Hne).
    split; [done|apply rename_brand_not_persian].
  - unfold legacy_pairs in Hin. apply list_elem_of_fmap in Hin as (r & [= -> ->] & Hr).
    apply list_elem_of_filter in Hr as [Hne _].
    split; [done|apply rename_brand_not_persian].
Qed.

Lemma both_stores_db_unique : db_unique both_stores_db.
Proof. constructor; simpl; concrete_nodup. Defined.

Lemma both_stores_db_references : db_references both_stores_db.
Proof.
  constructor; simpl.
  - intros r Hr. apply list_elem_of_singleton in Hr as ->.
    eexists. split; [left|done].
  - intros r pk Hr Hpk. apply list_elem_of_singleton in Hr as ->.
    injection Hpk as <-. eexists. split; [left|done].
Defined.

Lemma get_attributes_well_formed_witness :
  db_unique both_stores_db ∧ db_references both_stores_db
  ∧ ∃ out, get_attributes both_stores_db (mk_product 10 1 0 true) = Return out
           ∧ NoDup out.*1.
Proof.
  split; [exact both_stores_db_unique|]. split; [exact both_stores_db_references|].
  destruct (get_attributes_well_formed both_stores_db (mk_product 10 1 0 true)
              both_stores_db_unique both_stores_db_references) as (out & Hret & Hnodup & _).
  exists out. split; [exact Hret|exact Hnodup].
Defined.

(** X17: for a key the flexible store has no value for, [get_attributes]
    returns the value of the first legacy row of the product that has this
    key and a value that is not empty; later legacy rows with the same key
    are left out. *)
Theorem get_attributes_first_legacy_row (db : DB) (obj : Product) (k : string) :
  db_unique db → db_references db →
  (∀ v, ¬ flexible_entry db obj k v) →
  ∃ out, get_attributes db obj = Return out
         ∧ ∀ v, (k, v) ∈ out
                ↔ (category_attribute_keys db (prod_category obj) = ∅
                   ∨ k ∈ category_attribute_keys db (prod_category obj))
                  ∧ dict_get k (legacy_pairs db obj) = Some v.
Proof.
  intros Hu Href Hno.
  destruct (get_attributes_entries db obj Hu Href)
    as (flexible & out & _ & Hflex & Hret & _ & Hout).
  exists out. split; [done|]. intros v. rewrite Hout, dict_get_app_r; [done|].
  intros v' Hin. by apply Hflex, Hno in Hin.
Qed.

Lemma two_legacy_db_unique : db_unique two_legacy_db.
Proof. constructor; simpl; apply NoDup_nil_2. Defined.

Lemma two_legacy_db_references : db_references two_legacy_db.
Proof. constructor; simpl; intros r; intros; by apply elem_of_nil in H. Defined.

Lemma get_attributes_first_legacy_row_witness :
  (∀ v, ¬ flexible_entry two_legacy_db (mk_product 10 1 0 true) "size" v)
  ∧ ∃ out, get_attributes two_legacy_db (mk_product 10 1 0 true) = Return out
           ∧ (("size", "L") ∈ out) ∧ (("size", "M") ∉ out).
Proof.
  assert (Hno : ∀ v, ¬ flexible_entry two_legacy_db (mk_product 10 1 0 true) "size" v).
  { intros v (r & a & Hr & _). simpl in Hr. by apply elem_of_nil in Hr. }
  split; [exact Hno|].
  destruct (get_attributes_first_legacy_row two_legacy_db (mk_product 10 1 0 true) "size"
              two_legacy_db_unique two_legacy_db_references Hno) as (out & Hret & Hout).
  exists out. split; [exact Hret|]. split.
  - apply Hout. split; [by left|reflexivity].
  - intros Hin. apply Hout in Hin as [_ Hget]. discriminate Hget.
Defined.

(** ** Parsing the query *)

Lemma collect_filters_eq (valid_attribute_keys : gset string)
    (price_key special_key : string → bool) (q : QueryDict) :
  collect_filters valid_attribute_keys price_key special_key q
  = {| multi_value_filters := omap (attribute_entry valid_attribute_keys q) (keys q);
       price_filters := omap (price_entry valid_attribute_keys price_key q) (keys q);
       special_filters :=
         omap (special_entry valid_attribute_keys price_key special_key q) (keys q) |}.
Proof.
  unfold collect_filters.
  assert (Hloop : ∀ ks f,
    foldl (collect_key valid_attribute_keys price_key special_key q) f ks
    = {| multi_value_filters :=
           multi_value_filters f ++ omap (attribute_entry valid_attribute_keys q) ks;
         price_filters :=
           price_filters f ++ omap (price_entry valid_attribute_keys price_key q) ks;
         special_filters :=
           special_filters f
           ++ omap (special_entry valid_attribute_keys price_key special_key q) ks |}).
  { induction ks as [|key ks IH]; intros f.
    - simpl. rewrite !app_nil_r. by destruct f.
    - simpl. rewrite IH. clear IH.
      unfold collect_key, attribute_entry, price_entry, special_entry, last_value_entry,
        dict_set.
      destruct (decide (key ∈ valid_attribute_keys)).
      + destruct (filter _ (getlist key q)); simpl; [done|]. by rewrite <- !app_assoc.
      + destruct (price_key key).
        * destruct (get key q) as [value|]; [|done].
          destruct (nonblank value); simpl; [|done]. by rewrite <- !app_assoc.
        * destruct (special_key key); [|done].
          destruct (get key q) as [value|]; [|done].
          destruct (nonblank value); simpl; [|done]. by rewrite <- !app_assoc. }
  by rewrite Hloop.
Qed.

Lemma keys_NoDup (q : QueryDict) : NoDup (keys q).
Proof.
  induction q as [|[k v] q IH]; simpl; [constructor|].
  apply NoDup_cons. split; [|by apply NoDup_filter].
  rewrite list_elem_of_filter. by intros [Hne _].
Qed.

Lemma elem_of_keys (q : QueryDict) (key : string) :
  key ∈ keys q ↔ ∃ value, (key, value) ∈ q.
Proof.
  induction q as [|[k v] q IH]; simpl.
  - split; [intros Hin; by apply elem_of_nil in Hin|].
    intros [value Hin]. by apply elem_of_nil in Hin.
  - rewrite elem_of_cons, list_elem_of_filter, IH. split.
    + intros [->|[_ [value Hin]]]; [exists v; left|exists value; by right].
    + intros [value Hin]. apply elem_of_cons in Hin as [[= -> ->]|Hin]; [by left|].
      destruct (decide (key = k)); [by left|]. right. split; [done|by exists value].
Qed.

Lemma omap_keys_NoDup {V} (g : string → option (string * V)) (ks : list string) :
  (∀ key entry, g key = Some entry → entry.1 = key) →
  NoDup ks → NoDup (omap g ks).*1.
Proof.
  intros Hg. induction 1 as [|key ks Hkey Hnd IH]; simpl; [constructor|].
  destruct (g key) as [entry|] eqn:Hentry; [|done].
  rewrite fmap_cons. apply NoDup_cons. split; [|done].
  rewrite (Hg key entry Hentry). intros Hin.
  apply list_elem_of_fmap in Hin as (entry' & Hk & Hin).
  apply list_elem_of_omap in Hin as (key' & Hin & Hentry').
  apply Hg in Hentry'. congruence.
Qed.

(** X18: how the views sort the query into filters.  A key becomes an
    attribute filter exactly when it is a valid attribute key and has a
    value that is not blank; its values are then all its values that are
    not blank, in the order sent.  A key that is no attribute key becomes a
    price filter exactly when it passes the price test and its last value
    is not blank, and the filter holds that last value.  No key occurs
    twice in a dictionary. *)
Theorem collect_filters_entries (valid_attribute_keys : gset string)
    (price_key special_key : string → bool) (q : QueryDict) :
  let f := collect_filters valid_attribute_keys price_key special_key q in
  (∀ key values,
     (key, values) ∈ multi_value_filters f
     ↔ key ∈ keys q ∧ key ∈ valid_attribute_keys
       ∧ values = filter (λ v, nonblank v = true) (getlist key q) ∧ values ≠ [])
  ∧ (∀ key value,
       (key, value) ∈ price_filters f
       ↔ key ∈ keys q ∧ (key ∉ valid_attribute_keys) ∧ price_key key = true
         ∧ get key q = Some value ∧ nonblank value = true)
  ∧ NoDup (multi_value_filters f).*1 ∧ NoDup (price_filters f).*1
  ∧ NoDup (special_filters f).*1.
Proof.
  intros f. unfold f. rewrite collect_filters_eq. simpl.
  split; [|split; [|split; [|split]]].
  - intros key values. rewrite list_elem_of_omap. unfold attribute_entry. split.
    + intros (key' & Hkey & Hentry). case_decide; [|done].
      destruct (filter _ (getlist key' q)) as [|v vs] eqn:Hvalues; [done|].
      by injection Hentry as <- <-.
    + intros (Hkey & Hvalid & -> & Hne). exists key. split; [done|].
      rewrite decide_True by done. by destruct (filter _ (getlist key q)).
  - intros key value. rewrite list_elem_of_omap. unfold price_entry, last_value_entry.
    split.
    + intros (key' & Hkey & Hentry). case_decide; [done|].
      destruct (price_key key') eqn:Hprice; [|done].
      destruct (get key' q) as [value'|] eqn:Hget; [|done].
      destruct (nonblank value') eqn:Hblank; [|done].
      by injection Hentry as <- <-.
    + intros (Hkey & Hvalid & Hprice & Hget & Hblank). exists key. split; [done|].
      by rewrite decide_False, Hprice, Hget, Hblank.
  - apply omap_keys_NoDup; [|apply keys_NoDup].
    intros key entry. unfold attribute_entry. case_decide; [|done].
    destruct (filter _ _); [done|]. by intros [= <-].
  - apply omap_keys_NoDup; [|apply keys_NoDup].
    intros key entry. unfold price_entry, last_value_entry. case_decide; [done|].
    destruct (price_key key); [|done]. destruct (get key q) as [v|]; [|done].
    destruct (nonblank v); [|done]. by intros [= <-].
  - apply omap_keys_NoDup; [|apply keys_NoDup].
    intros key entry. unfold special_entry, last_value_entry. case_decide; [done|].
    destruct (price_key key); [done|]. destruct (special_key key); [|done].
    destruct (get key q) as [v|]; [|done].
    destruct (nonblank v); [|done]. by intros [= <-].
Qed.

(** ** The price loop and the attribute loop *)

Lemma for_each_app {A B} (body : B → A → outcome B) (l1 l2 : list A) (acc : B) :
  for_each body acc (l1 ++ l2) = (acc' ← for_each body acc l1; for_each body acc' l2).
Proof.
  revert acc. induction l1 as [|x l1 IH]; intros acc; simpl; [done|].
  destruct (body acc x) as [acc'|e]; simpl; [apply IH|done].
Qed.

Lemma apply_price_filters_skip `{Platform} (before after : dict string)
    (key value : string) (rows : list Product) :
  float_of_str value = None →
  apply_price_filters (before ++ (key, value) :: after) rows
  = apply_price_filters (before ++ after) rows.
Proof.
  intros Hfloat. unfold apply_price_filters. rewrite !for_each_app.
  destruct (for_each _ rows before) as [rows'|e]; simpl; [|done].
  by rewrite Hfloat.
Qed.

(** X19: a price parameter whose value [float()] rejects is skipped, in
    both filter views: the products are those of the same filters without
    that entry, whatever its key is. *)
Theorem price_value_not_a_number_skipped `{Platform} (db : DB) (category : Category)
    (f : Filters) (before after : dict string) (key value : string) :
  price_filters f = before ++ (key, value) :: after →
  float_of_str value = None →
  products_filter_queryset db f
  = products_filter_queryset db (with_price_filters (before ++ after) f)
  ∧ category_filter_queryset db category f
    = category_filter_queryset db category (with_price_filters (before ++ after) f).
Proof.
  intros Hprice Hfloat.
  unfold products_filter_queryset, category_filter_queryset, products_filter_base,
    category_filter_base.
  simpl. rewrite Hprice. by rewrite !apply_price_filters_skip.
Qed.

Lemma price_value_not_a_number_skipped_witness :
  @products_filter_queryset sample_platform inactive_db bad_price_filters
  = @products_filter_queryset sample_platform inactive_db
      (with_price_filters [] bad_price_filters)
  ∧ @category_filter_queryset sample_platform inactive_db (mk_category 1 None "auto")
      bad_price_filters
    = @category_filter_queryset sample_platform inactive_db (mk_category 1 None "auto")
        (with_price_filters [] bad_price_filters).
Proof.
  apply (@price_value_not_a_number_skipped sample_platform inactive_db
           (mk_category 1 None "auto") bad_price_filters [] []
           "price_toman__gte" "abc"); reflexivity.
Defined.

Lemma filter_filter_comm {A} (P Q : A → Prop) `{∀ x, Decision (P x)}
    `{∀ x, Decision (Q x)} (l : list A) :
  filter P (filter Q l) = filter Q (filter P l).
Proof.
  rewrite !list_filter_filter. apply list_filter_iff. intros x. tauto.
Qed.

Lemma apply_attribute_filters_permutation (db : DB) (scope : Product → Prop)
    `{∀ p, Decision (scope p)} (filters filters' : dict (list string))
    (rows : list Product) :
  filters ≡ₚ filters' →
  apply_attribute_filters db scope filters rows
  = apply_attribute_filters db scope filters' rows.
Proof.
  unfold apply_attribute_filters. intros Hperm. revert rows.
  induction Hperm as [|[key V] l l' _ IH|[key V] [key' V'] l|l l' l'' _ IH1 _ IH2];
    intros rows; simpl.
  - done.
  - apply IH.
  - f_equal. apply filter_filter_comm.
  - by rewrite IH1.
Qed.

Lemma apply_price_filters_permutation `{Platform} (filters filters' : dict string)
    (rows : list Product) :
  filters ≡ₚ filters' →
  apply_price_filters filters rows = apply_price_filters filters' rows.
Proof.
  unfold apply_price_filters. intros Hperm. revert rows.
  induction Hperm as [|[key v] l l' _ IH|[key v] [key' v'] l|l l' l'' _ IH1 _ IH2];
    intros rows; simpl.
  - done.
  - destruct (float_of_str v) as [x|]; simpl; [|apply IH].
    destruct (filter_lookup key x); simpl; [apply IH|done].
  - destruct (float_of_str v) as [x|], (float_of_str v') as [x'|]; simpl; try done.
    destruct (filter_lookup key x) as [cond|], (filter_lookup key' x') as [cond'|];
      simpl; try done.
    by rewrite filter_filter_comm.
  - by rewrite IH1.
Qed.

(** X20: the order of the entries in the attribute dictionary and in the
    price dictionary, which is the order of the keys in the URL, has no
    effect on the products of either filter view, nor on whether the price
    loop raises. *)
Theorem filter_order_irrelevant `{Platform} (db : DB) (category : Category)
    (f f' : Filters) :
  multi_value_filters f ≡ₚ multi_value_filters f' →
  price_filters f ≡ₚ price_filters f' →
  special_filters f = special_filters f' →
  products_filter_queryset db f = products_filter_queryset db f'
  ∧ category_filter_queryset db category f = category_filter_queryset db category f'.
Proof.
  intros Hattr Hprice Hspecial.
  unfold products_filter_queryset, category_filter_queryset, products_filter_base,
    category_filter_base.
  rewrite Hspecial.
  split.
  - rewrite (apply_price_filters_permutation _ _ _ Hprice).
    destruct (apply_price_filters _ _) as [rows|e]; simpl; [|done].
    by rewrite (apply_attribute_filters_permutation _ _ _ _ _ Hattr).
  - rewrite (apply_price_filters_permutation _ _ _ Hprice).
    destruct (apply_price_filters _ _) as [rows|e]; simpl; [|done].
    by rewrite (apply_attribute_filters_permutation _ _ _ _ _ Hattr).
Qed.

Lemma filter_order_irrelevant_witness :
  @products_filter_queryset sample_platform facet_db brand_then_color
  = @products_filter_queryset sample_platform facet_db color_then_brand
  ∧ @category_filter_queryset sample_platform facet_db (mk_category 1 None "auto")
      brand_then_color
    = @category_filter_queryset sample_platform facet_db (mk_category 1 None "auto")
        color_then_brand.
Proof.
  apply (@filter_order_irrelevant sample_platform facet_db (mk_category 1 None "auto")
           brand_then_color color_then_brand).
  - apply Permutation_swap.
  - apply Permutation_swap.
  - reflexivity.
Defined.

(** ** The special filters of [ProductsFilterView] *)

Lemma elem_of_apply_price_filters `{Platform} (filters : dict string)
    (rows result : list Product) (p : Product) :
  apply_price_filters filters rows = Return result → p ∈ result → p ∈ rows.
Proof.
  intros Hrun Hin. pose proof (apply_price_filters_spec filters rows) as Hspec.
  rewrite Hrun in Hspec. by eapply elem_of_sublist.
Qed.

(** X21: unless [is_active] is sent with one of the words for false, every
    product the general filter view returns is an active product; it lies
    in the category a numeric [category] parameter names, matches the search
    text when [q] or [search] is sent, and has the [is_new_arrival] flag a
    recognised [is_new_arrival] word asks for. *)
Theorem general_view_scope `{Platform} (db : DB) (f : Filters) (result : list Product) :
  (∀ is_active, truthy (dict_get "is_active" (special_filters f)) = Some is_active →
                lower is_active ∉ false_words) →
  products_filter_queryset db f = Return result →
  ∀ p, p ∈ result →
    p ∈ products db ∧ prod_is_active p = true
    ∧ (∀ v c, dict_get "category" (special_filters f) = Some v → int_of_str v = Some c →
              prod_category p = c)
    ∧ (∀ search_query,
         truthy (py_or (dict_get "q" (special_filters f))
                       (dict_get "search" (special_filters f))) = Some search_query →
         search_match search_query p = true)
    ∧ (∀ word, truthy (dict_get "is_new_arrival" (special_filters f)) = Some word →
         (lower word ∈ true_words → prod_is_new_arrival p = true)
         ∧ (lower word ∈ false_words → prod_is_new_arrival p = false)).
Proof.
  intros Hactive Hrun p Hin.
  unfold products_filter_queryset in Hrun.
  destruct (products_filter_base db f) as [base|e] eqn:Hbase; [|done].
  simpl in Hrun. injection Hrun as <-.
  apply elem_of_ordered_distinct, elem_of_apply_attribute_filters in Hin as [Hin _].
  unfold products_filter_base in Hbase.
  apply (elem_of_apply_price_filters _ _ _ p) in Hbase; [|done]. clear Hin.
  assert (Hthree : p ∈
    match truthy (dict_get "is_new_arrival" (special_filters f)) with
    | Some is_new_arrival =>
        if decide (lower is_new_arrival ∈ true_words)
        then filter (λ p, prod_is_new_arrival p = true)
               match truthy (py_or (dict_get "q" (special_filters f))
                                   (dict_get "search" (special_filters f))) with
               | Some search_query =>
                   filter (λ p, search_match search_query p = true)
                     (filter_category (special_filters f)
                        (filter (λ p, prod_is_active p = true) (products db)))
               | None => filter_category (special_filters f)
                           (filter (λ p, prod_is_active p = true) (products db))
               end
        else if decide (lower is_new_arrival ∈ false_words)
        then filter (λ p, prod_is_new_arrival p = false)
               match truthy (py_or (dict_get "q" (special_filters f))
                                   (dict_get "search" (special_filters f))) with
               | Some search_query =>
                   filter (λ p, search_match search_query p = true)
                     (filter_category (special_filters f)
                        (filter (λ p, prod_is_active p = true) (products db)))
               | None => filter_category (special_filters f)
                           (filter (λ p, prod_is_active p = true) (products db))
               end
        else match truthy (py_or (dict_get "q" (special_filters f))
                                 (dict_get "search" (special_filters f))) with
             | Some search_query =>
                 filter (λ p, search_match search_query p = true)
                   (filter_category (special_filters f)
                      (filter (λ p, prod_is_active p = true) (products db)))
             | None => filter_category (special_filters f)
                         (filter (λ p, prod_is_active p = true) (products db))
             end
    | None => match truthy (py_or (dict_get "q" (special_filters f))
                                  (dict_get "search" (special_filters f))) with
              | Some search_query =>
                  filter (λ p, search_match search_query p = true)
                    (filter_category (special_filters f)
                       (filter (λ p, prod_is_active p = true) (products db)))
              | None => filter_category (special_filters f)
                          (filter (λ p, prod_is_active p = true) (products db))
              end
    end).
  { destruct (truthy (dict_get "is_active" (special_filters f))) as [is_active|]
      eqn:His_active; [|done].
    by rewrite decide_False in Hbase by by apply Hactive. }
  clear Hbase.
  set (products2 :=
    match truthy (py_or (dict_get "q" (special_filters f))
                        (dict_get "search" (special_filters f))) with
    | Some search_query =>
        filter (λ p, search_match search_query p = true)
          (filter_category (special_filters f)
             (filter (λ p, prod_is_active p = true) (products db)))
    | None => filter_category (special_filters f)
                (filter (λ p, prod_is_active p = true) (products db))
    end) in Hthree.
  assert (Htwo : p ∈ products2
    ∧ ∀ word, truthy (dict_get "is_new_arrival" (special_filters f)) = Some word →
        (lower word ∈ true_words → prod_is_new_arrival p = true)
        ∧ (lower word ∈ false_words → prod_is_new_arrival p = false)).
  { destruct (truthy (dict_get "is_new_arrival" (special_filters f))) as [word|];
      [|by split].
    destruct (decide (lower word ∈ true_words)) as [Htrue|Htrue].
    - apply list_elem_of_filter in Hthree as [Hnew Hin]. split; [done|].
      intros ? [= <-]. split; [done|]. intros Hfalse. exfalso.
      unfold true_words, false_words in Htrue, Hfalse.
      rewrite !elem_of_cons in Htrue, Hfalse. rewrite elem_of_nil in Htrue, Hfalse.
      destruct Htrue as [Ht|[Ht|[Ht|[]]]]; rewrite Ht in Hfalse;
        by destruct Hfalse as [?|[?|[?|[]]]].
    - destruct (decide (lower word ∈ false_words)) as [Hfalse|Hfalse].
      + apply list_elem_of_filter in Hthree as [Hnew Hin]. split; [done|].
        by intros ? [= <-].
      + split; [done|]. by intros ? [= <-]. }
  clear Hthree. destruct Htwo as [Htwo Hnew]. unfold products2 in Htwo. clear products2.
  assert (Hone : p ∈ filter_category (special_filters f)
                       (filter (λ p, prod_is_active p = true) (products db))
    ∧ ∀ search_query,
        truthy (py_or (dict_get "q" (special_filters f))
                      (dict_get "search" (special_filters f))) = Some search_query →
        search_match search_query p = true).
  { destruct (truthy (py_or _ _)) as [search_query|]; [|by split].
    apply list_elem_of_filter in Htwo as [Hmatch Hin]. split; [done|].
    by intros ? [= <-]. }
  destruct Hone as [Hone Hsearch].
  apply elem_of_filter_category in Hone as [Hin Hcategory].
  apply list_elem_of_filter in Hin as [Hact Hin].
  done.
Qed.

Lemma general_view_scope_witness :
  mk_product 1 1 1 true ∈ products inactive_db
  ∧ prod_is_active (mk_product 1 1 1 true) = true
  ∧ (∀ v c, dict_get "category" (special_filters old_in_category_one) = Some v →
            @int_of_str sample_platform v = Some c →
            prod_category (mk_product 1 1 1 true) = c)
  ∧ (∀ search_query,
       truthy (py_or (dict_get "q" (special_filters old_in_category_one))
                     (dict_get "search" (special_filters old_in_category_one)))
       = Some search_query →
       @search_match sample_platform search_query (mk_product 1 1 1 true) = true)
  ∧ (∀ word, truthy (dict_get "is_new_arrival" (special_filters old_in_category_one))
             = Some word →
       (lower word ∈ true_words → prod_is_new_arrival (mk_product 1 1 1 true) = true)
       ∧ (lower word ∈ false_words →
          prod_is_new_arrival (mk_product 1 1 1 true) = false)).
Proof.
  apply (@general_view_scope sample_platform inactive_db old_in_category_one
           [mk_product 1 1 1 true]).
  - intros is_active His_active. discriminate His_active.
  - reflexivity.
  - apply list_elem_of_singleton. reflexivity.
Defined.

(** X22: [q] takes precedence over [search] in the general filter view:
    when [q] is sent with a value that is not empty, the value of [search]
    has no effect on the products. *)
Theorem q_overrides_search `{Platform} (db : DB) (f f' : Filters) (q : string) :
  truthy (dict_get "q" (special_filters f)) = Some q →
  multi_value_filters f' = multi_value_filters f →
  price_filters f' = price_filters f →
  (∀ key, key ≠ "search" →
          dict_get key (special_filters f') = dict_get key (special_filters f)) →
  products_filter_queryset db f' = products_filter_queryset db f.
Proof.
  intros Hq Hattr Hprice Hspecial.
  unfold products_filter_queryset, products_filter_base.
  rewrite Hattr, Hprice.
  rewrite (Hspecial "q"), (Hspecial "is_new_arrival"), (Hspecial "is_active") by done.
  rewrite !(filter_category_same (special_filters f) (special_filters f'))
    by by apply Hspecial.
  assert (Hor : ∀ search,
    py_or (dict_get "q" (special_filters f)) search = dict_get "q" (special_filters f)).
  { intros search. destruct (dict_get "q" (special_filters f)) as [[|a s']|]; done. }
  by rewrite !Hor.
Qed.

Lemma q_overrides_search_witness :
  @products_filter_queryset sample_platform inactive_db q_and_other_search
  = @products_filter_queryset sample_platform inactive_db q_and_search.
Proof.
  apply (@q_overrides_search sample_platform inactive_db q_and_search
           q_and_other_search "shirt"); try reflexivity.
  intros key Hkey. simpl.
  destruct (decide ("q" = key)); [done|].
  by rewrite !decide_False by done.
Defined.

(** ** [CategoryProductFilterView] *)

(** X23: the category filter view never leaves the category of the URL:
    whatever the filters are, every product it returns is one of the active
    products placed directly in that category.  For a category whose
    products all sit in subcategories the result is empty. *)
Theorem category_view_direct_products_only `{Platform} (db : DB) (category : Category)
    (f : Filters) (result : list Product) :
  category_filter_queryset db category f = Return result →
  (∀ p, p ∈ result → p ∈ direct_products db category)
  ∧ (direct_products db category = [] → result = []).
Proof.
  intros Hrun.
  assert (Hsub : ∀ p, p ∈ result → p ∈ direct_products db category).
  { intros p Hin. unfold category_filter_queryset in Hrun.
    destruct (category_filter_base db category f) as [base|e] eqn:Hbase; [|done].
    simpl in Hrun. injection Hrun as <-.
    apply elem_of_ordered_distinct, elem_of_apply_attribute_filters in Hin as [Hin _].
    unfold category_filter_base in Hbase.
    by apply (elem_of_apply_price_filters _ _ _ p) in Hbase. }
  split; [done|].
  intros Hnone. destruct result as [|p result]; [done|].
  specialize (Hsub p). rewrite Hnone in Hsub.
  exfalso. eapply not_elem_of_nil, Hsub. left.
Qed.

Lemma category_view_direct_products_only_witness :
  (∀ p, p ∈ [] → p ∈ direct_products tree_db (mk_category 1 None "auto"))
  ∧ (direct_products tree_db (mk_category 1 None "auto") = [] → @nil Product = []).
Proof.
  apply (@category_view_direct_products_only sample_platform tree_db
           (mk_category 1 None "auto") no_filters []).
  reflexivity.
Defined.

(** X24: in the category filter view a query that holds nothing but the
    paging parameters counts as a query without valid filters: when neither
    [page] nor [per_page] is an attribute key of the category, the answer is
    the empty page, not a page of the category's products. *)
Theorem category_view_paging_alone_is_empty `{Platform} (db : DB)
    (query_params : QueryDict) (category_id : Z) (category : Category) :
  objects_get MCategory (λ c, cat_id c = category_id) (categories db) = Return category →
  query_params ≠ [] →
  (∀ key, key ∈ keys query_params → key = "page" ∨ key = "per_page") →
  "page" ∉ category_attribute_keys db (cat_id category) →
  "per_page" ∉ category_attribute_keys db (cat_id category) →
  CategoryProductFilterView_get db query_params category_id = Return empty_response.
Proof.
  intros Hget Hne Hkeys Hpage Hper_page.
  apply (category_view_unrecognized_is_empty db query_params category_id category);
    [done..|].
  intros key Hkey. unfold category_price_keys.
  destruct (Hkeys key Hkey) as [->| ->]; (split; [done|]);
    rewrite !elem_of_cons, elem_of_nil; intros Hin;
    repeat (destruct Hin as [Hin|Hin]; [discriminate Hin|]); done.
Qed.

Lemma category_view_paging_alone_is_empty_witness :
  @CategoryProductFilterView_get sample_platform tree_db [("page", "1")] 2
  = Return empty_response.
Proof.
  apply (@category_view_paging_alone_is_empty sample_platform tree_db [("page", "1")] 2
           (mk_category 2 (Some 1) "auto")).
  - reflexivity.
  - discriminate.
  - intros key Hkey. left. simpl in Hkey. by apply list_elem_of_singleton in Hkey.
  - unfold category_attribute_keys. simpl. apply not_elem_of_empty.
  - unfold category_attribute_keys. simpl. apply not_elem_of_empty.
Defined.

(** ** Keys the general view does not know *)

Lemma keys_without (key : string) (q : list (string * string)) :
  keys (filter (λ kv, kv.1 ≠ key) q) = filter (λ k, k ≠ key) (keys q).
Proof.
  induction q as [|[k v] q IH]; [done|].
  rewrite filter_cons. simpl.
  destruct (decide (k ≠ key)) as [Hne|Heq].
  - simpl. rewrite filter_cons, decide_True by done. f_equal.
    rewrite IH. apply filter_filter_comm.
  - apply dec_stable in Heq as ->. rewrite filter_cons, decide_False by (by intros ?).
    rewrite IH. rewrite list_filter_filter. apply list_filter_iff. intros k. tauto.
Qed.

Lemma getlist_without (key key' : string) (q : list (string * string)) :
  key' ≠ key → getlist key' (filter (λ kv, kv.1 ≠ key) q) = getlist key' q.
Proof.
  intros Hne. unfold getlist. f_equal.
  etrans; [apply (list_filter_filter (λ kv : string * string, kv.1 = key'))|].
  apply list_filter_iff. intros [k v]. simpl.
  split; [tauto|]. intros ->. done.
Qed.

Lemma omap_without {B} (g g' : string → option B) (key : string) (ks : list string) :
  g key = None → (∀ k, k ≠ key → g' k = g k) →
  omap g' (filter (λ k, k ≠ key) ks) = omap g ks.
Proof.
  intros Hkey Hother. induction ks as [|k ks IH]; [done|].
  rewrite filter_cons. simpl. destruct (decide (k ≠ key)) as [Hne|Heq].
  - simpl. rewrite Hother by done. destruct (g k); [f_equal|]; apply IH.
  - apply dec_stable in Heq as ->. rewrite Hkey. apply IH.
Qed.

Lemma collect_filters_without (valid_attribute_keys : gset string)
    (price_key special_key : string → bool) (q : list (string * string))
    (key : string) :
  key ∉ valid_attribute_keys → price_key key = false → special_key key = false →
  collect_filters valid_attribute_keys price_key special_key
    (filter (λ kv, kv.1 ≠ key) q)
  = collect_filters valid_attribute_keys price_key special_key q.
Proof.
  intros Hattr Hprice Hspecial. rewrite !collect_filters_eq, keys_without.
  f_equal.
  - apply omap_without.
    + unfold attribute_entry. by rewrite decide_False.
    + intros k Hne. unfold attribute_entry. by rewrite getlist_without.
  - apply omap_without.
    + unfold price_entry. by rewrite decide_False, Hprice.
    + intros k Hne. unfold price_entry, last_value_entry, get.
      by rewrite getlist_without.
  - apply omap_without.
    + unfold special_entry. by rewrite decide_False, Hprice, Hspecial.
    + intros k Hne. unfold special_entry, last_value_entry, get.
      by rewrite getlist_without.
Qed.

(** X25: the general filter view ignores a key it does not know, also
    among keys it knows: when the key is no attribute key of an active
    product, no price key and no special key, the whole response is that of
    the query without the key. *)
Theorem general_view_drops_unknown_key `{Platform} (db : DB) (query_params : QueryDict)
    (key : string) :
  key ∉ all_attribute_keys db →
  general_price_key key = false →
  key ∉ special_keys →
  ProductsFilterView_get db query_params
  = ProductsFilterView_get db (filter (λ kv, kv.1 ≠ key) query_params).
Proof.
  intros Hattr Hprice Hspecial.
  unfold ProductsFilterView_get, ProductsFilterView_filters.
  rewrite collect_filters_without by (by try apply bool_decide_eq_false).
  destruct (products_filter_queryset db _) as [rows|e]; simpl; [|done].
  assert (Hpage : paginate_queryset rows (filter (λ kv, kv.1 ≠ key) query_params)
                  = paginate_queryset rows query_params).
  { unfold paginate_queryset, get_page_size, page_size_query_param, get.
    rewrite !getlist_without; [done|..]; intros <-; apply Hspecial;
      unfold special_keys; rewrite !elem_of_cons; tauto. }
  by rewrite Hpage.
Qed.

Lemma general_view_drops_unknown_key_witness :
  @ProductsFilterView_get sample_platform facet_db
    [("brand", "Nike"); ("foo", "bar"); ("page", "1")]
  = @ProductsFilterView_get sample_platform facet_db
      (filter (λ kv, kv.1 ≠ "foo") [("brand", "Nike"); ("foo", "bar"); ("page", "1")]).
Proof.
  apply (@general_view_drops_unknown_key sample_platform facet_db
           [("brand", "Nike"); ("foo", "bar"); ("page", "1")] "foo").
  - by apply (bool_decide_unpack _); vm_compute.
  - reflexivity.
  - by apply (bool_decide_unpack _); vm_compute.
Defined.

(** ** The page of a filter view *)

Lemma page_returns (self : Paginator) (n : Z) (pg : Page) :
  1 ≤ per_page self →
  page self n = Return pg →
  number pg = n ∧ paginator pg = self
  ∧ 1 ≤ n ≤ - ((- Z.max 1 (count self)) `div` per_page self)
  ∧ page_object_list pg
    = take (Z.to_nat (per_page self)) (drop (Z.to_nat ((n - 1) * per_page self))
                                            (object_list self)).
Proof.
  intros Hper. unfold page, validate_number, num_pages.
  destruct (decide (n < 1)); [done|].
  rewrite decide_False by lia. simpl.
  destruct (decide (n > _)); [done|]. simpl.
  intros [= <-]. simpl. split; [done|]. split; [done|]. split; [lia|].
  unfold slice, count. case_decide as Htop.
  - rewrite !take_ge; [done|rewrite length_drop; lia..].
  - f_equal. lia.
Qed.

Lemma paginate_queryset_returns `{Platform} (queryset : list Product)
    (query_params : QueryDict) (pg : Page) :
  paginate_queryset queryset query_params = Return pg →
  ∃ n, page {| object_list := queryset; per_page := get_page_size query_params |} n
       = Return pg.
Proof.
  unfold paginate_queryset.
  set (pager := {| object_list := queryset; per_page := get_page_size query_params |}).
  destruct (get "page" query_params) as [s|].
  - destruct s as [|a s'].
    + destruct (page pager 1) as [pg'|[]] eqn:Hpage; try done.
      intros [= <-]. by exists 1.
    + destruct (decide (String a s' = "last")) as [Hlast|Hlast].
      * destruct (num_pages pager) as [n|err] eqn:Hn; simpl.
        -- destruct (page pager n) as [pg'|[]] eqn:Hpage; try done.
           intros [= <-]. by exists n.
        -- by destruct err.
      * destruct (int_of_str (String a s')) as [n|]; [|done].
        destruct (page pager n) as [pg'|[]] eqn:Hpage; try done.
        intros [= <-]. by exists n.
  - destruct (page pager 1) as [pg'|[]] eqn:Hpage; try done.
    intros [= <-]. by exists 1.
Qed.

(** X26: the page both filter views answer with.  The page number lies
    between 1 and the number of pages, the total is the number of products
    the filters selected, and the products are the slice of that page; there
    are never more than 100 of them, a page that has a successor is full,
    and the page is empty only when the filters selected nothing. *)
Theorem filter_view_page_shape `{Platform} (queryset : list Product)
    (query_params : QueryDict) (pg : Page) (page_products : list Product)
    (pagination : Pagination) :
  paginate_queryset queryset query_params = Return pg →
  paginated_response pg = Return (Response200 page_products pagination) →
  let size := get_page_size query_params in
  1 ≤ current_page pagination ≤ total_pages pagination
  ∧ total_items pagination = Z.of_nat (length queryset)
  ∧ page_products
    = take (Z.to_nat size) (drop (Z.to_nat ((current_page pagination - 1) * size)) queryset)
  ∧ Z.of_nat (length page_products) ≤ size ≤ 100
  ∧ (has_next pagination = true → Z.of_nat (length page_products) = size)
  ∧ has_previous pagination = bool_decide (1 < current_page pagination)
  ∧ (page_products = [] → queryset = []).
Proof.
  intros Hpage Hresponse size.
  pose proof (get_page_size_bounds query_params) as Hsize. fold size in Hsize.
  apply paginate_queryset_returns in Hpage as [n Hpage]. fold size in Hpage.
  apply page_returns in Hpage as (Hnumber & Hpager & Hn & Hlist); [|simpl; lia].
  simpl in Hn, Hlist. unfold count in Hn. simpl in Hn.
  unfold paginated_response, page_has_next, page_has_previous, num_pages in Hresponse.
  rewrite Hpager, Hnumber in Hresponse. simpl in Hresponse.
  rewrite decide_False in Hresponse by lia. simpl in Hresponse.
  injection Hresponse as <- <-. simpl. unfold count. simpl.
  set (hits := Z.max 1 (Z.of_nat (length queryset))) in *.
  pose proof (Z.div_mod (- hits) size ltac:(lia)) as Hdiv.
  pose proof (Z.mod_pos_bound (- hits) size ltac:(lia)) as Hmod.
  assert (Hbottom : (n - 1) * size < hits) by nia.
  split; [lia|]. split; [done|]. split; [done|].
  rewrite Hlist, length_take, length_drop.
  split; [lia|]. split; [|split].
  - intros Hnext. apply bool_decide_eq_true in Hnext.
    assert (n * size < hits) by nia. nia.
  - apply bool_decide_ext. lia.
  - intros Hnil. destruct queryset as [|p queryset]; [done|]. exfalso.
    apply (f_equal length) in Hnil. rewrite length_take, length_drop in Hnil.
    simpl in Hnil. unfold hits in Hbottom. simpl in Hbottom. lia.
Qed.

Lemma filter_view_page_shape_witness :
  1 ≤ current_page second_of_two ≤ total_pages second_of_two
  ∧ total_items second_of_two = Z.of_nat (length two_pages)
  ∧ drop 20 two_pages
    = take (Z.to_nat (@get_page_size sample_platform [("page", "2")]))
        (drop (Z.to_nat ((current_page second_of_two - 1)
                         * @get_page_size sample_platform [("page", "2")])) two_pages)
  ∧ Z.of_nat (length (drop 20 two_pages)) ≤ @get_page_size sample_platform [("page", "2")]
    ≤ 100
  ∧ (has_next second_of_two = true →
     Z.of_nat (length (drop 20 two_pages))
     = @get_page_size sample_platform [("page", "2")])
  ∧ has_previous second_of_two = bool_decide (1 < current_page second_of_two)
  ∧ (drop 20 two_pages = [] → two_pages = []).
Proof.
  apply (@filter_view_page_shape sample_platform two_pages [("page", "2")]
           {| page_object_list := drop 20 two_pages; number := 2;
              paginator := {| object_list := two_pages; per_page := 20 |} |}
           (drop 20 two_pages) second_of_two); reflexivity.
Defined.

(** ** [api_products_by_gender_category] *)

Lemma products_data_products (db : DB) (page_products : list Product)
    (acc products_data : list (Product * option string)) :
  for_each (λ products_data product,
              product_gender ← get_product_gender db product;
              Return (products_data ++ [(product, product_gender)]))
           acc page_products = Return products_data →
  products_data.*1 = acc.*1 ++ page_products.
Proof.
  revert acc. induction page_products as [|p l IH]; intros acc; simpl.
  - intros [= <-]. by rewrite app_nil_r.
  - destruct (get_product_gender db p) as [g|err]; simpl; [|done].
    intros Hrun. apply IH in Hrun. rewrite Hrun, fmap_app. simpl.
    by rewrite <- app_assoc.
Qed.

(** X27: [api_products_by_gender_category] answers a page number outside
    the pages of the result with the products of the last page, while the
    [page] it reports is the number that was asked for. *)
Theorem gender_view_page_out_of_range `{Platform} (depth : nat) (db : DB)
    (GET : QueryDict) (sp : string) (page_number limit : Z) (rows : list Product)
    (products_data : list (Product * option string)) (pagination : Pagination) :
  get "page" GET = Some sp → int_of_str sp = Some page_number →
  match get "limit" GET with
  | Some sl => int_of_str sl = Some limit
  | None => limit = 20
  end →
  1 ≤ limit →
  gender_category_queryset depth db (get "category" GET) (get "gender" GET)
    (default "" (get "search" GET)) = Return rows →
  let total := - ((- Z.max 1 (Z.of_nat (length rows))) `div` limit) in
  page_number < 1 ∨ total < page_number →
  api_products_by_gender_category depth db GET
  = GenderResponse200 products_data pagination →
  products_data.*1 = drop (Z.to_nat ((total - 1) * limit)) rows
  ∧ current_page pagination = page_number
  ∧ total_pages pagination = total
  ∧ has_next pagination = false.
Proof.
  intros Hpage Hint Hlimit Hpos Hrows total Hout Hview.
  unfold api_products_by_gender_category in Hview.
  rewrite Hpage, Hint in Hview. simpl in Hview.
  assert (Hlim : match get "limit" GET with
                 | Some s => from_option Return (Raise ValueError) (int_of_str s)
                 | None => Return 20
                 end = Return limit).
  { destruct (get "limit" GET) as [sl|]; [by rewrite Hlimit|by subst]. }
  rewrite Hlim in Hview. simpl in Hview. rewrite Hrows in Hview. simpl in Hview.
  set (pager := {| object_list := rows; per_page := limit |}) in *.
  assert (Htotal : num_pages pager = Return total).
  { unfold num_pages. simpl. by rewrite decide_False by lia. }
  assert (Hget : get_page pager page_number = page pager total).
  { unfold get_page, validate_number. rewrite Htotal. simpl.
    destruct (decide (page_number < 1)); [done|].
    by rewrite decide_True by lia. }
  rewrite Hget in Hview.
  destruct (page pager total) as [page_obj|err] eqn:Hlast; [|done].
  simpl in Hview.
  apply page_returns in Hlast as (Hnumber & Hpager & Hn & Hlist); [|done].
  destruct (for_each _ [] (page_object_list page_obj)) as [data|err] eqn:Hdata; [|done].
  simpl in Hview. rewrite Htotal in Hview. simpl in Hview.
  unfold page_has_next in Hview. rewrite Hpager, Htotal, Hnumber in Hview.
  simpl in Hview. injection Hview as <- <-. simpl.
  split; [|split; [done|split; [done|]]].
  - apply products_data_products in Hdata. rewrite Hdata, Hlist. simpl.
    apply take_ge. rewrite length_drop.
    unfold total.
    pose proof (Z.div_mod (- Z.max 1 (Z.of_nat (length rows))) limit ltac:(lia)) as Hdiv.
    pose proof (Z.mod_pos_bound (- Z.max 1 (Z.of_nat (length rows))) limit ltac:(lia))
      as Hmod.
    nia.
  - apply bool_decide_eq_false. lia.
Qed.

Lemma gender_view_page_out_of_range_witness :
  [(mk_product 10 2 0 true, @None string)].*1
  = drop (Z.to_nat ((- ((- Z.max 1 (Z.of_nat (length [mk_product 10 2 0 true])))
                        `div` 20) - 1) * 20))
         [mk_product 10 2 0 true]
  ∧ current_page {| current_page := 7; total_pages := 1; total_items := 1;
                    has_next := false; has_previous := false |} = 7
  ∧ total_pages {| current_page := 7; total_pages := 1; total_items := 1;
                   has_next := false; has_previous := false |}
    = - ((- Z.max 1 (Z.of_nat (length [mk_product 10 2 0 true]))) `div` 20)
  ∧ has_next {| current_page := 7; total_pages := 1; total_items := 1;
                has_next := false; has_previous := false |} = false.
Proof.
  apply (@gender_view_page_out_of_range sample_platform 5 tree_db [("page", "7")]
           "7" 7 20 [mk_product 10 2 0 true]
           [(mk_product 10 2 0 true, None)]
           {| current_page := 7; total_pages := 1; total_items := 1;
              has_next := false; has_previous := false |}).
  - reflexivity.
  - reflexivity.
  - reflexivity.
  - lia.
  - reflexivity.
  - right. vm_compute. reflexivity.
  - vm_compute. reflexivity.
Defined.

(** X28: a category name that names no category.  Without a gender the
    category parameter is dropped, and the answer holds the active products
    of every category; with a gender, and no category of the combined name,
    the answer is empty.  A gender without a category is dropped too. *)
Theorem gender_view_unknown_category `{Platform} (depth : nat) (db : DB)
    (category_name search_query : string) :
  category_name ≠ "" →
  category_named db category_name = None →
  gender_category_queryset depth db (Some category_name) None search_query
  = gender_category_queryset depth db None None search_query
  ∧ (∀ gender, gender ≠ "" →
       category_named db (category_name +:+ " " +:+ gender) = None →
       gender_category_queryset depth db (Some category_name) (Some gender) search_query
       = Return [])
  ∧ (∀ gender,
       gender_category_queryset depth db None gender search_query
       = gender_category_queryset depth db None None search_query).
Proof.
  intros Hname Hnone. unfold gender_category_queryset.
  destruct category_name as [|a name]; [done|]. simpl.
  split; [|split].
  - by rewrite Hnone.
  - intros [|b gender] Hgender Hcombined; [done|]. simpl.
    unfold filter_by_category_and_gender_attribute.
    rewrite Hcombined, Hnone. simpl.
    by destruct search_query; rewrite order_by_created_at_desc_nil.
  - done.
Qed.

Lemma gender_view_unknown_category_witness :
  @gender_category_queryset sample_platform 5 tree_db (Some "watch") None ""
  = @gender_category_queryset sample_platform 5 tree_db None None ""
  ∧ (∀ gender, gender ≠ "" →
       category_named tree_db ("watch" +:+ " " +:+ gender) = None →
       @gender_category_queryset sample_platform 5 tree_db (Some "watch") (Some gender) ""
       = Return [])
  ∧ (∀ gender,
       @gender_category_queryset sample_platform 5 tree_db None gender ""
       = @gender_category_queryset sample_platform 5 tree_db None None "").
Proof.
  apply (@gender_view_unknown_category sample_platform 5 tree_db "watch" "").
  - discriminate.
  - reflexivity.
Defined.

Lemma in_category_tree_descendants (db : DB) (rank : Z → nat) (depth : nat)
    (main_category : Category) (rows : list Product) :
  parent_ranked db rank →
  (rank (cat_id main_category) < depth)%nat →
  ∃ result,
    in_category_tree depth db main_category rows = Return result
    ∧ ∀ p, p ∈ result
           ↔ p ∈ rows
             ∧ (prod_category p = cat_id main_category
                ∨ ∃ c, descendant db main_category c ∧ prod_category p = cat_id c).
Proof.
  intros Hrank Hdepth.
  destruct (get_all_subcategories_descendants db rank depth main_category Hrank Hdepth)
    as (subs & Hsubs & Hdesc).
  unfold in_category_tree. rewrite Hsubs. simpl.
  eexists. split; [done|].
  intros p. rewrite list_elem_of_filter. simpl. rewrite elem_of_cons, list_elem_of_fmap.
  split.
  - intros [[Hmain|(c & Hc & Hin)] Hp]; (split; [done|]).
    + by left.
    + right. exists c. split; [by apply Hdesc|done].
  - intros [Hp [Hmain|(c & Hc & Hcat)]]; (split; [|done]).
    + by left.
    + right. exists c. split; [done|by apply Hdesc].
Qed.

(** X29: the gender filter by attribute.  When no category carries the
    combined name and the category tree below the named category has no
    cycle, [api_products_by_gender_category] selects exactly the active
    products of the named category and of its descendants that have a
    flexible [gender] row whose predefined value is the gender asked for,
    and that the search selects.  A gender stored as a custom value does
    not count. *)
Theorem gender_attribute_fallback `{Platform} (depth : nat) (db : DB) (rank : Z → nat)
    (category_name gender search_query : string) (main_category : Category) :
  parent_ranked db rank →
  (rank (cat_id main_category) < depth)%nat →
  category_name ≠ "" → gender ≠ "" →
  category_named db (category_name +:+ " " +:+ gender) = None →
  category_named db category_name = Some main_category →
  ∃ result,
    gender_category_queryset depth db (Some category_name) (Some gender) search_query
    = Return result
    ∧ ∀ p, p ∈ result
           ↔ p ∈ products db ∧ prod_is_active p = true
             ∧ (prod_category p = cat_id main_category
                ∨ ∃ c, descendant db main_category c ∧ prod_category p = cat_id c)
             ∧ (∃ r v, r ∈ product_attribute_values db ∧ pav_product r = prod_id p
                       ∧ attribute_key_is db "gender" r
                       ∧ v ∈ attribute_values db
                       ∧ pav_attribute_value r = Some (nav_id v)
                       ∧ nav_value v = gender)
             ∧ search_selects search_query p.
Proof.
  intros Hrank Hdepth Hname Hgender Hcombined Hmain.
  unfold gender_category_queryset.
  destruct category_name as [|a name]; [done|].
  destruct gender as [|b gender']; [done|].
  set (gender := String b gender') in *. simpl truthy. cbv iota.
  rewrite Hcombined. unfold filter_by_category_and_gender_attribute. rewrite Hmain.
  destruct (in_category_tree_descendants db rank depth main_category
              (filter (λ p, prod_is_active p = true) (products db)) Hrank Hdepth)
    as (tree & Htree & Hin_tree).
  rewrite Htree. simpl.
  eexists. split; [done|].
  intros p. rewrite order_by_created_at_desc_perm.
  assert (Hbase : p ∈ distinct (filter (λ p, new_match db "gender" (λ x, x = gender) p) tree)
    ↔ p ∈ products db ∧ prod_is_active p = true
      ∧ (prod_category p = cat_id main_category
         ∨ ∃ c, descendant db main_category c ∧ prod_category p = cat_id c)
      ∧ (∃ r v, r ∈ product_attribute_values db ∧ pav_product r = prod_id p
                ∧ attribute_key_is db "gender" r
                ∧ v ∈ attribute_values db
                ∧ pav_attribute_value r = Some (nav_id v)
                ∧ nav_value v = gender)).
  { rewrite elem_of_distinct, list_elem_of_filter, Hin_tree, list_elem_of_filter.
    unfold new_match. rewrite Exists_exists.
    split.
    - intros [(r & Hr & Hp & Hkey & Hv) [[Hactive Hrow] Hcat]].
      apply Exists_exists in Hv as (v & Hv & Hpk & Hvalue).
      split; [done|]. split; [done|]. split; [done|]. by exists r, v.
    - intros (Hrow & Hactive & Hcat & r & v & Hr & Hp & Hkey & Hv & Hpk & Hvalue).
      split; [|done]. exists r. split; [done|]. split; [done|]. split; [done|].
      apply Exists_exists. by exists v. }
  unfold search_selects.
  destruct search_query as [|c search'].
  - rewrite Hbase. split; [intros (?&?&?&?); by auto 10|intros (?&?&?&?&?); by auto].
  - rewrite list_elem_of_filter, Hbase. split.
    + intros [Hsearch (?&?&?&?)]. by auto 10.
    + intros (?&?&?&?&[Hempty|Hsearch]); [done|]. by auto.
Qed.

Lemma gender_attribute_fallback_witness :
  parent_ranked gender_db (λ pk, if decide (pk = 1) then 1%nat else 0%nat)
  ∧ ∃ result,
      @gender_category_queryset sample_platform 2 gender_db (Some "watch") (Some "men") ""
      = Return result
      ∧ ∀ p, p ∈ result
             ↔ p ∈ products gender_db ∧ prod_is_active p = true
               ∧ (prod_category p = 1
                  ∨ ∃ c, descendant gender_db
                           {| cat_id := 1; cat_name := "watch"; cat_parent := None;
                              cat_category_type := "auto" |} c
                         ∧ prod_category p = cat_id c)
               ∧ (∃ r v, r ∈ product_attribute_values gender_db
                         ∧ pav_product r = prod_id p
                         ∧ attribute_key_is gender_db "gender" r
                         ∧ v ∈ attribute_values gender_db
                         ∧ pav_attribute_value r = Some (nav_id v)
                         ∧ nav_value v = "men")
               ∧ @search_selects sample_platform "" p.
Proof.
  assert (Hrank : parent_ranked gender_db (λ pk, if decide (pk = 1) then 1%nat else 0%nat)).
  { intros c p Hc Hp. simpl in Hc.
    apply elem_of_cons in Hc as [->|Hc]; [discriminate|].
    apply elem_of_cons in Hc as [->|Hc]; [|by apply elem_of_nil in Hc].
    injection Hp as <-. simpl. lia. }
  split; [exact Hrank|].
  apply (@gender_attribute_fallback sample_platform 2 gender_db _ "watch" "men" ""
           {| cat_id := 1; cat_name := "watch"; cat_parent := None;
              cat_category_type := "auto" |} Hrank).
  - simpl. lia.
  - discriminate.
  - discriminate.
  - reflexivity.
  - reflexivity.
Defined.

(** ** [get_product_gender] *)

Lemma gender_rows_cases (db : DB) (product : Product) :
  db_unique db →
  (filter (λ r, pav_product r = prod_id product ∧ attribute_key_is db "gender" r)
          (product_attribute_values db) = []
   ∧ get_attribute_value db product "gender" = Return None)
  ∨ ∃ r, filter (λ r, pav_product r = prod_id product ∧ attribute_key_is db "gender" r)
                (product_attribute_values db) = [r]
         ∧ r ∈ product_attribute_values db
         ∧ ∀ shown, get_display_value db r = Return shown →
                    get_attribute_value db product "gender" = Return (Some shown).
Proof.
  intros Hu.
  destruct (filter_key_cases attr_key (λ a, attr_key a = "gender") "gender" (attributes db))
    as [Hnone|(a & Hone & Ha & Hkey)]; [apply Hu|done|..].
  - left. split.
    + apply filter_none. intros r Hr [_ Hgender].
      apply Exists_exists in Hgender as (a & Ha & _ & Hkey).
      by apply (filter_nil_not_elem_of _ _ a Hnone).
    + unfold get_attribute_value, objects_get. by rewrite Hnone.
  - assert (Hrows :
      filter (λ r, pav_product r = prod_id product ∧ attribute_key_is db "gender" r)
             (product_attribute_values db)
      = filter (λ r, pav_product r = prod_id product ∧ pav_attribute r = attr_id a)
               (product_attribute_values db)).
    { apply filter_iff_elem. intros r Hr. split; intros [Hp Hattr]; (split; [done|]).
      - apply Exists_exists in Hattr as (a' & Ha' & Hid & Hkey').
        rewrite <- Hid. f_equal.
        apply (unique_key_inj attr_key (attributes db)); [apply Hu|done|done|congruence].
      - apply Exists_exists. by exists a. }
    rewrite Hrows.
    destruct (filter_key_cases (λ r, (pav_product r, pav_attribute r))
                (λ r, pav_product r = prod_id product ∧ pav_attribute r = attr_id a)
                (prod_id product, attr_id a) (product_attribute_values db))
      as [Hnorow|(r & Hrow & Hr & Hpair)]; [apply Hu| |..].
    { intros r. split; [by intros [-> ->]|by injection 1]. }
    + left. split; [done|]. unfold get_attribute_value.
      rewrite (objects_get_unique attr_key MAttribute _ (attributes db) a);
        [|apply Hu|done|by rewrite Hkey].
      simpl. unfold product_attr_get, objects_get. by rewrite Hnorow.
    + right. exists r. split; [done|]. split; [done|].
      injection Hpair as Hp Hattr. intros shown Hshown. rewrite <- Hkey.
      by apply (get_attribute_value_saved db product a r shown).
Qed.

(** X30: [get_product_gender] reads the flexible store first, as
    [Product.get_attribute_value] does for the key [gender].  A value that
    is not empty is the gender; when the row holds an empty value the answer
    is [None] or the empty string, and the name of the category is not
    consulted; the name of the category decides only when the product has no
    flexible gender row. *)
Theorem get_product_gender_flexible_first (db : DB) (product : Product) :
  db_unique db → db_references db →
  (∀ v, get_attribute_value db product "gender" = Return (Some v) → v ≠ "" →
        get_product_gender db product = Return (Some v))
  ∧ (get_attribute_value db product "gender" = Return (Some "") →
     get_product_gender db product = Return None
     ∨ get_product_gender db product = Return (Some ""))
  ∧ (get_attribute_value db product "gender" = Return None →
     get_product_gender db product
     = (category ← objects_get MCategory (λ c, cat_id c = prod_category product)
                               (categories db);
        Return (get_gender category))).
Proof.
  intros Hu Href. unfold get_product_gender.
  destruct (gender_rows_cases db product Hu) as [[-> Hget]|(r & -> & Hr & Hget)].
  - rewrite Hget. simpl. split; [done|]. split; [done|]. done.
  - simpl.
    assert (Hcases :
      (∃ v, attribute_value_of db r = Return (Some v)
            ∧ get_display_value db r = Return (nav_value v))
      ∨ (attribute_value_of db r = Return None
         ∧ get_display_value db r = Return (default "" (pav_custom_value r)))).
    { unfold attribute_value_of, get_display_value.
      destruct (pav_attribute_value r) as [pk|] eqn:Hpk; [|by right].
      left. destruct (attribute_value_exists db Href r pk Hr Hpk) as (v & Hv & Hid).
      exists v.
      rewrite (objects_get_unique nav_id MNewAttributeValue _ (attribute_values db) v);
        [done|apply Hu|done|]. intros v'. by rewrite Hid. }
    destruct Hcases as [(v & -> & Hshown)|[-> Hshown]]; apply Hget in Hshown;
      rewrite Hshown.
    + split; [by intros ? [= <-]|]. split; [|done]. intros [= ->]. by right.
    + split; [|split; [|done]].
      * intros v [= Hv] Hne. destruct (pav_custom_value r) as [custom|]; simpl in Hv;
          by subst.
      * intros [= Hv]. destruct (pav_custom_value r) as [custom|]; simpl in Hv;
          [right; by subst|by left].
Qed.

Lemma gender_db_unique : db_unique gender_db.
Proof. constructor; simpl; concrete_nodup. Defined.

Lemma gender_db_references : db_references gender_db.
Proof.
  constructor; simpl.
  - intros r Hr. exists {| attr_id := 1; attr_key := "gender" |}. split; [left|].
    apply elem_of_cons in Hr as [->|Hr]; [done|].
    apply list_elem_of_singleton in Hr as ->. done.
  - intros r pk Hr Hpk. exists {| nav_id := 1; nav_attribute := 1; nav_value := "men" |}.
    split; [left|].
    apply elem_of_cons in Hr as [->|Hr]; [by injection Hpk|].
    apply list_elem_of_singleton in Hr as ->. done.
Defined.

Lemma get_product_gender_flexible_first_witness :
  get_product_gender gender_db (mk_product 11 2 2 true) = Return (Some "men")
  ∧ get_product_gender gender_db (mk_product 12 2 3 true) = Return (Some gender_men).
Proof.
  destruct (get_product_gender_flexible_first gender_db (mk_product 11 2 2 true)
              gender_db_unique gender_db_references) as (Hvalue & _ & _).
  destruct (get_product_gender_flexible_first gender_db (mk_product 12 2 3 true)
              gender_db_unique gender_db_references) as (_ & _ & Hname).
  split.
  - apply Hvalue; [reflexivity|discriminate].
  - rewrite Hname; reflexivity.
Defined.
